(** * PasteMax: directory ingestion, live watching and content formatting

    A shallow embedding of [main.js] (path helpers, token counter,
    single-file pipeline, recursive scanner, request and cancel
    handlers, watcher wiring) and of [formatContentForCopying],
    followed by the properties of the engine stated over it.

    Conventions.
    - A JavaScript string is a [string]; [length] counts its code units;
      case mapping and [trim] are the ASCII ones.
    - A JavaScript computation that may throw has type [Completion A];
      [null] and a property left out of an object literal are [None].
    - The process-wide variables of [main.js] ([isLoadingDirectory],
      [loadingTimeoutId], [currentWatcher]) are fields of [Main], next
      to the trace of what the process did. Asynchronous functions are
      state transformers on [Main]. JavaScript runs one handler at a
      time: another handler can only run while a function waits for an
      I/O operation, so every such [await] is a point where the
      cancel request that is on its way may be dispatched ([awaitIO]).
      That cancel is the only handler dispatched there: a request is
      followed from its first line to its last with no other request
      accepted meanwhile. What is stated of a request is stated of such
      a run; a request accepted while an earlier, cancelled walk is
      still suspended sets the flag again, and is outside it.
    - The file system is what the walk finds: a [DirNode] gives, for a
      directory, its entries and what is below them, and a [FileIO]
      gives the outcomes of the stat and of the read of one file.
    - Node's [path] module, [process.platform], [app.getAppPath()], the
      tables of [excluded-files.js], the matchers of the [ignore]
      package and the tiktoken encoder are the fields of a [Host];
      [posixHost] is Node on a POSIX system. The matchers are total on
      the relative paths the guards let through; the [ignore] package
      throws on the empty path, which is the relative path of the root
      itself, so what is stated of the answer of a matcher is stated
      for a path that is not empty.
    - A [send] to the renderer succeeds; where the source first tests
      that the window is still there, the test is [windowOk]. *)

From Stdlib Require Import String Ascii List ZArith QArith Qround Lia Bool.
From Stdlib Require Import Numbers.DecimalString.
From Stdlib Require Import Permutation Sorted.
From Stdlib Require OrderedTypeEx.
Import ListNotations.

Local Close Scope Q_scope.
Local Open Scope list_scope.
Local Open Scope string_scope.

(* ------------------------------------------------------------------ *)
(** ** JavaScript strings *)

Module Js.

Definition slash : ascii := "/"%char.
Definition backslash : ascii := "\"%char.
Definition dot : ascii := "."%char.

Definition chars (s : string) : list ascii := list_ascii_of_string s.
Definition str (l : list ascii) : string := string_of_list_ascii l.

(** [s.startsWith(p)] *)
Definition startsWith (p s : string) : bool := String.prefix p s.

(** [s.endsWith(p)] *)
Definition endsWith (p s : string) : bool :=
  String.prefix (str (rev (chars p))) (str (rev (chars s))).

(** [s.includes(sub)] *)
Fixpoint includes (sub s : string) : bool :=
  String.prefix sub s ||
  match s with
  | EmptyString => false
  | String _ s' => includes sub s'
  end.

(** [arr.includes(x)] on an array of strings *)
Definition arrayIncludes (x : string) (arr : list string) : bool :=
  existsb (String.eqb x) arr.

(** [s.substring(1)] *)
Definition substring1 (s : string) : string :=
  match s with
  | EmptyString => EmptyString
  | String _ s' => s'
  end.

Fixpoint mapChars (f : ascii -> ascii) (s : string) : string :=
  match s with
  | EmptyString => EmptyString
  | String c s' => String (f c) (mapChars f s')
  end.

Definition lowerChar (c : ascii) : ascii :=
  let n := nat_of_ascii c in
  if (65 <=? n)%nat && (n <=? 90)%nat then ascii_of_nat (n + 32) else c.

Definition upperChar (c : ascii) : ascii :=
  let n := nat_of_ascii c in
  if (97 <=? n)%nat && (n <=? 122)%nat then ascii_of_nat (n - 32) else c.

Definition toLowerCase : string -> string := mapChars lowerChar.
Definition toUpperCase : string -> string := mapChars upperChar.

(** [s.replace(/\\/g, '/')] *)
Definition replaceBackslashes : string -> string :=
  mapChars (fun c => if Ascii.eqb c backslash then slash else c).

(** White space removed by [String.prototype.trim] (ASCII range). *)
Definition isSpace (c : ascii) : bool :=
  let n := nat_of_ascii c in
  (n =? 32)%nat || ((9 <=? n)%nat && (n <=? 13)%nat).

Fixpoint trimStartChars (l : list ascii) : list ascii :=
  match l with
  | c :: l' => if isSpace c then trimStartChars l' else l
  | [] => []
  end.

Definition trim (s : string) : string :=
  str (rev (trimStartChars (rev (trimStartChars (chars s))))).

(** Decimal rendering of a count inside a template literal. *)
Definition ofNat (n : nat) : string :=
  NilEmpty.string_of_uint (Nat.to_uint n).

(** Removal of every occurrence of a literal, left to right:
    [s.replace(/lit/g, '')]. The fuel bounds the scan; [length s]
    is enough since every step consumes at least one character. *)
Fixpoint dropN (n : nat) (s : string) : string :=
  match n, s with
  | S n', String _ s' => dropN n' s'
  | _, _ => s
  end.

Fixpoint removeAllFuel (fuel : nat) (lit s : string) : string :=
  match fuel with
  | O => s
  | S fuel' =>
    match s with
    | EmptyString => EmptyString
    | String c s' =>
      if String.prefix lit s && negb (String.eqb lit "")
      then removeAllFuel fuel' lit (dropN (String.length lit) s)
      else String c (removeAllFuel fuel' lit s')
    end
  end.

Definition removeAll (lit s : string) : string :=
  removeAllFuel (String.length s) lit s.

(** [s.split(c)] for a one-character separator. *)
Fixpoint splitOn (c : ascii) (s : string) : list string :=
  match s with
  | EmptyString => [EmptyString]
  | String a s' =>
    if Ascii.eqb a c then EmptyString :: splitOn c s'
    else match splitOn c s' with
         | seg :: rest => String a seg :: rest
         | [] => [String a EmptyString]
         end
  end.

End Js.

(* ------------------------------------------------------------------ *)
(** ** Completions *)

(** A Node error object: [err.code] and [err.message]. *)
Record Error := mkError { code : string; message : string }.

Inductive Completion (A : Type) : Type :=
| Normal (a : A)
| Throw (e : Error).
Arguments Normal {A} a.
Arguments Throw {A} e.

Definition cbind {A B} (c : Completion A) (k : A -> Completion B) : Completion B :=
  match c with
  | Normal a => k a
  | Throw e => Throw e
  end.

(** [try { body } catch (err) { handler }] *)
Definition tryCatch {A} (body : Completion A) (handler : Error -> A) : A :=
  match body with
  | Normal a => a
  | Throw e => handler e
  end.

Declare Scope js_scope.
Delimit Scope js_scope with js.
Notation "x <- c ;; k" := (cbind c (fun x => k))
  (at level 61, c at next level, right associativity) : js_scope.

(* ------------------------------------------------------------------ *)
(** ** Node's [path] module, POSIX flavour *)

Module Posix.
Import Js.

(** Splitting at every ["/"]: [split "/a/b" = [""; "a"; "b"]]. *)
Definition split (s : string) : list string := splitOn slash s.

Definition unsplit (segs : list string) : string := String.concat "/" segs.

(** One step of [normalizeString]: the stack holds the segments kept
    so far, innermost first. *)
Definition normStep (allowAboveRoot : bool) (stack : list string) (seg : string)
  : list string :=
  if String.eqb seg "" then stack
  else if String.eqb seg "." then stack
  else if String.eqb seg ".." then
    match stack with
    | top :: rest =>
      if String.eqb top ".." then (if allowAboveRoot then seg :: stack else stack)
      else rest
    | [] => if allowAboveRoot then [seg] else []
    end
  else seg :: stack.

Definition normSegments (allowAboveRoot : bool) (segs : list string) : list string :=
  rev (fold_left (normStep allowAboveRoot) segs []).

Definition isAbsolute (p : string) : bool := startsWith "/" p.

Definition normalize (p : string) : string :=
  if String.eqb p "" then "."
  else
    let isAbs := isAbsolute p in
    let trailing := endsWith "/" p in
    let body := unsplit (normSegments (negb isAbs) (split p)) in
    if String.eqb body "" then
      (if isAbs then "/" else if trailing then "./" else ".")
    else
      let body := if trailing then body ++ "/" else body in
      if isAbs then "/" ++ body else body.

(** [path.join(a, b)] *)
Definition join (a b : string) : string :=
  if String.eqb a "" then (if String.eqb b "" then "." else normalize b)
  else if String.eqb b "" then normalize a
  else normalize (a ++ "/" ++ b).

(** [path.resolve(p)] in a process whose working directory is [cwd]
    (an absolute path). *)
Definition resolve (cwd p : string) : string :=
  let full := if isAbsolute p then p
              else if String.eqb p "" then cwd else cwd ++ "/" ++ p in
  "/" ++ unsplit (normSegments false (split full)).

Fixpoint dropCommon (a b : list string) : list string * list string :=
  match a, b with
  | x :: a', y :: b' => if String.eqb x y then dropCommon a' b' else (a, b)
  | _, _ => (a, b)
  end.

(** [path.relative(from, to)] *)
Definition relative (cwd from to : string) : string :=
  if String.eqb from to then ""
  else
    let f := normSegments false (split (resolve cwd from)) in
    let t := normSegments false (split (resolve cwd to)) in
    let '(restFrom, restTo) := dropCommon f t in
    unsplit (map (fun _ => "..") restFrom ++ restTo)%list.

(** Last non-empty segment, or [""]. *)
Fixpoint lastSegment (segs : list string) : string :=
  match segs with
  | [] => ""
  | seg :: rest =>
    let r := lastSegment rest in
    if String.eqb r "" then seg else r
  end.

(** [path.basename(p)] *)
Definition basename (p : string) : string := lastSegment (split p).

(** The characters after the last dot, in reverse, and whether
    something precedes that dot. *)
Fixpoint cutAtDot (revBase : list ascii) (acc : list ascii)
  : option (list ascii * bool) :=
  match revBase with
  | [] => None
  | c :: more =>
    if Ascii.eqb c dot
    then Some (c :: acc, match more with [] => false | _ => true end)
    else cutAtDot more (c :: acc)
  end.

(** [path.extname(p)]: from the last dot of the base name, unless that
    dot is its first character or the base name is [".."]. *)
Definition extname (p : string) : string :=
  let base := basename p in
  if String.eqb base ".." then ""
  else match cutAtDot (rev (chars base)) [] with
       | Some (ext, true) => str ext
       | _ => ""
       end.

End Posix.


(* ------------------------------------------------------------------ *)
(** ** The host: what [main.js] imports *)

Inductive Platform := Win32 | Darwin | Linux | OtherPlatform.

(** [encoder.encode(text)]: the token ids, or an exception. *)
Definition Encoder := string -> Completion (list nat).

Record Host := mkHost {
  platform : Platform;                        (* process.platform *)
  path_isAbsolute : string -> bool;           (* path.isAbsolute *)
  path_resolve : string -> string;            (* path.resolve, one argument *)
  path_join : string -> string -> string;     (* path.join, two arguments *)
  path_relative : string -> string -> string; (* path.relative *)
  path_extname : string -> string;            (* path.extname *)
  path_basename : string -> string;           (* path.basename *)
  appPath : string;                           (* app.getAppPath() *)
  binaryExtensions : list string;             (* excluded-files.js *)
  excludedFilesMatcher : string -> bool;      (* ignore().add(excludedFiles).ignores *)
  gitignoreFilter : string -> string -> bool; (* the matcher loadGitignore compiles for a root *)
  encoder : option Encoder;                   (* null when tiktoken failed to load *)
  chokidarLoaded : bool                       (* chokidar !== null *)
}.

(** The outcome of [fs.promises.stat] (the size) and of
    [fs.promises.readFile(_, "utf8")] on one path. *)
Record FileIO := mkFileIO {
  io_stat : Completion Z;
  io_read : Completion string
}.

#[local] Set Warnings "-register-all".

(** What [readdir(dir, { withFileTypes: true })] yields for a directory,
    with the entries already separated as lines 439-440 separate them:
    those for which [isDirectory()] holds, each with what is below it,
    and those for which [isFile()] holds; or the error it throws. *)
Inductive DirNode :=
| Listing (directories : list (string * DirNode)) (files : list (string * FileIO))
| Unreadable (err : Error).

(** Max file size to read (5MB) *)
Definition MAX_FILE_SIZE : Z := 5 * 1024 * 1024.
Definition MAX_DIRECTORY_LOAD_TIME : Z := 60000. (* 60 seconds timeout *)
Definition CHUNK_SIZE : nat := 20.

(** A file object as [main.js] builds it. A field that an object
    literal leaves out is [None]. *)
Record FileRecord := mkFileRecord {
  name : string;
  path : string;
  relativePath : string;
  size : Z;
  isBinary : bool;
  isSkipped : bool;
  content : option string;
  tokenCount : Z;
  fileType : option string;
  error : option string;
  excludedByDefault : option bool
}.

Definition set_isSkipped (v : bool) (f : FileRecord) : FileRecord :=
  mkFileRecord (name f) (path f) (relativePath f) (size f) (isBinary f) v
    (content f) (tokenCount f) (fileType f) (error f) (excludedByDefault f).
Definition set_error (v : string) (f : FileRecord) : FileRecord :=
  mkFileRecord (name f) (path f) (relativePath f) (size f) (isBinary f) (isSkipped f)
    (content f) (tokenCount f) (fileType f) (Some v) (excludedByDefault f).
Definition set_isBinary (v : bool) (f : FileRecord) : FileRecord :=
  mkFileRecord (name f) (path f) (relativePath f) (size f) v (isSkipped f)
    (content f) (tokenCount f) (fileType f) (error f) (excludedByDefault f).
Definition set_fileType (v : string) (f : FileRecord) : FileRecord :=
  mkFileRecord (name f) (path f) (relativePath f) (size f) (isBinary f) (isSkipped f)
    (content f) (tokenCount f) (Some v) (error f) (excludedByDefault f).
Definition set_content (v : string) (f : FileRecord) : FileRecord :=
  mkFileRecord (name f) (path f) (relativePath f) (size f) (isBinary f) (isSkipped f)
    (Some v) (tokenCount f) (fileType f) (error f) (excludedByDefault f).
Definition set_tokenCount (v : Z) (f : FileRecord) : FileRecord :=
  mkFileRecord (name f) (path f) (relativePath f) (size f) (isBinary f) (isSkipped f)
    (content f) v (fileType f) (error f) (excludedByDefault f).

(** An element of [serializedFiles] in the request handler. *)
Record SerializedFile := mkSerializedFile {
  ser_path : string;
  ser_relativePath : string;
  ser_name : string;
  ser_size : Z;
  ser_isDirectory : option bool;
  ser_extension : string;
  ser_excluded : bool;
  ser_content : option string;
  ser_tokenCount : Z;
  ser_isBinary : bool;
  ser_isSkipped : bool;
  ser_error : option string
}.

Inductive Status := processing | busy | complete | cancelled | errored.

(** Messages to the renderer. *)
Inductive Ipc :=
| FileProcessingStatus (status : Status) (msg : string)
| FileListData (files : list SerializedFile)
| FileAdded (f : FileRecord)
| FileUpdated (f : FileRecord)
| FileRemoved (p : string).

(** What the main process does that is visible outside it. *)
Inductive Effect :=
| Sent (m : Ipc)
| Readdir (p : string)
| Stat (p : string)
| ReadFile (p : string)
| WatcherClose.

(** The closure [chokidar.watch] is armed with: the root and the ignore
    filter of the scan that created it. *)
Record Watcher := mkWatcher {
  watch_root : string;
  watch_filter : string -> bool
}.

(** The global variables of [main.js], the state of the requesting
    window, the cancel request still on its way (the number of I/O
    completions that precede its dispatch), and the effects so far,
    most recent first. *)
Record Main := mkMain {
  isLoadingDirectory : bool;
  loadingTimeoutId : option Z;
  currentWatcher : option Watcher;
  windowOk : bool;
  pendingCancel : option nat;
  trace : list Effect
}.

Definition set_loading (v : bool) (s : Main) : Main :=
  mkMain v (loadingTimeoutId s) (currentWatcher s) (windowOk s) (pendingCancel s) (trace s).
Definition set_timeout (v : option Z) (s : Main) : Main :=
  mkMain (isLoadingDirectory s) v (currentWatcher s) (windowOk s) (pendingCancel s) (trace s).
Definition set_watcher (v : option Watcher) (s : Main) : Main :=
  mkMain (isLoadingDirectory s) (loadingTimeoutId s) v (windowOk s) (pendingCancel s) (trace s).
Definition set_pending (v : option nat) (s : Main) : Main :=
  mkMain (isLoadingDirectory s) (loadingTimeoutId s) (currentWatcher s) (windowOk s) v (trace s).
Definition emit (e : Effect) (s : Main) : Main :=
  mkMain (isLoadingDirectory s) (loadingTimeoutId s) (currentWatcher s) (windowOk s)
    (pendingCancel s) (e :: trace s).

(** [webContents.send(channel, payload)] *)
Definition send (m : Ipc) (s : Main) : Main := emit (Sent m) s.

(** The result of a loop body that may [return] from the function. *)
Inductive Flow :=
| Returned (results : list FileRecord) (s : Main)
| Fallthrough (results : list FileRecord) (s : Main).

(* ------------------------------------------------------------------ *)
(** ** [main.js] *)

Section MainJs.

Variable H : Host.
Import Js.

Definition normalizePath (filePath : string) : string :=
  if String.eqb filePath "" then filePath
  else
    match platform H with
    | Win32 =>
      if startsWith "\\" filePath
      then "\\" ++ replaceBackslashes (substring1 (substring1 filePath))
      else replaceBackslashes filePath
    | _ => replaceBackslashes filePath
    end.

Definition ensureAbsolutePath (inputPath : string) : string :=
  let inputPath :=
    if negb (path_isAbsolute H inputPath) then path_resolve H inputPath
    else inputPath in
  normalizePath inputPath.

Definition safePathJoin (a b : string) : string :=
  normalizePath (path_join H a b).

Definition safeRelativePath (from to : string) : string :=
  let from := normalizePath from in
  let to := normalizePath to in
  let '(from, to) :=
    match platform H with
    | Win32 => (toLowerCase from, toLowerCase to)
    | _ => (from, to)
    end in
  normalizePath (path_relative H from to).

(** [path.parse] throws only when its argument is not a string. *)
Definition isValidPath (pathToCheck : string) : bool := true.

(** [loadGitignore(rootDir)] *)
Definition loadGitignore (rootDir : string) : string -> bool :=
  gitignoreFilter H (ensureAbsolutePath rootDir).

(** [/^(CON|PRN|AUX|NUL|COM[1-9]|LPT[1-9])$/i.test(b)] *)
Definition isReservedDeviceName (b : string) : bool :=
  let u := toUpperCase b in
  arrayIncludes u ["CON"; "PRN"; "AUX"; "NUL"] ||
  existsb (fun d => String.eqb u ("COM" ++ d) || String.eqb u ("LPT" ++ d))
    ["1"; "2"; "3"; "4"; "5"; "6"; "7"; "8"; "9"].

(** [shouldExcludeByDefault(filePath, rootDir)]; the matcher of the
    excluded-files list is asked about the relative path, which is not
    empty unless [filePath] is the root. *)
Definition shouldExcludeByDefault (filePath rootDir : string) : bool :=
  let filePath := ensureAbsolutePath filePath in
  let rootDir := ensureAbsolutePath rootDir in
  let relativePath := safeRelativePath rootDir filePath in
  if negb (isValidPath relativePath) || startsWith ".." relativePath then true
  else if match platform H with
          | Win32 =>
            isReservedDeviceName (path_basename H filePath) ||
            includes "\windows\" (toLowerCase filePath) ||
            includes "\system32\" (toLowerCase filePath)
          | Darwin =>
            includes "/.Spotlight-" filePath || includes "/.Trashes" filePath ||
            includes "/.fseventsd" filePath
          | Linux =>
            startsWith "/proc/" filePath || startsWith "/sys/" filePath ||
            startsWith "/dev/" filePath
          | OtherPlatform => false
          end
  then true
  else excludedFilesMatcher H relativePath.

(** Check if file is binary based on extension *)
Definition isBinaryFile (filePath : string) : bool :=
  let ext := toLowerCase (path_extname H filePath) in
  arrayIncludes ext (binaryExtensions H).

(** [Math.ceil(text.length / 4)]; the quotient is exact in double
    precision, so it is taken in the rationals. *)
Definition fallbackEstimate (text : string) : Z :=
  Qceiling (Z.of_nat (String.length text) # 4).

(** Count tokens using tiktoken with o200k_base encoding *)
Definition countTokens (text : string) : Completion Z :=
  match encoder H with
  | None => Normal (fallbackEstimate text)
  | Some enc =>
    Normal (tryCatch
      (let cleanText := removeAll "<|endoftext|>" text in
       tokens <- enc cleanText ;;
       Normal (Z.of_nat (List.length tokens)))%js
      (fun err => fallbackEstimate text))
  end.

(** The object returned by the [catch] of [processSingleFile]. *)
Definition singleFileError (fullPath rootDir : string) (err : Error) : FileRecord :=
  {| name := path_basename H fullPath;
     path := normalizePath fullPath;
     relativePath := safeRelativePath rootDir fullPath;
     size := 0;
     isBinary := false;
     isSkipped := true;
     error := Some ("Error: " ++ message err);
     content := Some "";
     tokenCount := 0;
     fileType := None;
     excludedByDefault := Some (shouldExcludeByDefault fullPath rootDir) |}.

(** [processSingleFile(fullPath, rootDir, ignoreFilter)], run against
    the outcomes [io] of the stat and of the read of that path.
    [None] is [null]. *)
Definition processSingleFile (fullPath rootDir : string)
    (ignoreFilter : string -> bool) (io : FileIO) : option FileRecord :=
  let fullPath := ensureAbsolutePath fullPath in
  let rootDir := ensureAbsolutePath rootDir in
  tryCatch
    (let relativePath := safeRelativePath rootDir fullPath in
     if negb (isValidPath relativePath) || startsWith ".." relativePath
     then Normal None
     else if ignoreFilter relativePath then Normal None
     else
       stats_size <- io_stat io ;;
       let fileData :=
         {| name := path_basename H fullPath;
            path := normalizePath fullPath;
            relativePath := relativePath;
            size := stats_size;
            isBinary := false;
            isSkipped := false;
            content := Some "";
            tokenCount := 0;
            fileType := None;
            error := None;
            excludedByDefault := Some (shouldExcludeByDefault fullPath rootDir) |} in
       if (stats_size >? MAX_FILE_SIZE)%Z
       then Normal (Some (set_error "File too large to process"
                            (set_isSkipped true fileData)))
       else
         let ext := toLowerCase (substring1 (path_extname H fullPath)) in
         if arrayIncludes ext (binaryExtensions H)
         then Normal (Some (set_fileType (toUpperCase ext)
                              (set_isBinary true fileData)))
         else
           content <- io_read io ;;
           tokens <- countTokens content ;;
           Normal (Some (set_tokenCount tokens (set_content content fileData))))%js
    (fun err => Some (singleFileError fullPath rootDir err)).

(* ---------------------------------------------------------------- *)
(** *** Cancellation *)

(** [cancelDirectoryLoading(window)] *)
Definition cancelDirectoryLoading (s : Main) : Main :=
  if negb (isLoadingDirectory s) then s
  else
    let s := set_loading false s in
    let s := set_timeout None s in
    if windowOk s
    then send (FileProcessingStatus cancelled "Directory loading cancelled") s
    else s.

(** [setupDirectoryLoadingTimeout(window, folderPath)]; the timer, when
    it fires, runs [cancelDirectoryLoading], as a cancel request does. *)
Definition setupDirectoryLoadingTimeout (s : Main) : Main :=
  set_timeout (Some MAX_DIRECTORY_LOAD_TIME) s.

(** [await] on an I/O operation: the operation is issued, and the
    event loop runs before the function resumes. A cancel request
    (the IPC message, the Escape shortcut or the safety timer) that is
    due is handled there. No other handler is: in particular no
    request is accepted at an [await], so the flag, once reset, is not
    set again under a walk. *)
Definition awaitIO (op : Effect) (s : Main) : Main :=
  let s := emit op s in
  match pendingCancel s with
  | None => s
  | Some O => cancelDirectoryLoading (set_pending None s)
  | Some (S k) => set_pending (Some k) s
  end.

(* ---------------------------------------------------------------- *)
(** *** The scanner *)

(** [/\.app($|\/)/.test(fullPath)] *)
Definition isAppBundlePath (fullPath : string) : bool :=
  includes ".app/" fullPath || endsWith ".app" fullPath.

(** The object returned by the per-file [catch] of the scanner. *)
Definition chunkTaskError (direntName fullPath relativePath : string) (err : Error)
  : FileRecord :=
  {| name := direntName;
     path := normalizePath fullPath;
     relativePath := relativePath;
     tokenCount := 0;
     size := 0;
     isBinary := false;
     isSkipped := true;
     error := Some (if String.eqb (code err) "EPERM" then "Permission denied"
                    else if String.eqb (code err) "ENOENT" then "File not found"
                    else "Could not read file");
     content := None;
     fileType := None;
     excludedByDefault := None |}.

(** The per-file task of a chunk (the function mapped over [chunk]). *)
Definition chunkTask (dir rootDir : string) (ignoreFilter : string -> bool)
    (dirent : string * FileIO) (s : Main) : option FileRecord * Main :=
  let direntName := fst dirent in
  let io := snd dirent in
  if negb (isLoadingDirectory s) then (None, s)
  else
    let fullPath := safePathJoin dir direntName in
    let relativePath := safeRelativePath rootDir fullPath in
    let isAppBundleFile := isAppBundlePath fullPath in
    if isAppBundleFile || String.eqb fullPath (appPath H) ||
       negb (isValidPath relativePath) || startsWith ".." relativePath
    then (None, s)
    else if ignoreFilter relativePath then (None, s)
    else
      let s := awaitIO (Stat fullPath) s in
      match io_stat io with
      | Throw err => (Some (chunkTaskError direntName fullPath relativePath err), s)
      | Normal stats_size =>
        if negb (isLoadingDirectory s) then (None, s)
        else if (stats_size >? MAX_FILE_SIZE)%Z then
          (Some {| name := direntName;
                   path := normalizePath fullPath;
                   relativePath := relativePath;
                   tokenCount := 0;
                   size := stats_size;
                   content := Some "";
                   isBinary := false;
                   isSkipped := true;
                   error := Some "File too large to process";
                   fileType := None;
                   excludedByDefault := None |}, s)
        else if isBinaryFile fullPath then
          (Some {| name := direntName;
                   path := normalizePath fullPath;
                   relativePath := relativePath;
                   tokenCount := 0;
                   size := stats_size;
                   content := Some "";
                   isBinary := true;
                   isSkipped := false;
                   fileType := Some (toUpperCase (substring1 (path_extname H fullPath)));
                   error := None;
                   excludedByDefault := None |}, s)
        else
          let s := awaitIO (ReadFile fullPath) s in
          match io_read io with
          | Throw err => (Some (chunkTaskError direntName fullPath relativePath err), s)
          | Normal fileContent =>
            if negb (isLoadingDirectory s) then (None, s)
            else
              match countTokens fileContent with
              | Throw err =>
                (Some (chunkTaskError direntName fullPath relativePath err), s)
              | Normal tokens =>
                (Some {| name := direntName;
                         path := normalizePath fullPath;
                         relativePath := relativePath;
                         content := Some fileContent;
                         tokenCount := tokens;
                         size := stats_size;
                         isBinary := false;
                         isSkipped := false;
                         fileType := None;
                         error := None;
                         excludedByDefault := None |}, s)
              end
          end
      end.

(** [await Promise.all(chunk.map(task))]. The tasks of a chunk share
    nothing but [isLoadingDirectory]; they are run here one after the
    other in enumeration order, which is the order of their results.
    [chunk.map] starts every task up to its first [await] before any
    resumes: the stats and reads of one chunk may be issued in another
    order than here, the records and their order are the same. *)
Fixpoint promiseAll (task : string * FileIO -> Main -> option FileRecord * Main)
    (chunk : list (string * FileIO)) (s : Main)
  : list (option FileRecord) * Main :=
  match chunk with
  | [] => ([], s)
  | dirent :: chunk' =>
    let '(r, s) := task dirent s in
    let '(rs, s) := promiseAll task chunk' s in
    (r :: rs, s)
  end.

(** [chunkResults.filter(result => result !== null)] *)
Fixpoint nonNull (l : list (option FileRecord)) : list FileRecord :=
  match l with
  | [] => []
  | Some r :: l' => r :: nonNull l'
  | None :: l' => nonNull l'
  end.

Definition processingMessage (processedFiles total : nat) : Ipc :=
  FileProcessingStatus processing
    ("Processing files... " ++ ofNat processedFiles ++ "/" ++ ofNat total ++
     " (Press ESC to cancel)").

(** The loop [for (let i = 0; i < files.length; i += CHUNK_SIZE)].
    One unit of fuel per iteration; [length files] iterations are
    never exceeded. *)
Fixpoint chunkLoop (dir rootDir : string) (ignoreFilter : string -> bool)
    (files : list (string * FileIO)) (fuel i : nat)
    (results : list FileRecord) (processedFiles : nat) (s : Main) : Flow :=
  match fuel with
  | O => Fallthrough results s
  | S fuel' =>
    if negb (i <? List.length files)%nat then Fallthrough results s
    else if negb (isLoadingDirectory s) then Returned results s
    else
      let chunk := firstn CHUNK_SIZE (skipn i files) in
      let '(chunkResults, s) :=
        promiseAll (chunkTask dir rootDir ignoreFilter) chunk s in
      if negb (isLoadingDirectory s) then Returned results s
      else
        let results := (results ++ nonNull chunkResults)%list in
        let processedFiles := (processedFiles + List.length chunk)%nat in
        let s := send (processingMessage processedFiles (List.length files)) s in
        chunkLoop dir rootDir ignoreFilter files fuel' (i + CHUNK_SIZE)%nat
          results processedFiles s
  end.

Definition scanningMessage : Ipc :=
  FileProcessingStatus processing "Scanning directories... (Press ESC to cancel)".

(** The loop [for (const dirent of directories)]. [recurse child
    fullPath] is the recursive call on the sub-directory. *)
Fixpoint dirLoop (recurse : DirNode -> string -> Main -> list FileRecord * Main)
    (dir rootDir : string) (ignoreFilter : string -> bool)
    (directories : list (string * DirNode)) (results : list FileRecord) (s : Main)
    {struct directories} : Flow :=
  match directories with
  | [] => Fallthrough results s
  | (direntName, child) :: directories' =>
    if negb (isLoadingDirectory s) then Returned results s
    else
      let fullPath := safePathJoin dir direntName in
      let relativePath := safeRelativePath rootDir fullPath in
      let isAppBundle := isAppBundlePath fullPath in
      if isAppBundle || String.eqb fullPath (appPath H) ||
         negb (isValidPath relativePath) || startsWith ".." relativePath
      then dirLoop recurse dir rootDir ignoreFilter directories' results s
      else if negb (ignoreFilter relativePath) then
        let '(subResults, s) := recurse child fullPath s in
        if negb (isLoadingDirectory s) then Returned results s
        else
          let results := (results ++ subResults)%list in
          dirLoop recurse dir rootDir ignoreFilter directories' results
            (send scanningMessage s)
      else dirLoop recurse dir rootDir ignoreFilter directories' results
             (send scanningMessage s)
  end.

(** [readFilesRecursively(dir, rootDir, ignoreFilter, window)], where
    [node] is what the file system holds at [dir]. *)
Fixpoint readFilesRecursively (node : DirNode) (dir rootDir : string)
    (ignoreFilter : option (string -> bool)) (s : Main) {struct node}
  : list FileRecord * Main :=
  if negb (isLoadingDirectory s) then ([], s)
  else
    let dir := ensureAbsolutePath dir in
    let rootDir := ensureAbsolutePath (if String.eqb rootDir "" then dir else rootDir) in
    let ignoreFilter :=
      match ignoreFilter with
      | Some f => f
      | None => loadGitignore rootDir
      end in
    let s := awaitIO (Readdir dir) s in
    match node with
    | Unreadable err => ([], s)
    | Listing directories files =>
      if negb (isLoadingDirectory s) then ([], s)
      else
        match dirLoop
                (fun child fullPath s =>
                   readFilesRecursively child fullPath rootDir (Some ignoreFilter) s)
                dir rootDir ignoreFilter directories [] s with
        | Returned results s => (results, s)
        | Fallthrough results s =>
          match chunkLoop dir rootDir ignoreFilter files (List.length files) 0
                  results 0 s with
          | Returned results s => (results, s)
          | Fallthrough results s => (results, s)
          end
        end
    end.

(* ---------------------------------------------------------------- *)
(** *** The request handler and the watcher *)

(** An element of [serializedFiles]. *)
Definition serialize (folderPath : string) (file : FileRecord) : SerializedFile :=
  {| ser_path := path file;
     ser_relativePath := relativePath file;
     ser_name := name file;
     ser_size := size file;
     ser_isDirectory := None;
     ser_extension := toLowerCase (path_extname H (name file));
     ser_excluded := shouldExcludeByDefault (path file) folderPath;
     ser_content := content file;
     ser_tokenCount := tokenCount file;
     ser_isBinary := isBinary file;
     ser_isSkipped := isSkipped file;
     ser_error := error file |}.

(** [await currentWatcher.close(); currentWatcher = null], when a
    watcher exists. *)
Definition closeWatcher (s : Main) : Main :=
  match currentWatcher s with
  | Some _ => set_watcher None (awaitIO WatcherClose s)
  | None => s
  end.

(** The [finally] block of the handler. *)
Definition resetLoading (s : Main) : Main :=
  set_timeout None (set_loading false s).

(** [ipcMain.on("request-file-list", ...)], where [node] is what the
    file system holds at [folderPath]. No step of the [try] block
    throws here: the walk catches its I/O errors itself. *)
Definition requestFileList (folderPath : string) (node : DirNode) (s : Main) : Main :=
  if isLoadingDirectory s then
    let s := closeWatcher s in
    if windowOk s
    then send (FileProcessingStatus busy
                 "Already processing another directory. Please wait.") s
    else s
  else
    let s := closeWatcher s in
    let s := set_loading true s in
    let s := setupDirectoryLoadingTimeout s in
    let s := send (FileProcessingStatus processing
                     "Scanning directory structure... (Press ESC to cancel)") s in
    let rootDir := ensureAbsolutePath folderPath in
    let ignoreFilter := loadGitignore rootDir in
    let '(files, s) := readFilesRecursively node rootDir rootDir (Some ignoreFilter) s in
    if negb (isLoadingDirectory s) then resetLoading s
    else
      let s := set_timeout None s in
      let s := set_loading false s in
      let s := send (FileProcessingStatus complete
                       ("Found " ++ ofNat (List.length files) ++ " files")) s in
      let serializedFiles := map (serialize folderPath) files in
      let s := send (FileListData serializedFiles) s in
      let s := if chokidarLoaded H
               then set_watcher (Some (mkWatcher rootDir ignoreFilter)) s
               else s in
      resetLoading s.

(** The [ignored] option given to [chokidar.watch]. *)
Definition watcherIgnored (w : Watcher) (filePath : string) : bool :=
  let rootDir := watch_root w in
  let ignoreFilter := watch_filter w in
  let absolutePath := ensureAbsolutePath filePath in
  let relative := safeRelativePath rootDir absolutePath in
  if String.eqb relative "" then false
  else
    let isInvalidOrOutside := negb (isValidPath relative) || startsWith ".." relative in
    let isIgnoredByRules :=
      if negb isInvalidOrOutside then ignoreFilter relative else false in
    isInvalidOrOutside || isIgnoredByRules.

(** The ['add'], ['change'] and ['unlink'] listeners. *)
Definition onAdd (w : Watcher) (filePath : string) (io : FileIO) (s : Main) : Main :=
  let normalizedPath := normalizePath filePath in
  match processSingleFile normalizedPath (watch_root w) (watch_filter w) io with
  | Some fileData => send (FileAdded fileData) s
  | None => s
  end.

Definition onChange (w : Watcher) (filePath : string) (io : FileIO) (s : Main) : Main :=
  let normalizedPath := normalizePath filePath in
  match processSingleFile normalizedPath (watch_root w) (watch_filter w) io with
  | Some fileData => send (FileUpdated fileData) s
  | None => s
  end.

Definition onUnlink (filePath : string) (s : Main) : Main :=
  let normalizedPath := normalizePath filePath in
  send (FileRemoved normalizedPath) s.

Inductive FsEvent := Add | Change | Unlink.

(** chokidar reports an event for a path only when the [ignored]
    option returned false for it; the listener of the event then runs. *)
Definition watcherEvent (w : Watcher) (ev : FsEvent) (filePath : string)
    (io : FileIO) (s : Main) : Main :=
  if watcherIgnored w filePath then s
  else match ev with
       | Add => onAdd w filePath io s
       | Change => onChange w filePath io s
       | Unlink => onUnlink filePath s
       end.

End MainJs.

(* ------------------------------------------------------------------ *)
(** ** A POSIX host *)

(** Node on Linux: [path] is [path.posix]; the rest of the host is given. *)
Definition posixHost (cwd app : string) (table : list string)
    (excluded : string -> bool) (gitignore : string -> string -> bool)
    (enc : option Encoder) (chokidar : bool) : Host :=
  {| platform := Linux;
     path_isAbsolute := Posix.isAbsolute;
     path_resolve := Posix.resolve cwd;
     path_join := Posix.join;
     path_relative := Posix.relative cwd;
     path_extname := Posix.extname;
     path_basename := Posix.basename;
     appPath := app;
     binaryExtensions := table;
     excludedFilesMatcher := excluded;
     gitignoreFilter := gitignore;
     encoder := enc;
     chokidarLoaded := chokidar |}.


(* ------------------------------------------------------------------ *)
(** ** [formatContentForCopying] *)

Module Format.
Import Js.

(** Modelled from the spec: the [FileData] interface of
    [types/FileTypes], with the fields that [formatContentForCopying]
    reads of a scanned file. *)
Record FileData := mkFileData {
  fd_path : string;
  fd_name : string;
  fd_content : string;
  fd_tokenCount : Z;
  fd_size : Z
}.

(** The imports of the module: [pathUtils], [languageUtils], and the
    collation behind [String.prototype.localeCompare]. *)
Record Utils := mkUtils {
  generateAsciiFileTree : list FileData -> string -> string;
  normalizePath : string -> string;
  basename : string -> string;
  isSubPath : string -> string -> bool;
  getLanguageFromFilename : string -> string;
  localeCompare : string -> string -> Z
}.

Record FormatContentParams := mkParams {
  files : list FileData;
  selectedFiles : list string;
  sortOrder : string;
  includeFileTree : bool;
  selectedFolder : option string;
  userInstructions : string
}.

(** [Array.prototype.sort(compare)]: a stable sort; [x] goes before
    the first element it does not have to follow. *)
Fixpoint insertBy {A} (compare : A -> A -> Z) (x : A) (l : list A) : list A :=
  match l with
  | [] => [x]
  | y :: l' => if (compare x y <=? 0)%Z then x :: l else y :: insertBy compare x l'
  end.

Fixpoint sortBy {A} (compare : A -> A -> Z) (l : list A) : list A :=
  match l with
  | [] => []
  | x :: l' => insertBy compare x (sortBy compare l')
  end.

(** [s.replace(/^\/+/, '')] *)
Fixpoint stripLeadingSlashes (s : string) : string :=
  match s with
  | String c s' => if Ascii.eqb c slash then stripLeadingSlashes s' else s
  | EmptyString => EmptyString
  end.

(** A string or [null] used as a condition. *)
Definition truthy (o : option string) : bool :=
  match o with
  | Some s => negb (String.eqb s "")
  | None => false
  end.

Section WithUtils.

Variable U : Utils.

Definition getRelativePath (selectedFolder filePath : string) : string :=
  let normalizedFolder := normalizePath U selectedFolder in
  let normalizedFile := normalizePath U filePath in
  if startsWith normalizedFolder normalizedFile
  then stripLeadingSlashes (dropN (String.length normalizedFolder) normalizedFile)
  else filePath.

Definition getFilesInFolder (files : list FileData) (folderPath : string)
  : list FileData :=
  let normalizedFolderPath := normalizePath U folderPath in
  filter (fun file => isSubPath U normalizedFolderPath (normalizePath U (fd_path file)))
    files.

(** The comparison function given to [sort]. *)
Definition compareFiles (sortOrder : string) (a b : FileData) : Z :=
  let parts := splitOn "-"%char sortOrder in
  let sortKey := nth_error parts 0 in
  let sortDir := nth_error parts 1 in
  let comparison :=
    match sortKey with
    | Some "name" => localeCompare U (fd_name a) (fd_name b)
    | Some "tokens" => (fd_tokenCount a - fd_tokenCount b)%Z
    | Some "size" => (fd_size a - fd_size b)%Z
    | _ => 0%Z
    end in
  match sortDir with
  | Some "asc" => comparison
  | _ => (- comparison)%Z
  end.

(** The block appended for one selected file. *)
Definition fileBlock (selectedFolder : option string) (file : FileData) : string :=
  let language := getLanguageFromFilename U (fd_name file) in
  let normalizedPath := normalizePath U (fd_path file) in
  let relativePath :=
    match selectedFolder with
    | Some folder =>
      if String.eqb folder "" then "" else getRelativePath folder (fd_path file)
    | None => ""
    end in
  let pathInfo :=
    if negb (String.eqb relativePath "") && negb (String.eqb relativePath (fd_path file))
    then
      let folderName :=
        match selectedFolder with
        | Some folder => if String.eqb folder "" then "" else basename U folder
        | None => ""
        end in
      "File: " ++ folderName ++ "/" ++ relativePath
    else "File: " ++ normalizedPath in
  pathInfo ++ "
```" ++ language ++ "
" ++ fd_content file ++ "
```

".

Definition noSelection : string := "No files selected.".

Definition formatContentForCopying (p : FormatContentParams) : string :=
  let sortedSelected :=
    sortBy (compareFiles (sortOrder p))
      (filter (fun file => arrayIncludes (fd_path file) (selectedFiles p)) (files p)) in
  match sortedSelected with
  | [] => noSelection
  | _ =>
    let concatenatedString := "" in
    let concatenatedString :=
      match selectedFolder p with
      | Some folder =>
        if includeFileTree p && truthy (selectedFolder p) then
          let normalizedFolder := normalizePath U folder in
          let allFolderFiles := getFilesInFolder (files p) folder in
          let asciiTree := generateAsciiFileTree U allFolderFiles folder in
          concatenatedString ++ "<FILE STRUCTURE>
" ++ normalizedFolder ++ "
" ++ asciiTree ++ "
</FILE STRUCTURE>

"
        else concatenatedString
      | None => concatenatedString
      end in
    let concatenatedString := concatenatedString ++ "<CODEBASE>
" in
    let concatenatedString :=
      fold_left (fun acc file => acc ++ fileBlock (selectedFolder p) file)
        sortedSelected concatenatedString in
    let concatenatedString := concatenatedString ++ "</CODEBASE>

" in
    if negb (String.eqb (trim (userInstructions p)) "")
    then concatenatedString ++ "<user_instructions>
" ++ trim (userInstructions p) ++ "
</user_instructions>"
    else concatenatedString
  end.

End WithUtils.

End Format.

(* ------------------------------------------------------------------ *)
(** ** Vocabulary of the statements, and data for the examples *)

Import Js.

(** The end-of-text sentinel removed before encoding. *)
Definition sentinel : string := "<|endoftext|>".

(** [countTokens] takes the length-based estimate: there is no encoder,
    or [encode] throws on the cleaned text. *)
Definition usesFallback (H : Host) (text : string) : bool :=
  match encoder H with
  | None => true
  | Some enc =>
    match enc (removeAll sentinel text) with
    | Throw _ => true
    | Normal _ => false
    end
  end.

(** A tokenizer yields no token for the empty text. *)
Definition encodesEmptyToNothing (H : Host) : Prop :=
  forall enc tokens, encoder H = Some enc -> enc "" = Normal tokens -> tokens = [].

(** One token per character. *)
Definition charEncoder : Encoder := fun text => Normal (map nat_of_ascii (chars text)).

(** An encoder whose [encode] always throws. *)
Definition brokenEncoder : Encoder := fun _ => Throw (mkError "" "encode failed").

(** A Linux host whose root [.gitignore] holds the line [b.txt]. *)
Definition demoHost (table : list string) (enc : option Encoder) : Host :=
  posixHost "/home/u" "/opt/pastemax" table (fun _ => false)
    (fun _ rel => String.eqb rel "b.txt") enc true.

Definition readable (n : Z) (text : string) : FileIO :=
  mkFileIO (Normal n) (Normal text).

Definition vanished : FileIO :=
  mkFileIO (Throw (mkError "ENOENT" "ENOENT: no such file or directory"))
           (Throw (mkError "ENOENT" "ENOENT: no such file or directory")).

Definition unreadable (n : Z) : FileIO :=
  mkFileIO (Normal n) (Throw (mkError "EACCES" "EACCES: permission denied")).

(** An idle main process, and one in the middle of a scan. *)
Definition idle (cancelIn : option nat) : Main := mkMain false None None true cancelIn [].
Definition scanning (cancelIn : option nat) : Main :=
  mkMain true (Some MAX_DIRECTORY_LOAD_TIME) None true cancelIn [].

(** The extension test of the watcher pipeline (lines 257-258): the
    extension without its dot, in lower case, looked up in the table. *)
Definition singleFileBinaryTest (H : Host) (fullPath : string) : bool :=
  arrayIncludes (toLowerCase (substring1 (path_extname H fullPath))) (binaryExtensions H).

(** The record invariant of the data model. *)
Definition recordInvariant (r : FileRecord) : Prop :=
  (isBinary r && isSkipped r = false) /\
  (isBinary r || isSkipped r = true -> content r = Some "") /\
  (content r = Some "" -> tokenCount r = 0%Z).

(** The shape of a record that reports an I/O failure. *)
Definition reportsFailure (r : FileRecord) : Prop :=
  size r = 0%Z /\ isBinary r = false /\ isSkipped r = true /\ error r <> None.

(** The status message of [cancelDirectoryLoading]. *)
Definition cancelNotice : Effect :=
  Sent (FileProcessingStatus cancelled "Directory loading cancelled").

(** The status message of the busy branch of the request handler. *)
Definition busyNotice : Effect :=
  Sent (FileProcessingStatus busy "Already processing another directory. Please wait.").

(** What a walk does: directory listings, stats, reads, progress
    messages. *)
Definition isScanEffect (e : Effect) : bool :=
  match e with
  | Readdir _ | Stat _ | ReadFile _ => true
  | Sent (FileProcessingStatus processing _) => true
  | _ => false
  end.

(** What hands a scan result over: the [complete] status and the file
    list. *)
Definition isDelivery (e : Effect) : bool :=
  match e with
  | Sent (FileListData _) => true
  | Sent (FileProcessingStatus complete _) => true
  | _ => false
  end.

(** How the main process may change while a walk runs from [s] to [s']:
    not at all once loading is off; otherwise the walk adds scan effects
    and either is still loading, or a cancel was dispatched, which reset
    the flag and the timer and sent its notice (to a live window) as the
    last thing that happened. *)
Definition Evolves (s s' : Main) : Prop :=
  windowOk s' = windowOk s /\
  currentWatcher s' = currentWatcher s /\
  (isLoadingDirectory s = false -> s' = s) /\
  (isLoadingDirectory s = true ->
   exists pre,
     Forall (fun e => isScanEffect e = true) pre /\
     ((isLoadingDirectory s' = true /\
       loadingTimeoutId s' = loadingTimeoutId s /\
       trace s' = (pre ++ trace s)%list) \/
      (isLoadingDirectory s' = false /\
       loadingTimeoutId s' = None /\
       trace s' = ((if windowOk s then [cancelNotice] else []) ++ pre ++ trace s)%list))).

(** The state in which the request handler starts the walk. *)
Definition scanPrelude (s : Main) : Main :=
  send (FileProcessingStatus processing
          "Scanning directory structure... (Press ESC to cancel)")
    (setupDirectoryLoadingTimeout (set_loading true (closeWatcher s))).

(** The walk of a request: the records it hands back to the handler,
    and the state it leaves. *)
Definition walkOfRequest (H : Host) (folderPath : string) (node : DirNode) (s : Main)
  : list FileRecord * Main :=
  let rootDir := ensureAbsolutePath H folderPath in
  readFilesRecursively H node rootDir rootDir (Some (loadGitignore H rootDir))
    (scanPrelude s).

(** A sub-directory with one file, next to two files. *)
Definition smallTree : DirNode :=
  Listing [("sub", Listing [] [("a.txt", readable 2 "hi")])]
          [("top.txt", readable 5 "hello"); ("b.txt", readable 1 "x")].

(** What a loop leaves behind, whichever way it is left. *)
Definition flowResults (f : Flow) : list FileRecord :=
  match f with Returned r _ => r | Fallthrough r _ => r end.
Definition flowState (f : Flow) : Main :=
  match f with Returned _ s => s | Fallthrough _ s => s end.

(** What precedes the outcome of a request: the closing of the previous
    watcher and the effects of the walk. *)
Definition isPreparation (e : Effect) : bool :=
  match e with
  | WatcherClose => true
  | _ => isScanEffect e
  end.

(** The three ways a request ends. *)
Inductive RequestOutcome (H : Host) (folderPath : string) (node : DirNode)
    (s : Main) (ext : list Effect) : Prop :=
| Rejected :
    isLoadingDirectory s = true ->
    ext = ((if windowOk s then [busyNotice] else []) ++
           match currentWatcher s with
           | Some _ =>
             match pendingCancel s with
             | Some O => (if windowOk s then [cancelNotice] else []) ++ [WatcherClose]
             | _ => [WatcherClose]
             end
           | None => []
           end)%list ->
    RequestOutcome H folderPath node s ext
| Stopped (pre : list Effect) :
    isLoadingDirectory s = false ->
    isLoadingDirectory (snd (walkOfRequest H folderPath node s)) = false ->
    Forall (fun e => isPreparation e = true) pre ->
    ext = ((if windowOk s then [cancelNotice] else []) ++ pre)%list ->
    RequestOutcome H folderPath node s ext
| Completed (pre : list Effect) :
    isLoadingDirectory s = false ->
    isLoadingDirectory (snd (walkOfRequest H folderPath node s)) = true ->
    Forall (fun e => isPreparation e = true) pre ->
    ext = (Sent (FileListData
                   (map (serialize H folderPath) (fst (walkOfRequest H folderPath node s))))
           :: Sent (FileProcessingStatus complete
                      ("Found " ++
                       ofNat (List.length (fst (walkOfRequest H folderPath node s))) ++
                       " files"))
           :: pre)%list ->
    RequestOutcome H folderPath node s ext.

(** The specification's wording of cancellation, at one request: when
    the walk of the request ends cancelled, the records it accumulated
    reach the caller as a file list. *)
Definition partialResultDelivered (H : Host) (folderPath : string) (node : DirNode)
    (s : Main) : Prop :=
  isLoadingDirectory (snd (walkOfRequest H folderPath node s)) = false ->
  In (Sent (FileListData
              (map (serialize H folderPath) (fst (walkOfRequest H folderPath node s)))))
     (trace (requestFileList H folderPath node s)).

(** A file of a serialized list is not matched by the ruleset compiled
    for the root of the request. *)
Definition notIgnoredIn (H : Host) (folderPath : string) (f : SerializedFile) : Prop :=
  loadGitignore H (ensureAbsolutePath H folderPath) (ser_relativePath f) = false.

(** [c] occurs in [s]. *)
Fixpoint hasChar (c : ascii) (s : string) : bool :=
  match s with
  | EmptyString => false
  | String a s' => Ascii.eqb a c || hasChar c s'
  end.

(** A name as [readdir] reports it for an entry, free of backslashes:
    not empty, not ["."] or [".."], without separator. *)
Definition regularName (n : string) : bool :=
  negb (String.eqb n "") && negb (String.eqb n ".") && negb (String.eqb n "..") &&
  negb (hasChar slash n) && negb (hasChar backslash n).

(** The nine fields the watcher and the scanner are compared on. *)
Definition sameRecord (w c : FileRecord) : Prop :=
  name w = name c /\ relativePath w = relativePath c /\ size w = size c /\
  isBinary w = isBinary c /\ isSkipped w = isSkipped c /\ fileType w = fileType c /\
  content w = content c /\ tokenCount w = tokenCount c /\ error w = error c.

(** Those of them that do not carry text read or reported. *)
Definition sameClassification (w c : FileRecord) : Prop :=
  name w = name c /\ relativePath w = relativePath c /\ path w = path c /\
  size w = size c /\ isBinary w = isBinary c /\ isSkipped w = isSkipped c /\
  fileType w = fileType c /\ tokenCount w = tokenCount c.

(** The error a file task runs into, if any: the stat throws, or the
    file is read (being neither oversized nor binary) and the read
    throws. *)
Definition ioFailure (H : Host) (fullPath : string) (io : FileIO) : option Error :=
  match io_stat io with
  | Throw e => Some e
  | Normal stats_size =>
    if (stats_size >? MAX_FILE_SIZE)%Z then None
    else if isBinaryFile H fullPath then None
    else match io_read io with
         | Throw e => Some e
         | Normal _ => None
         end
  end.

(** The reason the scanner gives for an error. *)
Definition scannerReason (e : Error) : string :=
  if String.eqb (code e) "EPERM" then "Permission denied"
  else if String.eqb (code e) "ENOENT" then "File not found"
  else "Could not read file".

(** How the records of the two pipelines compare, for one path. *)
Definition pipelinesAgree (H : Host) (fullPath : string) (io : FileIO)
    (watcher scanner : option FileRecord) : Prop :=
  match watcher, scanner with
  | None, None => True
  | Some w, Some c =>
    sameClassification w c /\
    match ioFailure H fullPath io with
    | None => sameRecord w c
    | Some e =>
      isSkipped w = true /\ size w = 0%Z /\
      error w = Some ("Error: " ++ message e) /\ error c = Some (scannerReason e)
    end
  | _, _ => False
  end.

(** Sample imports for the formatter. *)
Definition demoUtils : Format.Utils :=
  {| Format.generateAsciiFileTree :=
       fun files folder =>
         String.concat "
" (map (fun f => "+-- " ++ Format.fd_name f) files);
     Format.normalizePath := replaceBackslashes;
     Format.basename := Posix.basename;
     Format.isSubPath := fun folder file => startsWith folder file;
     Format.getLanguageFromFilename := fun n => substring1 (Posix.extname n);
     Format.localeCompare :=
       fun a b => match String.compare a b with
                  | Lt => (-1)%Z
                  | Eq => 0%Z
                  | Gt => 1%Z
                  end |}.

Definition demoFiles : list Format.FileData :=
  [ Format.mkFileData "/r/b.js" "b.js" "let b;" 3 6;
    Format.mkFileData "/r/a.py" "a.py" "a = 1" 4 5 ].

Definition demoParams (selected : list string) : Format.FormatContentParams :=
  Format.mkParams demoFiles selected "name-asc" true (Some "/r") "  explain  ".

(** The files of a request that are selected. *)
Definition selection (p : Format.FormatContentParams) : list Format.FileData :=
  filter (fun file => arrayIncludes (Format.fd_path file) (Format.selectedFiles p))
    (Format.files p).

(** The segments of a POSIX path once dots and empty segments are
    resolved, as [path.resolve] and [path.normalize] compute them. *)
Definition segmentsOf (p : string) : list string :=
  Posix.normSegments false (Posix.split p).

(** A segment that normalization keeps: a regular name without
    separator. *)
Definition cleanSegment (seg : string) : bool :=
  negb (String.eqb seg "") && negb (String.eqb seg ".") && negb (String.eqb seg "..") &&
  negb (hasChar slash seg).

(** An absolute path without backslash: what [ensureAbsolutePath]
    returns on a POSIX host. *)
Definition tidyPath (p : string) : bool :=
  Posix.isAbsolute p && negb (hasChar backslash p).

(** The path the scanner reaches from [root] through the entries
    [names], one [safePathJoin] per level. *)
Definition descend (H : Host) (root : string) (names : list string) : string :=
  fold_left (safePathJoin H) names root.



(** The entries of a directory that a walk takes up, sub-directories
    and files alike: neither inside an application bundle, nor the
    application itself, nor outside the root, nor ignored. *)
Definition admitsEntry (H : Host) (dir rootDir : string)
    (ignoreFilter : string -> bool) (direntName : string) : bool :=
  let fullPath := safePathJoin H dir direntName in
  let relativePath := safeRelativePath H rootDir fullPath in
  negb (isAppBundlePath fullPath || String.eqb fullPath (appPath H) ||
        negb (isValidPath relativePath) || startsWith ".." relativePath) &&
  negb (ignoreFilter relativePath).


(** A read of file content. *)
Definition isRead (e : Effect) : bool :=
  match e with
  | ReadFile _ => true
  | _ => false
  end.

(** [a] is a prefix of [b], segment by segment. *)
Fixpoint listPrefix (a b : list string) : bool :=
  match a, b with
  | [], _ => true
  | x :: a', y :: b' => String.eqb x y && listPrefix a' b'
  | _ :: _, [] => false
  end.

(** [p] is [root] or lies below it. *)
Definition insideRoot (root p : string) : bool :=
  listPrefix (segmentsOf root) (segmentsOf p).

(** The shape of a record of a file list: its relative path stays in
    the root, it is at most one of binary and skipped, its count is not
    negative, and it says what it is: a skipped record names its error,
    a binary one has empty content, both count 0 tokens, and any other
    carries its content and no error. *)
Definition wellFormedEntry (f : SerializedFile) : Prop :=
  startsWith ".." (ser_relativePath f) = false /\
  (ser_isBinary f && ser_isSkipped f = false) /\
  (0 <= ser_tokenCount f)%Z /\
  (ser_isSkipped f = true -> ser_error f <> None /\ ser_tokenCount f = 0%Z) /\
  (ser_isBinary f = true -> ser_content f = Some "" /\ ser_tokenCount f = 0%Z) /\
  (ser_isBinary f = false -> ser_isSkipped f = false ->
   ser_content f <> None /\ ser_error f = None).

(** The selected files in the order in which they are written. *)
Definition sortedSelection (U : Format.Utils) (p : Format.FormatContentParams)
  : list Format.FileData :=
  Format.sortBy (Format.compareFiles U (Format.sortOrder p)) (selection p).

(** The file blocks of a list of files, one after the other. *)
Definition blocks (U : Format.Utils) (selectedFolder : option string)
    (l : list Format.FileData) : string :=
  fold_right (fun file rest => Format.fileBlock U selectedFolder file ++ rest) "" l.

(** The file-structure block, or nothing. *)
Definition treeBlock (U : Format.Utils) (p : Format.FormatContentParams) : string :=
  match Format.selectedFolder p with
  | Some folder =>
    if Format.includeFileTree p && negb (String.eqb folder "") then
      "<FILE STRUCTURE>
" ++ Format.normalizePath U folder ++ "
" ++ Format.generateAsciiFileTree U (Format.getFilesInFolder U (Format.files p) folder)
       folder ++ "
</FILE STRUCTURE>

"
    else ""
  | None => ""
  end.

(** The block of the user's instructions, or nothing. *)
Definition instructionsBlock (p : Format.FormatContentParams) : string :=
  if String.eqb (trim (Format.userInstructions p)) "" then ""
  else "<user_instructions>
" ++ trim (Format.userInstructions p) ++ "
</user_instructions>".

(** The two parts of a sort order, [sortOrder.split("-")]. *)
Definition sortKeyOf (p : Format.FormatContentParams) : option string :=
  nth_error (splitOn "-"%char (Format.sortOrder p)) 0.

Definition sortDirOf (p : Format.FormatContentParams) : option string :=
  nth_error (splitOn "-"%char (Format.sortOrder p)) 1.

(** A list in which every file comes before those it is not above. *)
Definition ascendingBy (key : Format.FileData -> Z) (l : list Format.FileData) : Prop :=
  StronglySorted (fun a b => (key a <= key b)%Z) l.

Definition descendingBy (key : Format.FileData -> Z) (l : list Format.FileData) : Prop :=
  StronglySorted (fun a b => (key b <= key a)%Z) l.

(** A list that the comparison function of a request already accepts:
    no file has to go before an earlier one. *)
Definition inOrder (U : Format.Utils) (p : Format.FormatContentParams)
    (l : list Format.FileData) : Prop :=
  StronglySorted (fun a b => (Format.compareFiles U (Format.sortOrder p) a b <= 0)%Z) l.

Definition newline : ascii := "010"%char.
Definition carriageReturn : ascii := "013"%char.

Definition prependChar (c : ascii) (l : list string) : list string :=
  match l with
  | seg :: rest => String c seg :: rest
  | [] => [String c EmptyString]
  end.

(** [content.split(/\r?\n/)] *)
Fixpoint splitLines (s : string) : list string :=
  match s with
  | EmptyString => [EmptyString]
  | String c s' =>
    if Ascii.eqb c newline then EmptyString :: splitLines s'
    else
      match s' with
      | String c' s'' =>
        if Ascii.eqb c carriageReturn && Ascii.eqb c' newline
        then EmptyString :: splitLines s''
        else prependChar c (splitLines s')
      | EmptyString => prependChar c (splitLines s')
      end
  end.

(** The default ignores of [loadGitignore], lines 357-371. *)
Definition defaultIgnores : list string :=
  [".git"; "node_modules"; ".DS_Store"; "Thumbs.db"; "desktop.ini";
   ".idea"; ".vscode"; "dist"; "build"; "out"].

(** [normalizedPatterns], lines 345-349: what [loadGitignore] makes of
    the text of a [.gitignore]. *)
Definition userPatterns (H : Host) (gitignoreContent : string) : list string :=
  map (normalizePath H)
    (filter (fun pattern => negb (String.eqb pattern "") && negb (startsWith "#" pattern))
       (map trim (splitLines gitignoreContent))).

(** The patterns [loadGitignore] adds to the matcher, in the order in
    which it adds them; [gitignore] is the text of the [.gitignore] of
    the root, [None] when there is none or it cannot be read, and
    [excludedFiles] the list of [excluded-files.js]. *)
Definition gitignorePatterns (H : Host) (gitignore : option string)
    (excludedFiles : list string) : list string :=
  ((match gitignore with
    | Some gitignoreContent => userPatterns H gitignoreContent
    | None => []
    end) ++ defaultIgnores ++ map (normalizePath H) excludedFiles)%list.

(** The same text with Windows line endings. *)
Fixpoint toCRLF (s : string) : string :=
  match s with
  | EmptyString => EmptyString
  | String c s' =>
    if Ascii.eqb c newline then String carriageReturn (String newline (toCRLF s'))
    else String c (toCRLF s')
  end.

(** The collation of [localeCompare] is an order on names: swapping
    the arguments swaps the sign, and "not after" is transitive. *)
Definition collates (U : Format.Utils) : Prop :=
  (forall a b, Format.localeCompare U b a = (- Format.localeCompare U a b)%Z) /\
  (forall a b c, (Format.localeCompare U a b <= 0)%Z ->
                 (Format.localeCompare U b c <= 0)%Z ->
                 (Format.localeCompare U a c <= 0)%Z).

(** The names of a list of files, in order under the collation. *)
Definition namesAscend (U : Format.Utils) (l : list Format.FileData) : Prop :=
  StronglySorted
    (fun a b => (Format.localeCompare U (Format.fd_name a) (Format.fd_name b) <= 0)%Z) l.

Definition namesDescend (U : Format.Utils) (l : list Format.FileData) : Prop :=
  StronglySorted
    (fun a b => (Format.localeCompare U (Format.fd_name b) (Format.fd_name a) <= 0)%Z) l.

(** The platform tests of [shouldExcludeByDefault] that can succeed on
    an absolute, normalized path. *)
Definition platformTest (H : Host) (filePath : string) : bool :=
  match platform H with
  | Win32 => isReservedDeviceName (path_basename H filePath)
  | Darwin =>
    includes "/.Spotlight-" filePath || includes "/.Trashes" filePath ||
    includes "/.fseventsd" filePath
  | Linux =>
    startsWith "/proc/" filePath || startsWith "/sys/" filePath ||
    startsWith "/dev/" filePath
  | OtherPlatform => false
  end.

(** The entries of the binary-extension table written in lower case. *)
Definition lowerCaseEntries (H : Host) : list string :=
  filter (fun entry => String.eqb (toLowerCase entry) entry) (binaryExtensions H).

(* ------------------------------------------------------------------ *)
(** ** Token counting *)

Lemma fallbackEstimate_div (text : string) :
  fallbackEstimate text = (- ((- Z.of_nat (String.length text)) / 4))%Z.
Proof. reflexivity. Qed.

Lemma fallbackEstimate_bounds (text : string) :
  let n := fallbackEstimate text in
  (4 * (n - 1) < Z.of_nat (String.length text) <= 4 * n)%Z.
Proof.
  cbv zeta. rewrite fallbackEstimate_div.
  set (a := Z.of_nat (String.length text)).
  pose proof (Z.div_mod (- a) 4 ltac:(lia)) as E.
  pose proof (Z.mod_pos_bound (- a) 4 ltac:(lia)) as B.
  lia.
Qed.

Lemma fallbackEstimate_nonneg (text : string) : (0 <= fallbackEstimate text)%Z.
Proof.
  pose proof (fallbackEstimate_bounds text) as B. cbv zeta in B. lia.
Qed.

Lemma countTokens_normal (H : Host) (text : string) :
  exists n, countTokens H text = Normal n /\ (0 <= n)%Z.
Proof.
  unfold countTokens. destruct (encoder H) as [enc|].
  - eexists. split; [reflexivity|].
    unfold tryCatch, cbind. destruct (enc _).
    + lia.
    + apply fallbackEstimate_nonneg.
  - eexists. split; [reflexivity | apply fallbackEstimate_nonneg].
Qed.

Lemma countTokens_fallback (H : Host) (text : string) :
  usesFallback H text = true ->
  countTokens H text = Normal (fallbackEstimate text).
Proof.
  unfold usesFallback, countTokens, sentinel. destruct (encoder H) as [enc|]; [|reflexivity].
  unfold tryCatch, cbind. destruct (enc _); [discriminate | reflexivity].
Qed.

Lemma countTokens_empty (H : Host) :
  encodesEmptyToNothing H -> countTokens H "" = Normal 0%Z.
Proof.
  intros E. unfold countTokens. destruct (encoder H) as [enc|] eqn:Henc; [|reflexivity].
  f_equal. unfold tryCatch, cbind.
  change (removeAll "<|endoftext|>" "") with "".
  destruct (enc "") as [tokens|e] eqn:Hrun; [|reflexivity].
  rewrite (E enc tokens Henc Hrun). reflexivity.
Qed.

(** C6. [countTokens] never throws and returns a non-negative integer;
    when there is no encoder or [encode] throws, the result is exactly
    [ceil(length(text) / 4)], the least [n] with [length(text) <= 4 n];
    and the count of the empty text is 0, in the fallback mode and, for
    a tokenizer that yields no token on the empty text, in the primary
    mode. *)
Theorem countTokens_best_effort (H : Host) (text : string) :
  (exists n, countTokens H text = Normal n /\ (0 <= n)%Z) /\
  (usesFallback H text = true ->
   exists n, countTokens H text = Normal n /\
             n = Qceiling (Z.of_nat (String.length text) # 4) /\
             (4 * (n - 1) < Z.of_nat (String.length text) <= 4 * n)%Z) /\
  (usesFallback H "" = true -> countTokens H "" = Normal 0%Z) /\
  (encodesEmptyToNothing H -> countTokens H "" = Normal 0%Z).
Proof.
  split; [apply countTokens_normal|]. split; [|split].
  - intros F. exists (fallbackEstimate text). split; [apply countTokens_fallback, F|].
    split; [reflexivity | apply fallbackEstimate_bounds].
  - intros F. rewrite (countTokens_fallback H "" F). reflexivity.
  - apply countTokens_empty.
Qed.

(** The three modes at work: no encoder, a throwing encoder, and a
    working one. *)
Lemma countTokens_best_effort_witness :
  countTokens (demoHost [] None) "hello" = Normal 2%Z /\
  countTokens (demoHost [] (Some brokenEncoder)) "hello" = Normal 2%Z /\
  countTokens (demoHost [] (Some brokenEncoder)) "" = Normal 0%Z /\
  countTokens (demoHost [] (Some charEncoder)) "" = Normal 0%Z.
Proof.
  pose proof (countTokens_best_effort (demoHost [] None) "hello") as [_ [F1 _]].
  pose proof (countTokens_best_effort (demoHost [] (Some brokenEncoder)) "hello")
    as [_ [F2 [F3 _]]].
  pose proof (countTokens_best_effort (demoHost [] (Some charEncoder)) "")
    as [_ [_ [_ F4]]].
  destruct (F1 eq_refl) as [n1 [E1 [V1 _]]].
  destruct (F2 eq_refl) as [n2 [E2 [V2 _]]].
  rewrite E1, E2, V1, V2.
  split; [reflexivity|]. split; [reflexivity|]. split; [exact (F3 eq_refl)|].
  apply F4. intros enc tokens Henc Hrun.
  injection Henc as <-. injection Hrun as <-. reflexivity.
Defined.

(* ------------------------------------------------------------------ *)
(** ** Classification of one file *)

(** Case analysis of a pipeline: every test it branches on is split. *)
Ltac split_tests :=
  repeat (match goal with
         | H : context [if ?b then _ else _] |- _ =>
           let E := fresh "T" in destruct b eqn:E
         | H : context [match ?c with Normal _ => _ | Throw _ => _ end] |- _ =>
           let E := fresh "T" in destruct c eqn:E
         | H : (_, _) = (_, _) |- _ => injection H as ? ?
         | H : Some _ = Some _ |- _ => injection H as ?
         | H : Normal _ = Normal _ |- _ => injection H as ?
         | H : None = Some _ |- _ => discriminate H
         | H : Normal _ = Throw _ |- _ => discriminate H
         | H : Throw _ = Normal _ |- _ => discriminate H
         end; subst).

Ltac run_single H :=
  unfold processSingleFile, tryCatch, cbind in H; simpl in H; split_tests; subst.

Ltac run_task H :=
  unfold chunkTask in H; simpl in H; split_tests; subst.

(** C5. A file whose size exceeds the 5 MiB ceiling is recorded, by
    the watcher pipeline and by the scanner task alike, with
    [isSkipped = true], empty content and [tokenCount = 0], whatever its
    extension and whatever the binary-extension table holds. *)
Theorem oversized_file_is_skipped (H : Host) (ignoreFilter : string -> bool)
    (rootDir : string) (io : FileIO) (stats_size : Z) :
  io_stat io = Normal stats_size ->
  (stats_size > MAX_FILE_SIZE)%Z ->
  (forall fullPath r,
     processSingleFile H fullPath rootDir ignoreFilter io = Some r ->
     isSkipped r = true /\ content r = Some "" /\ tokenCount r = 0%Z /\
     size r = stats_size) /\
  (forall dir direntName s r s',
     chunkTask H dir rootDir ignoreFilter (direntName, io) s = (Some r, s') ->
     isSkipped r = true /\ content r = Some "" /\ tokenCount r = 0%Z /\
     size r = stats_size).
Proof.
  intros Hstat Hbig. apply Z.gt_lt, Z.gtb_lt in Hbig.
  split.
  - intros fullPath r E. unfold processSingleFile, tryCatch, cbind in E.
    rewrite Hstat, Hbig in E. split_tests; subst; simpl; auto.
  - intros dir direntName s r s' E. unfold chunkTask in E. simpl in E.
    rewrite Hstat, Hbig in E. split_tests; subst; simpl; auto.
Qed.

(** A 6 MiB [.png] under [/r], on a host whose table lists the
    extension in both spellings: skipped, and not marked binary. *)
Lemma oversized_file_is_skipped_witness :
  (exists r,
     processSingleFile (demoHost [".png"; "png"] None) "/r/big.png" "/r" (fun _ => false)
       (readable 6291456 "") = Some r /\
     isBinary r = false /\
     isSkipped r = true /\ content r = Some "" /\ tokenCount r = 0%Z) /\
  (exists r s',
     chunkTask (demoHost [".png"; "png"] None) "/r" "/r" (fun _ => false)
       ("big.png", readable 6291456 "") (scanning None) = (Some r, s') /\
     isBinary r = false /\
     isSkipped r = true /\ content r = Some "" /\ tokenCount r = 0%Z).
Proof.
  destruct (oversized_file_is_skipped (demoHost [".png"; "png"] None) (fun _ => false)
              "/r" (readable 6291456 "") 6291456 eq_refl eq_refl) as [W S].
  split.
  - assert (exists r,
              processSingleFile (demoHost [".png"; "png"] None) "/r/big.png" "/r"
                (fun _ => false) (readable 6291456 "") = Some r /\
              isBinary r = false) as (r & E & B)
      by (eexists; split; [vm_compute; reflexivity | reflexivity]).
    exists r. destruct (W _ _ E) as (A1 & A2 & A3 & _). auto.
  - assert (exists r s',
              chunkTask (demoHost [".png"; "png"] None) "/r" "/r" (fun _ => false)
                ("big.png", readable 6291456 "") (scanning None) = (Some r, s') /\
              isBinary r = false) as (r & s' & E & B)
      by (do 2 eexists; split; [vm_compute; reflexivity | reflexivity]).
    exists r, s'. destruct (S _ _ _ _ _ E) as (A1 & A2 & A3 & _). auto.
Defined.

(** C10. When the stat of a file fails, or its read fails (the file
    being neither oversized nor binary for the pipeline, so that it is
    read), the record reports [size = 0], [isBinary = false] and
    [isSkipped = true], whatever the size on disk and the extension; in
    the watcher pipeline and in the scanner task. *)
Theorem io_failure_record (H : Host) (ignoreFilter : string -> bool)
    (rootDir : string) (io : FileIO) :
  (forall fullPath r e,
     io_stat io = Throw e ->
     processSingleFile H fullPath rootDir ignoreFilter io = Some r ->
     reportsFailure r) /\
  (forall fullPath r stats_size e,
     io_stat io = Normal stats_size -> (stats_size <= MAX_FILE_SIZE)%Z ->
     singleFileBinaryTest H (ensureAbsolutePath H fullPath) = false ->
     io_read io = Throw e ->
     processSingleFile H fullPath rootDir ignoreFilter io = Some r ->
     reportsFailure r) /\
  (forall dir direntName s r s' e,
     io_stat io = Throw e ->
     chunkTask H dir rootDir ignoreFilter (direntName, io) s = (Some r, s') ->
     reportsFailure r) /\
  (forall dir direntName s r s' stats_size e,
     io_stat io = Normal stats_size -> (stats_size <= MAX_FILE_SIZE)%Z ->
     isBinaryFile H (safePathJoin H dir direntName) = false ->
     io_read io = Throw e ->
     chunkTask H dir rootDir ignoreFilter (direntName, io) s = (Some r, s') ->
     reportsFailure r).
Proof.
  unfold reportsFailure. split; [|split; [|split]].
  - intros fullPath r e Hstat E.
    unfold processSingleFile, tryCatch, cbind in E. rewrite Hstat in E.
    split_tests; subst; simpl; repeat split; discriminate.
  - intros fullPath r stats_size e Hstat Hsmall Hext Hread E.
    assert ((stats_size >? MAX_FILE_SIZE)%Z = false) as G
      by (rewrite Z.gtb_ltb; apply Z.ltb_ge; exact Hsmall).
    unfold processSingleFile, tryCatch, cbind in E. rewrite Hstat in E.
    unfold singleFileBinaryTest in Hext.
    rewrite G, Hext, Hread in E.
    split_tests; subst; simpl; repeat split; discriminate.
  - intros dir direntName s r s' e Hstat E.
    unfold chunkTask in E. simpl in E. rewrite Hstat in E.
    split_tests; subst; simpl; repeat split; discriminate.
  - intros dir direntName s r s' stats_size e Hstat Hsmall Hext Hread E.
    assert ((stats_size >? MAX_FILE_SIZE)%Z = false) as G
      by (rewrite Z.gtb_ltb; apply Z.ltb_ge; exact Hsmall).
    unfold chunkTask in E. simpl in E.
    rewrite Hstat, G, Hext, Hread in E.
    split_tests; subst; simpl; repeat split; discriminate.
Qed.

(** A vanished [.png] and an unreadable text file. *)
Lemma io_failure_record_witness :
  exists r1 r2 r3 r4 s3 s4,
    processSingleFile (demoHost ["png"] None) "/r/gone.png" "/r" (fun _ => false)
      vanished = Some r1 /\
    processSingleFile (demoHost ["png"] None) "/r/locked.txt" "/r" (fun _ => false)
      (unreadable 1234) = Some r2 /\
    chunkTask (demoHost [".png"] None) "/r" "/r" (fun _ => false)
      ("gone.png", vanished) (scanning None) = (Some r3, s3) /\
    chunkTask (demoHost [".png"] None) "/r" "/r" (fun _ => false)
      ("locked.txt", unreadable 1234) (scanning None) = (Some r4, s4) /\
    reportsFailure r1 /\ reportsFailure r2 /\ reportsFailure r3 /\ reportsFailure r4.
Proof.
  destruct (io_failure_record (demoHost ["png"] None) (fun _ => false) "/r" vanished)
    as [W1 _].
  destruct (io_failure_record (demoHost ["png"] None) (fun _ => false) "/r"
              (unreadable 1234)) as [_ [W2 _]].
  destruct (io_failure_record (demoHost [".png"] None) (fun _ => false) "/r" vanished)
    as [_ [_ [S1 _]]].
  destruct (io_failure_record (demoHost [".png"] None) (fun _ => false) "/r"
              (unreadable 1234)) as [_ [_ [_ S2]]].
  do 6 eexists.
  split; [vm_compute; reflexivity|]. split; [vm_compute; reflexivity|].
  split; [vm_compute; reflexivity|]. split; [vm_compute; reflexivity|].
  split; [|split; [|split]].
  - eapply (W1 "/r/gone.png"); reflexivity.
  - eapply (W2 "/r/locked.txt" _ 1234%Z); try reflexivity. vm_compute. discriminate.
  - eapply (S1 "/r" "gone.png" (scanning None)); reflexivity.
  - eapply (S2 "/r" "locked.txt" (scanning None) _ _ 1234%Z); try reflexivity.
    vm_compute. discriminate.
Defined.

(* ------------------------------------------------------------------ *)
(** ** The two extension tests *)

Lemma arrayIncludes_In (x : string) (arr : list string) :
  arrayIncludes x arr = true <-> In x arr.
Proof.
  unfold arrayIncludes. rewrite existsb_exists. split.
  - intros [y [Hy E]]. apply String.eqb_eq in E. subst. exact Hy.
  - intros Hx. exists x. split; [exact Hx | apply String.eqb_refl].
Qed.

Lemma substring1_length (x : string) :
  x <> "" -> S (String.length (substring1 x)) = String.length x.
Proof. destruct x; [congruence | reflexivity]. Qed.

Lemma mapChars_length (f : ascii -> ascii) (x : string) :
  String.length (mapChars f x) = String.length x.
Proof. induction x; simpl; congruence. Qed.

(** The scanner looks the extension up with its dot, the watcher
    pipeline without: a path is binary for both only if the table holds
    both spellings, which differ as soon as there is an extension. *)
Lemma binary_for_both_needs_both_spellings (H : Host) (fullPath : string) :
  isBinaryFile H fullPath = true ->
  singleFileBinaryTest H fullPath = true ->
  In (toLowerCase (path_extname H fullPath)) (binaryExtensions H) /\
  In (toLowerCase (substring1 (path_extname H fullPath))) (binaryExtensions H) /\
  (path_extname H fullPath <> "" ->
   toLowerCase (path_extname H fullPath) <>
   toLowerCase (substring1 (path_extname H fullPath))).
Proof.
  unfold isBinaryFile, singleFileBinaryTest. rewrite !arrayIncludes_In.
  intros A B. repeat split; auto.
  intros Hne E. apply (f_equal String.length) in E.
  unfold toLowerCase in E. rewrite !mapChars_length in E.
  pose proof (substring1_length _ Hne). lia.
Qed.

(** C4, at a failing input. A 10-byte [c.png] under [/r]. With the
    table [[".png"]] the scanner task records it as binary, with empty
    content and no tokens, while the watcher pipeline reads it and
    counts its tokens; with the table [["png"]] it is the other way
    round. *)
Theorem binary_extension_pipelines_disagree :
  (exists r1 r2 s',
     chunkTask (demoHost [".png"] None) "/r" "/r" (fun _ => false)
       ("c.png", readable 10 "PNG bytes.") (scanning None) = (Some r1, s') /\
     processSingleFile (demoHost [".png"] None) "/r/c.png" "/r" (fun _ => false)
       (readable 10 "PNG bytes.") = Some r2 /\
     isBinary r1 = true /\ content r1 = Some "" /\ tokenCount r1 = 0%Z /\
     isBinary r2 = false /\ content r2 = Some "PNG bytes." /\ tokenCount r2 = 3%Z) /\
  (exists r1 r2 s',
     chunkTask (demoHost ["png"] None) "/r" "/r" (fun _ => false)
       ("c.png", readable 10 "PNG bytes.") (scanning None) = (Some r1, s') /\
     processSingleFile (demoHost ["png"] None) "/r/c.png" "/r" (fun _ => false)
       (readable 10 "PNG bytes.") = Some r2 /\
     isBinary r1 = false /\ content r1 = Some "PNG bytes." /\ tokenCount r1 = 3%Z /\
     isBinary r2 = true /\ content r2 = Some "" /\ tokenCount r2 = 0%Z).
Proof.
  split; do 3 eexists.
  all: split; [vm_compute; reflexivity|]; split; [vm_compute; reflexivity|].
  all: repeat split; reflexivity.
Qed.

(* ------------------------------------------------------------------ *)
(** ** The record invariant *)

(** Every record of the watcher pipeline satisfies the invariant, for a
    tokenizer that yields no token on the empty text. *)
Lemma singleFile_invariant (H : Host) (fullPath rootDir : string)
    (ignoreFilter : string -> bool) (io : FileIO) (r : FileRecord) :
  encodesEmptyToNothing H ->
  processSingleFile H fullPath rootDir ignoreFilter io = Some r ->
  recordInvariant r.
Proof.
  intros Henc E. unfold recordInvariant.
  unfold processSingleFile, tryCatch, cbind in E. split_tests; subst; simpl.
  all: repeat split; try reflexivity; try discriminate.
  all: try (destruct (countTokens_normal H a0) as [n [Hn _]]; congruence).
  intros Hc. injection Hc as ->. rewrite (countTokens_empty H Henc) in *.
  congruence.
Qed.

(** So does every record of the scanner task, the one built by its
    per-file [catch] apart: that one has no [content] at all. *)
Lemma chunkTask_invariant (H : Host) (dir rootDir : string)
    (ignoreFilter : string -> bool) (dirent : string * FileIO)
    (s s' : Main) (r : FileRecord) :
  encodesEmptyToNothing H ->
  chunkTask H dir rootDir ignoreFilter dirent s = (Some r, s') ->
  recordInvariant r \/
  (isSkipped r = true /\ isBinary r = false /\ content r = None /\ tokenCount r = 0%Z).
Proof.
  intros Henc E. unfold recordInvariant. destruct dirent as [direntName io].
  unfold chunkTask in E. simpl in E. split_tests; subst; simpl.
  all: try (right; repeat split; reflexivity).
  all: left; repeat split; try reflexivity; try discriminate.
  intros Hc. injection Hc as ->. rewrite (countTokens_empty H Henc) in *.
  congruence.
Qed.

(** C8, at a failing input. A file of the scanned directory that
    vanished before its stat: the scanner task emits a skipped record
    without content, and the request handler sends it on as it is. *)
Theorem scanner_failure_record_has_no_content :
  (exists r s',
     chunkTask (demoHost [".png"] None) "/r" "/r" (fun _ => false)
       ("gone.txt", vanished) (scanning None) = (Some r, s') /\
     isSkipped r = true /\ content r = None /\ content r <> Some "") /\
  (exists f pre,
     trace (requestFileList (demoHost [".png"] None) "/r"
              (Listing [] [("gone.txt", vanished)]) (idle None))
     = Sent (FileListData [f]) :: pre /\
     ser_isSkipped f = true /\ ser_content f = None) /\
  (exists r,
     processSingleFile (demoHost [".png"] None) "/r/gone.txt" "/r" (fun _ => false)
       vanished = Some r /\
     isSkipped r = true /\ content r = Some "").
Proof.
  split; [|split].
  - do 2 eexists. split; [vm_compute; reflexivity|].
    split; [reflexivity | split; [reflexivity | discriminate]].
  - do 2 eexists. split; [vm_compute; reflexivity|]. split; reflexivity.
  - eexists. split; [vm_compute; reflexivity|]. split; reflexivity.
Qed.

(* ------------------------------------------------------------------ *)
(** ** The walk *)

Lemma DirNode_induction (P : DirNode -> Prop) :
  (forall err, P (Unreadable err)) ->
  (forall directories files,
     Forall (fun d => P (snd d)) directories -> P (Listing directories files)) ->
  forall node, P node.
Proof.
  intros HU HL. fix IH 1. intros [directories files | err]; [|apply HU].
  apply HL. induction directories as [|[direntName child] rest IHrest];
    constructor; [apply IH | exact IHrest].
Qed.

Lemma Evolves_refl (s : Main) : Evolves s s.
Proof.
  unfold Evolves. repeat split; auto.
  intros L. exists []. split; [constructor|]. left. auto.
Qed.

Lemma Evolves_trans (s1 s2 s3 : Main) :
  Evolves s1 s2 -> Evolves s2 s3 -> Evolves s1 s3.
Proof.
  intros (W1 & C1 & Off1 & On1) (W2 & C2 & Off2 & On2).
  unfold Evolves. split; [congruence|]. split; [congruence|]. split.
  - intros L. rewrite (Off1 L) in *. auto.
  - intros L. destruct (On1 L) as (pre1 & F1 & [(L2 & T2 & E2) | (L2 & T2 & E2)]).
    + destruct (On2 L2) as (pre2 & F2 & [(L3 & T3 & E3) | (L3 & T3 & E3)]).
      * exists (pre2 ++ pre1)%list. split; [apply Forall_app; auto|]. left.
        repeat split; [auto | congruence | rewrite E3, E2, app_assoc; reflexivity].
      * exists (pre2 ++ pre1)%list. split; [apply Forall_app; auto|]. right.
        repeat split; [auto | auto |].
        rewrite E3, E2, W1, <- !app_assoc. reflexivity.
    + rewrite (Off2 L2). exists pre1. split; [auto|]. right. auto.
Qed.

Lemma emit_evolves (e : Effect) (s : Main) :
  isScanEffect e = true -> isLoadingDirectory s = true -> Evolves s (emit e s).
Proof.
  intros He L. unfold Evolves. simpl. repeat split; auto; [congruence|].
  intros _. exists [e]. split; [constructor; auto|]. left. auto.
Qed.

Lemma awaitIO_evolves (e : Effect) (s : Main) :
  isScanEffect e = true -> isLoadingDirectory s = true -> Evolves s (awaitIO e s).
Proof.
  intros He L. unfold awaitIO. simpl.
  destruct (pendingCancel s) as [[|k]|].
  - unfold cancelDirectoryLoading. simpl. rewrite L. simpl.
    unfold Evolves. destruct (windowOk s) eqn:W; simpl; rewrite ?W.
    all: repeat split; auto; try congruence.
    all: intros _; exists [e]; split; [constructor; auto|]; right; auto.
  - unfold Evolves. simpl. repeat split; auto; [congruence|].
    intros _. exists [e]. split; [constructor; auto|]. left. auto.
  - apply emit_evolves; auto.
Qed.

Lemma chunkTask_evolves (H : Host) (dir rootDir : string)
    (ignoreFilter : string -> bool) (dirent : string * FileIO)
    (s s' : Main) (r : option FileRecord) :
  chunkTask H dir rootDir ignoreFilter dirent s = (r, s') -> Evolves s s'.
Proof.
  intros E. unfold chunkTask in E.
  destruct (isLoadingDirectory s) eqn:L; simpl in E;
    [|injection E as _ <-; apply Evolves_refl].
  set (fullPath := safePathJoin H dir (fst dirent)) in *.
  destruct (_ || _ || _ || _); [injection E as _ <-; apply Evolves_refl|].
  destruct (ignoreFilter _); [injection E as _ <-; apply Evolves_refl|].
  pose proof (awaitIO_evolves (Stat fullPath) s eq_refl L) as A1.
  destruct (io_stat (snd dirent)); [|injection E as _ <-; exact A1].
  destruct (isLoadingDirectory (awaitIO (Stat fullPath) s)) eqn:L1; simpl in E;
    [|injection E as _ <-; exact A1].
  destruct (a >? MAX_FILE_SIZE)%Z; [injection E as _ <-; exact A1|].
  destruct (isBinaryFile H fullPath); [injection E as _ <-; exact A1|].
  pose proof (awaitIO_evolves (ReadFile fullPath) _ eq_refl L1) as A2.
  pose proof (Evolves_trans _ _ _ A1 A2) as A.
  destruct (io_read (snd dirent)); [|injection E as _ <-; exact A].
  destruct (isLoadingDirectory (awaitIO (ReadFile fullPath) _)); simpl in E;
    [|injection E as _ <-; exact A].
  destruct (countTokens H a0); injection E as _ <-; exact A.
Qed.

Lemma promiseAll_evolves (H : Host) (dir rootDir : string)
    (ignoreFilter : string -> bool) (chunk : list (string * FileIO)) :
  forall s rs s',
    promiseAll (chunkTask H dir rootDir ignoreFilter) chunk s = (rs, s') ->
    Evolves s s'.
Proof.
  induction chunk as [|dirent chunk IH]; intros s rs s' E; simpl in E.
  - injection E as _ <-. apply Evolves_refl.
  - destruct (chunkTask H dir rootDir ignoreFilter dirent s) as [r s1] eqn:E1.
    destruct (promiseAll _ chunk s1) as [rs1 s2] eqn:E2.
    injection E as _ <-.
    eapply Evolves_trans; [eapply chunkTask_evolves; eauto | eapply IH; eauto].
Qed.

Lemma promiseAll_results (H : Host) (P : FileRecord -> Prop) (dir rootDir : string)
    (ignoreFilter : string -> bool) (chunk : list (string * FileIO)) :
  (forall dirent s r s',
     chunkTask H dir rootDir ignoreFilter dirent s = (Some r, s') -> P r) ->
  forall s rs s',
    promiseAll (chunkTask H dir rootDir ignoreFilter) chunk s = (rs, s') ->
    Forall P (nonNull rs).
Proof.
  intros HP. induction chunk as [|dirent chunk IH]; intros s rs s' E; simpl in E.
  - injection E as <- _. constructor.
  - destruct (chunkTask H dir rootDir ignoreFilter dirent s) as [r s1] eqn:E1.
    destruct (promiseAll _ chunk s1) as [rs1 s2] eqn:E2.
    injection E as <- _. specialize (IH _ _ _ E2).
    destruct r as [r|]; simpl; [constructor; eauto | exact IH].
Qed.

Section WalkInvariant.

Variable H : Host.
Variable P : FileRecord -> Prop.
Variable ignoreFilter : string -> bool.

(** [P] holds of every record a file task can produce under the filter. *)
Hypothesis task_records :
  forall dir rootDir dirent s r s',
    chunkTask H dir rootDir ignoreFilter dirent s = (Some r, s') -> P r.

Lemma chunkLoop_invariant (dir rootDir : string) (files : list (string * FileIO)) :
  forall fuel i results processedFiles s,
    Forall P results ->
    let flow := chunkLoop H dir rootDir ignoreFilter files fuel i results processedFiles s in
    Forall P (flowResults flow) /\ Evolves s (flowState flow).
Proof.
  induction fuel as [|fuel IH]; intros i results processedFiles s HP; simpl.
  - split; [exact HP | apply Evolves_refl].
  - destruct (i <? List.length files)%nat; simpl;
      [|split; [exact HP | apply Evolves_refl]].
    destruct (isLoadingDirectory s) eqn:L; simpl;
      [|split; [exact HP | apply Evolves_refl]].
    destruct (promiseAll _ _ s) as [chunkResults s1] eqn:E.
    pose proof (promiseAll_evolves _ _ _ _ _ _ _ _ E) as A1.
    pose proof (promiseAll_results H P _ _ _ _ (task_records dir rootDir) _ _ _ E) as R1.
    destruct (isLoadingDirectory s1) eqn:L1; simpl; [|split; [exact HP | exact A1]].
    match goal with
    | |- context [chunkLoop _ _ _ _ _ _ ?i' ?r' ?p' ?s'] =>
      destruct (IH i' r' p' s') as [IR IE]
    end.
    + apply Forall_app; split; assumption.
    + split; [exact IR|].
      eapply Evolves_trans; [exact A1|].
      eapply Evolves_trans; [|exact IE].
      apply emit_evolves; [reflexivity | exact L1].
Qed.

Lemma dirLoop_invariant (recurse : DirNode -> string -> Main -> list FileRecord * Main)
    (dir rootDir : string) (directories : list (string * DirNode)) :
  Forall (fun d => forall fullPath s,
            Forall P (fst (recurse (snd d) fullPath s)) /\
            Evolves s (snd (recurse (snd d) fullPath s))) directories ->
  forall results s,
    Forall P results ->
    let flow := dirLoop H recurse dir rootDir ignoreFilter directories results s in
    Forall P (flowResults flow) /\ Evolves s (flowState flow).
Proof.
  induction 1 as [|[direntName child] rest Hchild _ IH]; intros results s HP; simpl.
  - split; [exact HP | apply Evolves_refl].
  - destruct (isLoadingDirectory s) eqn:L; simpl;
      [|split; [exact HP | apply Evolves_refl]].
    destruct (_ || _ || _ || _); [apply IH; exact HP|].
    destruct (ignoreFilter _); simpl.
    + destruct (IH results (send scanningMessage s) HP) as [IR IE].
      split; [exact IR|].
      eapply Evolves_trans; [|exact IE]. apply emit_evolves; [reflexivity | exact L].
    + simpl in Hchild.
      specialize (Hchild (safePathJoin H dir direntName) s).
      destruct (recurse child (safePathJoin H dir direntName) s) as [subResults s1].
      simpl in Hchild. destruct Hchild as [SR SE].
      destruct (isLoadingDirectory s1) eqn:L1; simpl; [|split; [exact HP | exact SE]].
      destruct (IH (results ++ subResults)%list (send scanningMessage s1)) as [IR IE].
      * apply Forall_app; split; assumption.
      * split; [exact IR|].
        eapply Evolves_trans; [exact SE|].
        eapply Evolves_trans; [|exact IE]. apply emit_evolves; [reflexivity | exact L1].
Qed.

Lemma readFilesRecursively_invariant (node : DirNode) :
  forall dir rootDir s,
    Forall P (fst (readFilesRecursively H node dir rootDir (Some ignoreFilter) s)) /\
    Evolves s (snd (readFilesRecursively H node dir rootDir (Some ignoreFilter) s)).
Proof.
  induction node as [err | directories files IH] using DirNode_induction;
    intros dir rootDir s; simpl.
  - destruct (isLoadingDirectory s) eqn:L; simpl;
      [|split; [constructor | apply Evolves_refl]].
    split; [constructor | apply awaitIO_evolves; [reflexivity | exact L]].
  - destruct (isLoadingDirectory s) eqn:L; simpl;
      [|split; [constructor | apply Evolves_refl]].
    pose proof (awaitIO_evolves (Readdir (ensureAbsolutePath H dir)) s eq_refl L) as A0.
    destruct (isLoadingDirectory (awaitIO _ s)) eqn:L0; simpl;
      [|split; [constructor | exact A0]].
    match goal with
    | |- context [dirLoop H ?rec ?d ?r ignoreFilter directories [] ?s0] =>
      assert (Forall P (flowResults (dirLoop H rec d r ignoreFilter directories [] s0)) /\
              Evolves s0 (flowState (dirLoop H rec d r ignoreFilter directories [] s0)))
        as D
        by (apply dirLoop_invariant; [|constructor];
            eapply Forall_impl; [|exact IH]; intros d0 Hd fullPath s'; apply Hd);
      destruct (dirLoop H rec d r ignoreFilter directories [] s0) as [res s1|res s1]
    end; simpl in D; destruct D as [DR DE].
    + simpl. split; [exact DR | eapply Evolves_trans; eassumption].
    + match goal with
      | |- context [chunkLoop H ?d ?r ignoreFilter files ?fu ?i res ?p s1] =>
        pose proof (chunkLoop_invariant d r files fu i res p s1 DR) as C;
        destruct (chunkLoop H d r ignoreFilter files fu i res p s1) as [res2 s2|res2 s2]
      end; simpl in *; destruct C as [CR CE]; (split; [exact CR|]);
        (eapply Evolves_trans; [exact A0 | eapply Evolves_trans; eassumption]).
Qed.

End WalkInvariant.

(* ------------------------------------------------------------------ *)
(** ** The request handler *)

Lemma isScanEffect_preparation (l : list Effect) :
  Forall (fun e => isScanEffect e = true) l ->
  Forall (fun e => isPreparation e = true) l.
Proof.
  apply Forall_impl. intros e He. destruct e; simpl in *; auto.
Qed.

(** Closing the previous watcher while no scan runs: a cancel request
    dispatched during the wait finds nothing to cancel. *)
Lemma closeWatcher_idle (s : Main) :
  isLoadingDirectory s = false ->
  isLoadingDirectory (closeWatcher s) = false /\
  windowOk (closeWatcher s) = windowOk s /\
  currentWatcher (closeWatcher s) = None /\
  exists pre, trace (closeWatcher s) = (pre ++ trace s)%list /\
              Forall (fun e => isPreparation e = true) pre.
Proof.
  intros L. unfold closeWatcher. destruct (currentWatcher s) eqn:W.
  - unfold awaitIO. simpl. destruct (pendingCancel s) as [[|k]|]; simpl.
    + unfold cancelDirectoryLoading. simpl. rewrite L. simpl.
      repeat split; auto. exists [WatcherClose]. split; [reflexivity | repeat constructor].
    + repeat split; auto. exists [WatcherClose]. split; [reflexivity | repeat constructor].
    + repeat split; auto. exists [WatcherClose]. split; [reflexivity | repeat constructor].
  - repeat split; auto. exists []. split; [reflexivity | constructor].
Qed.

Lemma requestFileList_idle (H : Host) (folderPath : string) (node : DirNode) (s : Main) :
  isLoadingDirectory s = false ->
  requestFileList H folderPath node s =
  let rootDir := ensureAbsolutePath H folderPath in
  let files := fst (walkOfRequest H folderPath node s) in
  let s2 := snd (walkOfRequest H folderPath node s) in
  if negb (isLoadingDirectory s2) then resetLoading s2
  else
    let s3 :=
      send (FileListData (map (serialize H folderPath) files))
        (send (FileProcessingStatus complete
                 ("Found " ++ ofNat (List.length files) ++ " files"))
           (set_loading false (set_timeout None s2))) in
    resetLoading (if chokidarLoaded H
                  then set_watcher (Some (mkWatcher rootDir (loadGitignore H rootDir))) s3
                  else s3).
Proof.
  intros L. unfold requestFileList, walkOfRequest, scanPrelude. rewrite L.
  destruct (readFilesRecursively _ _ _ _ _ _) as [files s2]. reflexivity.
Qed.

(** Every request ends in one of the three ways, and adds its effects
    on top of the trace. *)
Lemma requestFileList_outcome (H : Host) (folderPath : string) (node : DirNode)
    (s : Main) :
  exists ext,
    trace (requestFileList H folderPath node s) = (ext ++ trace s)%list /\
    RequestOutcome H folderPath node s ext.
Proof.
  destruct (isLoadingDirectory s) eqn:L.
  - unfold requestFileList. rewrite L. eexists. split; [|apply Rejected; [exact L | reflexivity]].
    unfold closeWatcher, awaitIO. destruct (currentWatcher s); simpl.
    + destruct (pendingCancel s) as [[|k]|]; simpl.
      * unfold cancelDirectoryLoading. simpl. rewrite L. simpl.
        destruct (windowOk s) eqn:W; simpl; rewrite ?W; reflexivity.
      * destruct (windowOk s) eqn:W; simpl; rewrite ?W; reflexivity.
      * destruct (windowOk s) eqn:W; simpl; rewrite ?W; reflexivity.
    + destruct (windowOk s) eqn:W; simpl; rewrite ?W; reflexivity.
  - rewrite (requestFileList_idle H folderPath node s L). cbv zeta.
    destruct (closeWatcher_idle s L) as (L1 & W1 & C1 & pre0 & T1 & F1).
    pose proof (readFilesRecursively_invariant H (fun _ => True)
                  (loadGitignore H (ensureAbsolutePath H folderPath))
                  (fun _ _ _ _ _ _ _ => I) node
                  (ensureAbsolutePath H folderPath) (ensureAbsolutePath H folderPath)
                  (scanPrelude s)) as [_ E].
    fold (walkOfRequest H folderPath node s) in E.
    destruct E as (W2 & C2 & _ & On).
    destruct (On eq_refl) as (pre & Fpre & [(L2 & T2 & E2) | (L2 & T2 & E2)]).
    + rewrite L2. simpl.
      exists (Sent (FileListData
                      (map (serialize H folderPath) (fst (walkOfRequest H folderPath node s))))
              :: Sent (FileProcessingStatus complete
                         ("Found " ++
                          ofNat (List.length (fst (walkOfRequest H folderPath node s))) ++
                          " files"))
              :: pre ++ Sent (FileProcessingStatus processing
                                "Scanning directory structure... (Press ESC to cancel)")
              :: pre0)%list.
      split.
      * destruct (chokidarLoaded H); simpl; rewrite E2; simpl; rewrite T1;
          rewrite <- !app_assoc; reflexivity.
      * eapply Completed; [exact L | exact L2 | | reflexivity].
        apply Forall_app. split; [apply isScanEffect_preparation, Fpre|].
        constructor; [reflexivity | exact F1].
    + rewrite L2. simpl.
      exists ((if windowOk s then [cancelNotice] else []) ++
              pre ++ Sent (FileProcessingStatus processing
                             "Scanning directory structure... (Press ESC to cancel)")
              :: pre0)%list.
      split.
      * rewrite E2. simpl. rewrite W1, T1. rewrite <- !app_assoc. reflexivity.
      * eapply Stopped; [exact L | exact L2 | | reflexivity].
        apply Forall_app. split; [apply isScanEffect_preparation, Fpre|].
        constructor; [reflexivity | exact F1].
Qed.

Lemma isPreparation_not_delivery (e : Effect) :
  isPreparation e = true -> isDelivery e = false /\ e <> cancelNotice /\ e <> busyNotice.
Proof.
  destruct e as [[[] msg| | | |]| | | |]; simpl; intros E; try discriminate E.
  all: repeat split; try reflexivity; discriminate.
Qed.

(** The state a request leaves when its walk ended cancelled, and when
    it ran to its end. *)
Lemma requestFileList_final_state (H : Host) (folderPath : string) (node : DirNode)
    (s : Main) :
  isLoadingDirectory s = false ->
  let s' := requestFileList H folderPath node s in
  isLoadingDirectory s' = false /\ loadingTimeoutId s' = None /\
  (isLoadingDirectory (snd (walkOfRequest H folderPath node s)) = false ->
   currentWatcher s' = None) /\
  (forall w, currentWatcher s' = Some w ->
     w = mkWatcher (ensureAbsolutePath H folderPath)
           (loadGitignore H (ensureAbsolutePath H folderPath))).
Proof.
  intros L. cbv zeta. rewrite (requestFileList_idle H folderPath node s L). cbv zeta.
  destruct (closeWatcher_idle s L) as (L1 & W1 & C1 & _).
  pose proof (readFilesRecursively_invariant H (fun _ => True)
                (loadGitignore H (ensureAbsolutePath H folderPath))
                (fun _ _ _ _ _ _ _ => I) node
                (ensureAbsolutePath H folderPath) (ensureAbsolutePath H folderPath)
                (scanPrelude s)) as [_ (_ & C2 & _)].
  fold (walkOfRequest H folderPath node s) in C2. simpl in C2. rewrite C1 in C2.
  destruct (isLoadingDirectory (snd (walkOfRequest H folderPath node s))); simpl.
  - destruct (chokidarLoaded H); simpl; repeat split; try discriminate.
    + intros w E. injection E as <-. reflexivity.
    + intros w E. congruence.
  - repeat split; auto. intros w E. congruence.
Qed.

(** C7. A request that arrives while a scan is active is answered with
    the [busy] status and nothing else of a scan: no directory is
    listed, no file touched, no progress or result sent; nothing of the
    request is kept (the state left does not depend on the folder asked
    for); and the active scan keeps its flag and its timer, unless a
    cancel request is dispatched while the handler waits for a watcher
    to close. *)
Theorem busy_request_is_rejected (H : Host) (folderPath : string) (node : DirNode)
    (s : Main) :
  isLoadingDirectory s = true ->
  windowOk s = true ->
  let s' := requestFileList H folderPath node s in
  (exists rest,
     trace s' = (busyNotice :: rest ++ trace s)%list /\
     Forall (fun e => isScanEffect e = false /\ isDelivery e = false) rest) /\
  (forall folderPath' node', requestFileList H folderPath' node' s = s') /\
  (currentWatcher s = None \/ pendingCancel s <> Some O ->
   isLoadingDirectory s' = true /\ loadingTimeoutId s' = loadingTimeoutId s).
Proof.
  intros L W. cbv zeta. unfold requestFileList. rewrite L.
  unfold closeWatcher, awaitIO. destruct (currentWatcher s) eqn:C; simpl.
  - destruct (pendingCancel s) as [[|k]|] eqn:K; simpl.
    + unfold cancelDirectoryLoading. simpl. rewrite L. simpl. rewrite W. simpl. rewrite W.
      split; [|split].
      * exists [cancelNotice; WatcherClose]. split; [reflexivity|].
        repeat constructor.
      * reflexivity.
      * intros [A | A]; [discriminate A | congruence].
    + rewrite W. split; [|split].
      * exists [WatcherClose]. split; [reflexivity | repeat constructor].
      * reflexivity.
      * intros _. simpl. auto.
    + rewrite W. split; [|split].
      * exists [WatcherClose]. split; [reflexivity | repeat constructor].
      * reflexivity.
      * intros _. simpl. auto.
  - rewrite W. split; [|split].
    + exists []. split; [reflexivity | constructor].
    + reflexivity.
    + intros _. simpl. auto.
Qed.

(** A second request during a scan of the demo host. *)
Lemma busy_request_is_rejected_witness :
  trace (requestFileList (demoHost [".png"] None) "/other" smallTree (scanning None))
  = [busyNotice] /\
  isLoadingDirectory
    (requestFileList (demoHost [".png"] None) "/other" smallTree (scanning None)) = true.
Proof.
  destruct (busy_request_is_rejected (demoHost [".png"] None) "/other" smallTree
              (scanning None) eq_refl eq_refl) as [_ [_ Keep]].
  split; [reflexivity | apply Keep; left; reflexivity].
Defined.

(* ------------------------------------------------------------------ *)
(** ** Cancellation *)

Lemma dirLoop_stopped (H : Host)
    (recurse : DirNode -> string -> Main -> list FileRecord * Main)
    (dir rootDir : string) (ignoreFilter : string -> bool)
    (directories : list (string * DirNode)) (results : list FileRecord) (s : Main) :
  isLoadingDirectory s = false ->
  flowResults (dirLoop H recurse dir rootDir ignoreFilter directories results s) = results /\
  flowState (dirLoop H recurse dir rootDir ignoreFilter directories results s) = s.
Proof.
  intros L. destruct directories as [|[direntName child] rest]; simpl; [auto|].
  rewrite L. simpl. auto.
Qed.

Lemma chunkLoop_stopped (H : Host) (dir rootDir : string) (ignoreFilter : string -> bool)
    (files : list (string * FileIO)) (fuel i : nat) (results : list FileRecord)
    (processedFiles : nat) (s : Main) :
  isLoadingDirectory s = false ->
  flowResults (chunkLoop H dir rootDir ignoreFilter files fuel i results processedFiles s)
  = results /\
  flowState (chunkLoop H dir rootDir ignoreFilter files fuel i results processedFiles s)
  = s.
Proof.
  intros L. destruct fuel; simpl; [auto|].
  destruct (i <? List.length files)%nat; simpl; [|auto]. rewrite L. simpl. auto.
Qed.

Lemma readFilesRecursively_stopped (H : Host) (node : DirNode) (dir rootDir : string)
    (ignoreFilter : option (string -> bool)) (s : Main) :
  isLoadingDirectory s = false ->
  readFilesRecursively H node dir rootDir ignoreFilter s = ([], s).
Proof.
  intros L. destruct node; simpl; rewrite L; reflexivity.
Qed.

(** C1, as the code has it, for a request during which no other
    request is accepted: the flag, once reset, then stays reset until
    the request ends. (1) A cancel dispatched while a scan is loading
    resets the flag, clears the timer and sends the [cancelled] status
    at once. (2) While the flag is reset the walk does nothing: every
    call of [readFilesRecursively], every iteration of its two loops
    and every file task that finds the flag reset returns at its first
    test, without an effect and without adding a record. (3) For the
    caller of such a request: when the [cancelled] status was sent
    during the request, it is the last thing the request did; before it
    there are only the closing of the old watcher, directory listings,
    stats, reads and progress messages, so neither a [complete] status
    nor a file list is delivered, and the request leaves the process
    idle, without timer and without watcher. (4) The handler, when the
    walk comes back with the flag reset, runs its [finally] block and
    nothing else: it sends nothing, arms no watcher, and what the walk
    returned is dropped. *)
Theorem cancel_stops_the_scan (H : Host) :
  (forall s,
     isLoadingDirectory s = true -> windowOk s = true ->
     isLoadingDirectory (cancelDirectoryLoading s) = false /\
     loadingTimeoutId (cancelDirectoryLoading s) = None /\
     trace (cancelDirectoryLoading s) = cancelNotice :: trace s) /\
  (forall s,
     isLoadingDirectory s = false ->
     (forall node dir rootDir ignoreFilter,
        readFilesRecursively H node dir rootDir ignoreFilter s = ([], s)) /\
     (forall recurse dir rootDir ignoreFilter directories results,
        flowResults (dirLoop H recurse dir rootDir ignoreFilter directories results s)
        = results /\
        flowState (dirLoop H recurse dir rootDir ignoreFilter directories results s) = s) /\
     (forall dir rootDir ignoreFilter files fuel i results processedFiles,
        flowResults
          (chunkLoop H dir rootDir ignoreFilter files fuel i results processedFiles s)
        = results /\
        flowState
          (chunkLoop H dir rootDir ignoreFilter files fuel i results processedFiles s)
        = s) /\
     (forall dir rootDir ignoreFilter dirent,
        chunkTask H dir rootDir ignoreFilter dirent s = (None, s))) /\
  (forall folderPath node s ext,
     isLoadingDirectory s = false ->
     trace (requestFileList H folderPath node s) = (ext ++ trace s)%list ->
     In cancelNotice ext ->
     exists pre,
       ext = cancelNotice :: pre /\
       Forall (fun e => isPreparation e = true /\ isDelivery e = false) pre /\
       isLoadingDirectory (requestFileList H folderPath node s) = false /\
       loadingTimeoutId (requestFileList H folderPath node s) = None /\
       currentWatcher (requestFileList H folderPath node s) = None) /\
  (forall folderPath node s,
     isLoadingDirectory s = false ->
     isLoadingDirectory (snd (walkOfRequest H folderPath node s)) = false ->
     requestFileList H folderPath node s
     = resetLoading (snd (walkOfRequest H folderPath node s)) /\
     trace (requestFileList H folderPath node s)
     = trace (snd (walkOfRequest H folderPath node s)) /\
     currentWatcher (requestFileList H folderPath node s)
     = currentWatcher (snd (walkOfRequest H folderPath node s))).
Proof.
  split; [|split; [|split]].
  4:{ intros folderPath node s L L2.
      assert (requestFileList H folderPath node s
              = resetLoading (snd (walkOfRequest H folderPath node s))) as E.
      { rewrite (requestFileList_idle H folderPath node s L). cbv zeta.
        rewrite L2. reflexivity. }
      rewrite E. split; [reflexivity|]. split; reflexivity. }
  - intros s L W. unfold cancelDirectoryLoading. rewrite L. simpl. rewrite W. auto.
  - intros s L. split; [|split; [|split]]; intros.
    + apply readFilesRecursively_stopped, L.
    + apply dirLoop_stopped, L.
    + apply chunkLoop_stopped, L.
    + unfold chunkTask. rewrite L. reflexivity.
  - intros folderPath node s ext L T Hin.
    destruct (requestFileList_outcome H folderPath node s) as (ext0 & T0 & O).
    rewrite T in T0. apply app_inv_tail in T0. subst ext0.
    destruct (requestFileList_final_state H folderPath node s L) as (F1 & F2 & F3 & _).
    destruct O as [L' _ | pre _ L2 Fpre E | pre _ L2 Fpre E]; [congruence | |].
    + destruct (windowOk s); simpl in E; subst ext.
      * exists pre. split; [reflexivity|]. split; [|auto].
        eapply Forall_impl; [|exact Fpre]. intros e He. split; [exact He|].
        apply isPreparation_not_delivery, He.
      * exfalso. rewrite Forall_forall in Fpre.
        specialize (Fpre _ Hin). discriminate Fpre.
    + exfalso. subst ext. destruct Hin as [A | [A | A]]; try discriminate A.
      rewrite Forall_forall in Fpre. specialize (Fpre _ A). discriminate Fpre.
Qed.

(** A cancel dispatched at the fifth I/O completion of a scan of
    [smallTree]: the sub-directory has been walked, the first stat of
    the top-level chunk is under way. *)
Lemma cancel_stops_the_scan_witness :
  exists pre,
    trace (requestFileList (demoHost [".png"] None) "/r" smallTree (idle (Some 4)))
    = cancelNotice :: pre /\
    Forall (fun e => isPreparation e = true /\ isDelivery e = false) pre /\
    currentWatcher
      (requestFileList (demoHost [".png"] None) "/r" smallTree (idle (Some 4))) = None.
Proof.
  destruct (cancel_stops_the_scan (demoHost [".png"] None)) as [_ [_ [Hreq _]]].
  destruct (Hreq "/r" smallTree (idle (Some 4))
              (trace (requestFileList (demoHost [".png"] None) "/r" smallTree
                        (idle (Some 4)))))
    as (pre & E & Fpre & _ & _ & W).
  - reflexivity.
  - exact (eq_sym (app_nil_r _)).
  - vm_compute. left. reflexivity.
  - exists pre. auto.
Defined.

(** C1, as the specification words it, fails: in that run the walk
    hands back the record of [sub/a.txt], accumulated before the cancel,
    and the handler sends no file list at all. *)
Lemma cancel_discards_partial_result :
  (exists r,
     fst (walkOfRequest (demoHost [".png"] None) "/r" smallTree (idle (Some 4))) = [r] /\
     relativePath r = "sub/a.txt" /\ content r = Some "hi") /\
  isLoadingDirectory
    (snd (walkOfRequest (demoHost [".png"] None) "/r" smallTree (idle (Some 4)))) = false /\
  In cancelNotice
    (trace (requestFileList (demoHost [".png"] None) "/r" smallTree (idle (Some 4)))) /\
  (forall files,
     ~ In (Sent (FileListData files))
         (trace (requestFileList (demoHost [".png"] None) "/r" smallTree
                   (idle (Some 4))))) /\
  ~ partialResultDelivered (demoHost [".png"] None) "/r" smallTree (idle (Some 4)).
Proof.
  assert (forall files,
            ~ In (Sent (FileListData files))
                (trace (requestFileList (demoHost [".png"] None) "/r" smallTree
                          (idle (Some 4))))) as None_sent.
  { intros files. vm_compute. intros Hin.
    repeat (destruct Hin as [Hin | Hin]; [discriminate Hin|]). exact Hin. }
  split; [|split; [|split; [|split]]].
  - eexists. split; [vm_compute; reflexivity|]. split; reflexivity.
  - vm_compute. reflexivity.
  - vm_compute. left. reflexivity.
  - exact None_sent.
  - intros D. apply (None_sent _ (D eq_refl)).
Qed.

(* ------------------------------------------------------------------ *)
(** ** Ignored paths *)

Lemma chunkTask_not_ignored (H : Host) (ignoreFilter : string -> bool)
    (dir rootDir : string) (dirent : string * FileIO) (s : Main)
    (r : FileRecord) (s' : Main) :
  chunkTask H dir rootDir ignoreFilter dirent s = (Some r, s') ->
  ignoreFilter (relativePath r) = false.
Proof.
  intros E. unfold chunkTask in E. simpl in E. split_tests; simpl; assumption.
Qed.

Lemma processSingleFile_not_ignored (H : Host) (ignoreFilter : string -> bool)
    (fullPath rootDir : string) (io : FileIO) :
  ignoreFilter (safeRelativePath H (ensureAbsolutePath H rootDir)
                  (ensureAbsolutePath H fullPath)) = true ->
  processSingleFile H fullPath rootDir ignoreFilter io = None.
Proof.
  intros I. unfold processSingleFile, tryCatch, cbind. rewrite I.
  destruct (_ || _); reflexivity.
Qed.

(** C3. (1) Every file of a file list sent by a request has a relative
    path that the ruleset compiled for the root of that request does not
    match. (2) The watcher a request arms holds that root and that very
    ruleset. (3) For a path whose relative path the watcher's ruleset
    matches, the [ignored] option answers true, so that no add, change
    or unlink event of it reaches a listener and nothing is sent, however
    late the file appears. (4) Were such a path handed to the add or the
    change listener all the same, the pipeline would return [null] and
    the listener would send nothing. *)
Theorem ignored_paths_never_surface (H : Host) :
  (forall folderPath node s ext files f,
     trace (requestFileList H folderPath node s) = (ext ++ trace s)%list ->
     In (Sent (FileListData files)) ext ->
     In f files ->
     notIgnoredIn H folderPath f) /\
  (forall folderPath node s w,
     isLoadingDirectory s = false ->
     currentWatcher (requestFileList H folderPath node s) = Some w ->
     watch_root w = ensureAbsolutePath H folderPath /\
     watch_filter w = loadGitignore H (ensureAbsolutePath H folderPath)) /\
  (forall w ev filePath io s,
     safeRelativePath H (watch_root w) (ensureAbsolutePath H filePath) <> "" ->
     watch_filter w (safeRelativePath H (watch_root w) (ensureAbsolutePath H filePath))
     = true ->
     watcherIgnored H w filePath = true /\
     watcherEvent H w ev filePath io s = s) /\
  (forall w filePath io s,
     watch_filter w
       (safeRelativePath H (ensureAbsolutePath H (watch_root w))
          (ensureAbsolutePath H (normalizePath H filePath))) = true ->
     onAdd H w filePath io s = s /\ onChange H w filePath io s = s).
Proof.
  split; [|split; [|split]].
  - intros folderPath node s ext files f T Hin Hf.
    destruct (requestFileList_outcome H folderPath node s) as (ext0 & T0 & O).
    rewrite T in T0. apply app_inv_tail in T0. subst ext0.
    assert (forall pre, Forall (fun e => isPreparation e = true) pre ->
                        ~ In (Sent (FileListData files)) pre) as Quiet.
    { intros pre Fpre A. rewrite Forall_forall in Fpre.
      specialize (Fpre _ A). discriminate Fpre. }
    destruct O as [L E | pre L L2 Fpre E | pre L L2 Fpre E]; subst ext.
    + exfalso. destruct (windowOk s), (currentWatcher s), (pendingCancel s) as [[|k]|];
        simpl in Hin; repeat (destruct Hin as [Hin | Hin]; [discriminate Hin|]);
        exact Hin.
    + exfalso. destruct (windowOk s); simpl in Hin.
      * destruct Hin as [A | A]; [discriminate A | exact (Quiet _ Fpre A)].
      * exact (Quiet _ Fpre Hin).
    + destruct Hin as [A | [A | A]]; [|discriminate A | exfalso; exact (Quiet _ Fpre A)].
      injection A as <-. apply in_map_iff in Hf. destruct Hf as (r & <- & Hr).
      unfold notIgnoredIn. simpl.
      pose proof (readFilesRecursively_invariant H
                    (fun r => loadGitignore H (ensureAbsolutePath H folderPath)
                                (relativePath r) = false)
                    (loadGitignore H (ensureAbsolutePath H folderPath))
                    (chunkTask_not_ignored H _) node
                    (ensureAbsolutePath H folderPath) (ensureAbsolutePath H folderPath)
                    (scanPrelude s)) as [FP _].
      fold (walkOfRequest H folderPath node s) in FP.
      rewrite Forall_forall in FP. exact (FP r Hr).
  - intros folderPath node s w L C.
    destruct (requestFileList_final_state H folderPath node s L) as (_ & _ & _ & Armed).
    rewrite (Armed w C). split; reflexivity.
  - intros w ev filePath io s Hne Hm.
    assert (watcherIgnored H w filePath = true) as Ig.
    { unfold watcherIgnored. apply String.eqb_neq in Hne. rewrite Hne, Hm.
      destruct (negb _ || startsWith _ _); reflexivity. }
    split; [exact Ig|]. unfold watcherEvent. rewrite Ig. reflexivity.
  - intros w filePath io s Hm. unfold onAdd, onChange.
    rewrite (processSingleFile_not_ignored H _ _ _ io Hm). split; reflexivity.
Qed.

(** The demo session: [b.txt] is ignored. The scan of [smallTree] lists
    two files, neither of them [b.txt]; the watcher then drops the
    events of a [b.txt] created later. *)
Lemma ignored_paths_never_surface_witness :
  (exists f1 f2 pre,
     trace (requestFileList (demoHost [".png"] None) "/r" smallTree (idle None))
     = Sent (FileListData [f1; f2]) :: pre /\
     ser_relativePath f1 = "sub/a.txt" /\ ser_relativePath f2 = "top.txt" /\
     notIgnoredIn (demoHost [".png"] None) "/r" f1 /\
     notIgnoredIn (demoHost [".png"] None) "/r" f2) /\
  (exists w,
     currentWatcher (requestFileList (demoHost [".png"] None) "/r" smallTree (idle None))
     = Some w /\
     forall ev io s,
       watcherEvent (demoHost [".png"] None) w ev "/r/b.txt" io s = s /\
       onAdd (demoHost [".png"] None) w "/r/b.txt" io s = s).
Proof.
  destruct (ignored_paths_never_surface (demoHost [".png"] None))
    as (Scan & Armed & Dropped & Listener).
  split.
  - assert (exists f1 f2 pre,
              trace (requestFileList (demoHost [".png"] None) "/r" smallTree (idle None))
              = Sent (FileListData [f1; f2]) :: pre /\
              ser_relativePath f1 = "sub/a.txt" /\ ser_relativePath f2 = "top.txt")
      as (f1 & f2 & pre & T & R1 & R2)
      by (do 3 eexists; split; [vm_compute; reflexivity | split; reflexivity]).
    exists f1, f2, pre. split; [exact T|]. split; [exact R1|]. split; [exact R2|].
    assert (trace (requestFileList (demoHost [".png"] None) "/r" smallTree (idle None))
            = ((Sent (FileListData [f1; f2]) :: pre) ++ trace (idle None))%list) as T'
      by (rewrite T; symmetry; apply app_nil_r).
    split.
    + exact (Scan "/r" smallTree (idle None) _ [f1; f2] f1 T'
               (or_introl eq_refl) (or_introl eq_refl)).
    + exact (Scan "/r" smallTree (idle None) _ [f1; f2] f2 T'
               (or_introl eq_refl) (or_intror (or_introl eq_refl))).
  - assert (exists w,
              currentWatcher
                (requestFileList (demoHost [".png"] None) "/r" smallTree (idle None))
              = Some w /\
              watch_root w = "/r" /\
              watch_filter w = (fun rel => String.eqb rel "b.txt"))
      as (w & C & Rw & Fw)
      by (eexists; split; [vm_compute; reflexivity | split; reflexivity]).
    exists w. split; [exact C|]. intros ev io s. split.
    + apply Dropped; rewrite Rw, ?Fw; [vm_compute; discriminate | vm_compute; reflexivity].
    + apply Listener. rewrite Rw, Fw. vm_compute. reflexivity.
Defined.

(* ------------------------------------------------------------------ *)
(** ** POSIX paths *)

Module PosixFacts.
Import Posix.

Lemma splitOn_nonempty (c : ascii) (s : string) : splitOn c s <> [].
Proof.
  destruct s as [|a s]; simpl; [discriminate|].
  destruct (Ascii.eqb a c); [discriminate|].
  destruct (splitOn c s); discriminate.
Qed.

Lemma splitOn_app (c : ascii) (a b : string) :
  splitOn c (a ++ String c b) = (splitOn c a ++ splitOn c b)%list.
Proof.
  induction a as [|x a IH]; simpl.
  - rewrite Ascii.eqb_refl. reflexivity.
  - destruct (Ascii.eqb x c); [rewrite IH; reflexivity|].
    rewrite IH. pose proof (splitOn_nonempty c a) as N.
    destruct (splitOn c a); [congruence | reflexivity].
Qed.

Lemma splitOn_without (c : ascii) (n : string) :
  hasChar c n = false -> splitOn c n = [n].
Proof.
  induction n as [|x n IH]; simpl; [reflexivity|].
  intros E. apply orb_false_iff in E. destruct E as [E1 E2].
  rewrite E1, (IH E2). reflexivity.
Qed.

Lemma lastSegment_snoc (l : list string) (n : string) :
  n <> "" -> lastSegment (l ++ [n]) = n.
Proof.
  intros N. induction l as [|x l IH]; simpl.
  - reflexivity.
  - rewrite IH. apply String.eqb_neq in N. rewrite N. reflexivity.
Qed.

Lemma lastSegment_snoc_empty (l : list string) :
  lastSegment (l ++ [""]) = lastSegment l.
Proof.
  induction l as [|x l IH]; simpl; [reflexivity|]. rewrite IH. reflexivity.
Qed.

Lemma append_assoc (a b c : string) : (a ++ b) ++ c = a ++ (b ++ c).
Proof. induction a; simpl; congruence. Qed.

Lemma append_empty_r (a : string) : a ++ "" = a.
Proof. induction a; simpl; congruence. Qed.

Lemma unsplit_snoc (l : list string) (n : string) :
  unsplit (l ++ [n]) = match l with
                       | [] => n
                       | _ => unsplit l ++ "/" ++ n
                       end.
Proof.
  unfold unsplit. induction l as [|x l IH]; [reflexivity|].
  destruct l as [|y l]; [reflexivity|].
  change (String.concat "/" ((x :: y :: l) ++ [n]))
    with (x ++ "/" ++ String.concat "/" ((y :: l) ++ [n])).
  rewrite IH.
  change (String.concat "/" (x :: y :: l)) with (x ++ "/" ++ String.concat "/" (y :: l)).
  rewrite !append_assoc. reflexivity.
Qed.

Lemma mapChars_app (f : ascii -> ascii) (a b : string) :
  mapChars f (a ++ b) = mapChars f a ++ mapChars f b.
Proof. induction a; simpl; congruence. Qed.

Lemma replaceBackslashes_idem (x : string) :
  replaceBackslashes (replaceBackslashes x) = replaceBackslashes x.
Proof.
  unfold replaceBackslashes. induction x as [|c x IH]; simpl; [reflexivity|].
  rewrite IH. f_equal. destruct (Ascii.eqb c backslash) eqn:E; [reflexivity|].
  rewrite E. reflexivity.
Qed.

Lemma replaceBackslashes_without (n : string) :
  hasChar backslash n = false -> replaceBackslashes n = n.
Proof.
  unfold replaceBackslashes. induction n as [|c n IH]; simpl; [reflexivity|].
  intros E. apply orb_false_iff in E. destruct E as [E1 E2].
  rewrite E1, (IH E2). reflexivity.
Qed.

Lemma isAbsolute_iff (p : string) :
  isAbsolute p = true <-> exists t, p = String slash t.
Proof.
  unfold isAbsolute, startsWith. rewrite String.prefix_correct. split.
  - destruct p as [|c t]; simpl; [discriminate|].
    intros E. injection E as -> _. exists t. reflexivity.
  - intros [t ->]. simpl. destruct t; reflexivity.
Qed.

Lemma replaceBackslashes_absolute (x : string) :
  isAbsolute x = true -> isAbsolute (replaceBackslashes x) = true.
Proof.
  rewrite !isAbsolute_iff. intros [t ->]. exists (replaceBackslashes t). reflexivity.
Qed.

Lemma length_app (a b : string) :
  String.length (a ++ b) = (String.length a + String.length b)%nat.
Proof. induction a; simpl; congruence. Qed.

Lemma normSegments_snoc (b : bool) (l : list string) (n : string) :
  (n =? "") = false -> (n =? ".") = false -> (n =? "..") = false ->
  normSegments b (l ++ [n]) = (normSegments b l ++ [n])%list.
Proof.
  intros E1 E2 E3. unfold normSegments. rewrite fold_left_app.
  set (stack := fold_left (normStep b) l []).
  change (fold_left (normStep b) [n] stack) with (normStep b stack n).
  unfold normStep. rewrite E1, E2, E3. reflexivity.
Qed.

Lemma unsplit_snoc_nonempty (l : list string) (n : string) :
  (n =? "") = false -> (unsplit (l ++ [n]) =? "") = false.
Proof.
  intros E. apply String.eqb_neq in E. apply String.eqb_neq. rewrite unsplit_snoc.
  destruct l; [exact E|]. intros F. apply (f_equal String.length) in F.
  rewrite !length_app in F. simpl in F. lia.
Qed.

Lemma normalize_absolute (p : string) :
  isAbsolute p = true ->
  normalize p =
  if unsplit (normSegments false (split p)) =? "" then "/"
  else "/" ++ (if endsWith "/" p
               then unsplit (normSegments false (split p)) ++ "/"
               else unsplit (normSegments false (split p))).
Proof.
  intros A. unfold normalize. rewrite A.
  apply isAbsolute_iff in A. destruct A as [t ->]. reflexivity.
Qed.

Lemma regularName_spec (n : string) :
  regularName n = true ->
  (n =? "") = false /\ (n =? ".") = false /\ (n =? "..") = false /\
  hasChar slash n = false /\ hasChar backslash n = false.
Proof.
  unfold regularName. rewrite !andb_true_iff, !negb_true_iff. tauto.
Qed.

(** Joining an absolute directory and a regular name: the name comes
    last, after a separator. *)
Lemma join_shape (dir n : string) :
  isAbsolute dir = true -> regularName n = true ->
  exists segs (t : bool),
    join dir n = "/" ++ unsplit (segs ++ [n]) ++ (if t then "/" else "").
Proof.
  intros A R. destruct (regularName_spec n R) as (E1 & E2 & E3 & S & _).
  assert (dir ++ "/" ++ n = dir ++ String slash n) as P by reflexivity.
  assert (isAbsolute (dir ++ "/" ++ n) = true) as A'.
  { apply isAbsolute_iff in A. destruct A as [t ->]. apply isAbsolute_iff.
    eexists. reflexivity. }
  assert ((dir =? "") = false) as D.
  { apply isAbsolute_iff in A. destruct A as [t ->]. reflexivity. }
  unfold join. rewrite D, E1, (normalize_absolute _ A'). rewrite P.
  unfold split. rewrite splitOn_app, (splitOn_without slash n S).
  rewrite (normSegments_snoc false _ n E1 E2 E3).
  rewrite (unsplit_snoc_nonempty _ n E1).
  exists (normSegments false (splitOn slash dir)), (endsWith "/" (dir ++ String slash n)).
  destruct (endsWith _ _); [reflexivity | rewrite append_empty_r; reflexivity].
Qed.

Section OnPosixHost.

Variables (cwd app : string) (table : list string) (excluded : string -> bool)
  (gitignore : string -> string -> bool) (enc : option Encoder) (chokidar : bool).

Let host := posixHost cwd app table excluded gitignore enc chokidar.

Lemma normalizePath_posix (p : string) : normalizePath host p = replaceBackslashes p.
Proof. unfold normalizePath. simpl. destruct p; reflexivity. Qed.

Lemma normalizePath_idem (p : string) :
  normalizePath host (normalizePath host p) = normalizePath host p.
Proof. rewrite !normalizePath_posix. apply replaceBackslashes_idem. Qed.

Lemma ensureAbsolutePath_absolute (p : string) :
  isAbsolute (ensureAbsolutePath host p) = true.
Proof.
  unfold ensureAbsolutePath. rewrite normalizePath_posix. simpl.
  destruct (isAbsolute p) eqn:A; simpl.
  - apply replaceBackslashes_absolute, A.
  - apply replaceBackslashes_absolute, isAbsolute_iff. eexists. reflexivity.
Qed.

(** A path that is absolute and already normalized is left as it is. *)
Lemma ensureAbsolutePath_fixed (p : string) :
  isAbsolute p = true -> normalizePath host p = p -> ensureAbsolutePath host p = p.
Proof.
  intros A N. unfold ensureAbsolutePath. simpl. rewrite A. simpl. exact N.
Qed.

Lemma ensureAbsolutePath_idem (p : string) :
  ensureAbsolutePath host (ensureAbsolutePath host p) = ensureAbsolutePath host p.
Proof.
  apply ensureAbsolutePath_fixed; [apply ensureAbsolutePath_absolute|].
  unfold ensureAbsolutePath. apply normalizePath_idem.
Qed.

(** The path the scanner builds for an entry ends with the name of the
    entry, after a separator. *)
Lemma safePathJoin_shape (dir n : string) :
  isAbsolute dir = true -> regularName n = true ->
  exists front (t : bool),
    safePathJoin host dir n = front ++ String slash (n ++ (if t then "/" else "")) /\
    isAbsolute (safePathJoin host dir n) = true.
Proof.
  intros A R. destruct (join_shape dir n A R) as (segs & t & J).
  destruct (regularName_spec n R) as (_ & _ & _ & _ & B).
  unfold safePathJoin. rewrite normalizePath_posix.
  change (path_join host dir n) with (join dir n). rewrite J, unsplit_snoc.
  destruct segs as [|seg segs].
  - exists "", t. split; [|apply isAbsolute_iff; eexists; reflexivity].
    unfold replaceBackslashes. change ("/" ++ n ++ (if t then "/" else ""))
      with (String slash (n ++ (if t then "/" else ""))).
    simpl mapChars. rewrite mapChars_app. fold replaceBackslashes.
    rewrite (replaceBackslashes_without n B). destruct t; reflexivity.
  - exists (replaceBackslashes ("/" ++ unsplit (seg :: segs))), t.
    split; [|apply isAbsolute_iff; eexists; reflexivity].
    rewrite <- !append_assoc. unfold replaceBackslashes.
    rewrite !mapChars_app. fold replaceBackslashes.
    rewrite (replaceBackslashes_without n B), !append_assoc. destruct t; reflexivity.
Qed.

Lemma basename_safePathJoin (dir n : string) :
  isAbsolute dir = true -> regularName n = true ->
  basename (safePathJoin host dir n) = n.
Proof.
  intros A R. destruct (safePathJoin_shape dir n A R) as (front & t & E & _).
  rewrite E. destruct (regularName_spec n R) as (N & _ & _ & S & _).
  apply String.eqb_neq in N.
  unfold basename, split. rewrite splitOn_app. destruct t.
  - change (n ++ "/") with (n ++ String slash ""). rewrite splitOn_app.
    rewrite (splitOn_without slash n S). simpl splitOn.
    rewrite app_assoc, lastSegment_snoc_empty. apply lastSegment_snoc, N.
  - rewrite append_empty_r, (splitOn_without slash n S). apply lastSegment_snoc, N.
Qed.

Lemma safePathJoin_fixed (dir n : string) :
  isAbsolute dir = true -> regularName n = true ->
  ensureAbsolutePath host (safePathJoin host dir n) = safePathJoin host dir n.
Proof.
  intros A R. apply ensureAbsolutePath_fixed.
  - destruct (safePathJoin_shape dir n A R) as (front & t & _ & Abs). exact Abs.
  - unfold safePathJoin. apply normalizePath_idem.
Qed.

End OnPosixHost.

End PosixFacts.

(* ------------------------------------------------------------------ *)
(** ** The watcher pipeline against the scanner task *)

Lemma upper_of_lower (x : string) : toUpperCase (toLowerCase x) = toUpperCase x.
Proof.
  unfold toUpperCase, toLowerCase. induction x as [|c x IH]; simpl; [reflexivity|].
  rewrite IH. f_equal.
  destruct c as [[] [] [] [] [] [] [] []]; reflexivity.
Qed.

Lemma awaitIO_quiet (op : Effect) (s : Main) :
  pendingCancel s = None ->
  awaitIO op s = emit op s.
Proof. intros K. unfold awaitIO. simpl. rewrite K. reflexivity. Qed.

(** X25. Where the two pipelines do agree. On a POSIX host, for an
    entry [n] (a regular name) of a directory being scanned, whose
    relative path is not empty, while the scan is loading with no
    cancel on its way, outside application bundles, off the application
    path, and provided the two extension tests agree on the path: the
    watcher pipeline and the scanner task both drop the path or both
    produce a record, with the same name, relative path, path, size,
    flags, file type and token count; when no I/O operation fails the
    content and the error are the same as well; when one fails, both
    records are skipped ones carrying an error, whose text is
    "Error: " and the message in the watcher, and a reason chosen by
    the error code in the scanner. *)
Theorem watcher_matches_scanner
    (cwd app : string) (table : list string) (excluded : string -> bool)
    (gitignore : string -> string -> bool) (enc : option Encoder) (chokidar : bool)
    (dir0 root0 n : string) (ignoreFilter : string -> bool) (io : FileIO) (s : Main) :
  let host := posixHost cwd app table excluded gitignore enc chokidar in
  let dir := ensureAbsolutePath host dir0 in
  let rootDir := ensureAbsolutePath host root0 in
  let fullPath := safePathJoin host dir n in
  regularName n = true ->
  isLoadingDirectory s = true ->
  pendingCancel s = None ->
  isAppBundlePath fullPath = false ->
  fullPath <> app ->
  safeRelativePath host rootDir fullPath <> "" ->
  isBinaryFile host fullPath = singleFileBinaryTest host fullPath ->
  pipelinesAgree host fullPath io
    (processSingleFile host fullPath rootDir ignoreFilter io)
    (fst (chunkTask host dir rootDir ignoreFilter (n, io) s)).
Proof.
  intros host dir rootDir fullPath R L K Bundle NotApp NotRoot Agree.
  assert (Posix.isAbsolute dir = true) as Adir
    by apply PosixFacts.ensureAbsolutePath_absolute.
  pose proof (PosixFacts.safePathJoin_fixed cwd app table excluded gitignore enc chokidar
                dir n Adir R) as Fix.
  pose proof (PosixFacts.basename_safePathJoin cwd app table excluded gitignore enc
                chokidar dir n Adir R) as Base.
  pose proof (PosixFacts.ensureAbsolutePath_idem cwd app table excluded gitignore enc
                chokidar root0) as Root.
  fold host in Fix, Base, Root. fold fullPath in Fix, Base. fold rootDir in Root.
  apply String.eqb_neq in NotApp.
  unfold processSingleFile, chunkTask, pipelinesAgree, ioFailure.
  rewrite Fix, Root, L. cbn [fst snd negb].
  fold fullPath. change (appPath host) with app.
  rewrite Bundle, NotApp. cbn [orb].
  unfold tryCatch, cbind, singleFileError, chunkTaskError.
  unfold singleFileBinaryTest in Agree.
  change (path_basename host fullPath) with (Posix.basename fullPath).
  rewrite Base.
  destruct (startsWith ".." (safeRelativePath host rootDir fullPath)); cbn [isValidPath negb orb fst];
    [exact I|].
  destruct (ignoreFilter (safeRelativePath host rootDir fullPath)); cbn [fst]; [exact I|].
  rewrite (awaitIO_quiet _ s K).
  destruct (io_stat io) as [stats_size|e]; cbn [fst].
  2:{ unfold sameClassification. simpl. repeat split; reflexivity. }
  cbn [isLoadingDirectory emit]. rewrite L. cbn [negb].
  destruct (stats_size >? MAX_FILE_SIZE)%Z; cbn [fst].
  { unfold sameClassification, sameRecord. simpl. repeat split; reflexivity. }
  rewrite <- Agree. destruct (isBinaryFile host fullPath) eqn:B; cbn [fst].
  { unfold sameClassification, sameRecord. simpl. rewrite upper_of_lower.
    repeat split; reflexivity. }
  rewrite awaitIO_quiet by exact K.
  destruct (io_read io) as [fileContent|e]; cbn [fst].
  2:{ unfold sameClassification. simpl. repeat split; reflexivity. }
  cbn [isLoadingDirectory emit]. rewrite L. cbn [negb].
  destruct (countTokens_normal host fileContent) as (tokens & -> & _). cbn [fst].
  unfold sameClassification, sameRecord. simpl. repeat split; reflexivity.
Qed.


(** A 10-byte [c.png] on a host whose table has both spellings. *)
Lemma watcher_matches_scanner_witness :
  pipelinesAgree (demoHost [".png"; "png"] None)
    (safePathJoin (demoHost [".png"; "png"] None)
       (ensureAbsolutePath (demoHost [".png"; "png"] None) "/r") "c.png")
    (readable 10 "PNG bytes.")
    (processSingleFile (demoHost [".png"; "png"] None)
       (safePathJoin (demoHost [".png"; "png"] None)
          (ensureAbsolutePath (demoHost [".png"; "png"] None) "/r") "c.png")
       (ensureAbsolutePath (demoHost [".png"; "png"] None) "/r")
       (fun _ => false) (readable 10 "PNG bytes."))
    (fst (chunkTask (demoHost [".png"; "png"] None)
            (ensureAbsolutePath (demoHost [".png"; "png"] None) "/r")
            (ensureAbsolutePath (demoHost [".png"; "png"] None) "/r")
            (fun _ => false) ("c.png", readable 10 "PNG bytes.") (scanning None))) /\
  processSingleFile (demoHost [".png"; "png"] None) "/r/c.png" "/r" (fun _ => false)
    (readable 10 "PNG bytes.") <> None.
Proof.
  split.
  - apply (watcher_matches_scanner "/home/u" "/opt/pastemax" [".png"; "png"]
             (fun _ => false) (fun _ rel => String.eqb rel "b.txt") None true
             "/r" "/r" "c.png" (fun _ => false) (readable 10 "PNG bytes.")
             (scanning None)).
    + reflexivity.
    + reflexivity.
    + reflexivity.
    + vm_compute. reflexivity.
    + vm_compute. discriminate.
    + vm_compute. discriminate.
    + vm_compute. reflexivity.
  - vm_compute. discriminate.
Defined.

(** C2. The scanner does not run [processSingleFile], whose
    documentation says it is used by both the initial scan and the
    watcher, but a copy of its own, and the two differ. For a file that
    vanished before its stat, both produce a skipped record, and the
    error of the watcher's record is "Error: " followed by the message
    where the scanner's is "File not found": the records are not the
    same. For an entry at the application path, the scanner's task
    returns [null] where the watcher pipeline produces a record. *)
Theorem watcher_and_scanner_word_errors_differently :
  (exists w c,
     processSingleFile (demoHost [".png"] None) "/r/gone.txt" "/r" (fun _ => false)
       vanished = Some w /\
     fst (chunkTask (demoHost [".png"] None) "/r" "/r" (fun _ => false)
            ("gone.txt", vanished) (scanning None)) = Some c /\
     error w = Some "Error: ENOENT: no such file or directory" /\
     error c = Some "File not found" /\
     ~ sameRecord w c) /\
  (exists w,
     processSingleFile (demoHost [".png"] None) "/opt/pastemax" "/opt" (fun _ => false)
       (readable 3 "abc") = Some w /\
     relativePath w = "pastemax" /\
     fst (chunkTask (demoHost [".png"] None) "/opt" "/opt" (fun _ => false)
            ("pastemax", readable 3 "abc") (scanning None)) = None).
Proof.
  split.
  - do 2 eexists. split; [vm_compute; reflexivity|]. split; [vm_compute; reflexivity|].
    split; [reflexivity|]. split; [reflexivity|].
    unfold sameRecord. simpl. intros (_ & _ & _ & _ & _ & _ & _ & _ & E). discriminate E.
  - eexists. split; [vm_compute; reflexivity|]. split; [reflexivity|].
    vm_compute. reflexivity.
Qed.

(* ------------------------------------------------------------------ *)
(** ** The formatter *)








(* ------------------------------------------------------------------ *)
(** ** Fuel *)

(** The chunk loop never stops for want of fuel: with [length files]
    units, or more, it ends where the source loop ends. *)
Lemma chunkLoop_fuel (H : Host) (dir rootDir : string) (ignoreFilter : string -> bool)
    (files : list (string * FileIO)) :
  forall fuel i results processedFiles s,
    (List.length files <= i + fuel)%nat ->
    chunkLoop H dir rootDir ignoreFilter files (S fuel) i results processedFiles s
    = chunkLoop H dir rootDir ignoreFilter files fuel i results processedFiles s.
Proof.
  induction fuel as [|fuel IH]; intros i results processedFiles s Hlen.
  - simpl. assert ((i <? List.length files)%nat = false) as ->
      by (apply Nat.ltb_ge; lia). reflexivity.
  - change (chunkLoop H dir rootDir ignoreFilter files (S (S fuel)) i results
              processedFiles s)
      with (if negb (i <? List.length files)%nat then Fallthrough results s
            else if negb (isLoadingDirectory s) then Returned results s
            else
              let chunk := firstn CHUNK_SIZE (skipn i files) in
              let '(chunkResults, s) :=
                promiseAll (chunkTask H dir rootDir ignoreFilter) chunk s in
              if negb (isLoadingDirectory s) then Returned results s
              else
                chunkLoop H dir rootDir ignoreFilter files (S fuel) (i + CHUNK_SIZE)%nat
                  (results ++ nonNull chunkResults)%list
                  (processedFiles + List.length chunk)%nat
                  (send (processingMessage (processedFiles + List.length chunk)%nat
                           (List.length files)) s)).
    change (chunkLoop H dir rootDir ignoreFilter files (S fuel) i results
              processedFiles s)
      with (if negb (i <? List.length files)%nat then Fallthrough results s
            else if negb (isLoadingDirectory s) then Returned results s
            else
              let chunk := firstn CHUNK_SIZE (skipn i files) in
              let '(chunkResults, s) :=
                promiseAll (chunkTask H dir rootDir ignoreFilter) chunk s in
              if negb (isLoadingDirectory s) then Returned results s
              else
                chunkLoop H dir rootDir ignoreFilter files fuel (i + CHUNK_SIZE)%nat
                  (results ++ nonNull chunkResults)%list
                  (processedFiles + List.length chunk)%nat
                  (send (processingMessage (processedFiles + List.length chunk)%nat
                           (List.length files)) s)).
    destruct (negb (i <? List.length files)%nat); [reflexivity|].
    destruct (negb (isLoadingDirectory s)); [reflexivity|]. cbv zeta.
    destruct (promiseAll _ _ s) as [chunkResults s1].
    destruct (negb (isLoadingDirectory s1)); [reflexivity|].
    apply IH. unfold CHUNK_SIZE. lia.
Qed.

Lemma dropN_length (k : nat) (s : string) :
  (String.length (dropN k s) <= String.length s)%nat.
Proof.
  revert s. induction k as [|k IH]; intros s; [destruct s; simpl; lia|].
  destruct s as [|c s]; simpl; [lia|]. specialize (IH s). lia.
Qed.

(** Nor does the removal of the sentinel: [length s] units of fuel are
    as good as any larger amount. *)
Lemma removeAllFuel_enough (lit : string) :
  forall fuel s,
    (String.length s <= fuel)%nat ->
    removeAllFuel (S fuel) lit s = removeAllFuel fuel lit s.
Proof.
  induction fuel as [|fuel IH]; intros s Hlen.
  - destruct s; [reflexivity | simpl in Hlen; lia].
  - destruct s as [|c s]; [reflexivity|].
    change (removeAllFuel (S (S fuel)) lit (String c s))
      with (if String.prefix lit (String c s) && negb (lit =? "")
            then removeAllFuel (S fuel) lit (dropN (String.length lit) (String c s))
            else String c (removeAllFuel (S fuel) lit s)).
    change (removeAllFuel (S fuel) lit (String c s))
      with (if String.prefix lit (String c s) && negb (lit =? "")
            then removeAllFuel fuel lit (dropN (String.length lit) (String c s))
            else String c (removeAllFuel fuel lit s)).
    simpl in Hlen.
    destruct (String.prefix lit (String c s) && negb (lit =? "")) eqn:E.
    + apply IH. apply andb_true_iff in E. destruct E as [_ E].
      destruct lit as [|l0 lit]; [discriminate E|]. simpl.
      pose proof (dropN_length (String.length lit) s). lia.
    + f_equal. apply IH. lia.
Qed.

(* ------------------------------------------------------------------ *)
(** ** Path helpers *)

Lemma startsWith_dotdot_iff (x : string) :
  startsWith ".." x = true <-> exists rest, x = String dot (String dot rest).
Proof.
  unfold startsWith. rewrite String.prefix_correct. split.
  - destruct x as [|a [|b rest]]; simpl; try discriminate.
    intros E. injection E as -> -> _. exists rest. reflexivity.
  - intros [rest ->]. simpl. destruct rest; reflexivity.
Qed.

Lemma replaceBackslashes_clears (x : string) :
  hasChar backslash (replaceBackslashes x) = false.
Proof.
  unfold replaceBackslashes. induction x as [|c x IH]; simpl; [reflexivity|].
  rewrite IH. destruct (Ascii.eqb c backslash) eqn:E; [reflexivity|].
  rewrite E. reflexivity.
Qed.

Lemma replaceBackslashes_nonempty (x : string) :
  x <> "" -> (replaceBackslashes x =? "") = false.
Proof. destruct x; [congruence | reflexivity]. Qed.

Lemma startsWith_unc_iff (p : string) :
  startsWith "\\" p = true <-> exists rest, p = String backslash (String backslash rest).
Proof.
  unfold startsWith. rewrite String.prefix_correct. split.
  - destruct p as [|a [|b rest]]; simpl; try discriminate.
    intros E. injection E as -> -> _. exists rest. reflexivity.
  - intros [rest ->]. simpl. destruct rest; reflexivity.
Qed.

Lemma startsWith_unc_needs_backslash (p : string) :
  hasChar backslash p = false -> startsWith "\\" p = false.
Proof.
  intros N. destruct (startsWith "\\" p) eqn:E; [|reflexivity].
  apply startsWith_unc_iff in E. destruct E as [rest ->]. discriminate N.
Qed.

Lemma win32_form (p : string) :
  p <> "" ->
  let r := if startsWith "\\" p
           then "\\" ++ replaceBackslashes (substring1 (substring1 p))
           else replaceBackslashes p in
  (r =? "") = false /\
  (if startsWith "\\" r
   then "\\" ++ replaceBackslashes (substring1 (substring1 r))
   else replaceBackslashes r) = r /\
  hasChar backslash (substring1 (substring1 r)) = false.
Proof.
  intros Np. cbv zeta. destruct (startsWith "\\" p) eqn:U.
  - apply startsWith_unc_iff in U. destruct U as [rest ->].
    cbn [substring1 append].
    assert (startsWith "\\" (String "\" (String "\" (replaceBackslashes rest))) = true)
      as -> by (apply startsWith_unc_iff; eexists; reflexivity).
    rewrite PosixFacts.replaceBackslashes_idem.
    split; [reflexivity|]. split; [reflexivity | apply replaceBackslashes_clears].
  - rewrite (startsWith_unc_needs_backslash _ (replaceBackslashes_clears p)).
    rewrite PosixFacts.replaceBackslashes_idem.
    split; [apply replaceBackslashes_nonempty, Np|]. split; [reflexivity|].
    pose proof (replaceBackslashes_clears p) as C.
    destruct (replaceBackslashes p) as [|a [|b r]]; simpl in *; auto.
    apply orb_false_iff in C. destruct C as [_ C].
    apply orb_false_iff in C. destruct C as [_ C]. exact C.
Qed.

(** X1. [normalizePath] is idempotent on every platform. Off Windows
    its result holds no backslash at all; on Windows a backslash can
    only survive in the first two characters (the UNC prefix). *)
Theorem normalizePath_idempotent (H : Host) (p : string) :
  normalizePath H (normalizePath H p) = normalizePath H p /\
  (platform H <> Win32 -> hasChar backslash (normalizePath H p) = false) /\
  hasChar backslash (substring1 (substring1 (normalizePath H p))) = false.
Proof.
  unfold normalizePath.
  destruct (p =? "") eqn:Ep.
  { apply String.eqb_eq in Ep. subst p. repeat split; reflexivity. }
  assert (p <> "") as Np by (apply String.eqb_neq; exact Ep).
  destruct (win32_form p Np) as (W1 & W2 & W3).
  assert ((if replaceBackslashes p =? "" then replaceBackslashes p
           else replaceBackslashes (replaceBackslashes p)) = replaceBackslashes p)
    as Plain.
  { rewrite (replaceBackslashes_nonempty p Np).
    apply PosixFacts.replaceBackslashes_idem. }
  assert (hasChar backslash (substring1 (substring1 (replaceBackslashes p))) = false)
    as Tail.
  { pose proof (replaceBackslashes_clears p) as C.
    destruct (replaceBackslashes p) as [|a [|b r]]; simpl in *; auto.
    apply orb_false_iff in C. destruct C as [_ C].
    apply orb_false_iff in C. destruct C as [_ C]. exact C. }
  destruct (platform H) eqn:Pf.
  - rewrite W1, W2. split; [reflexivity|]. split; [congruence | exact W3].
  - rewrite Plain. split; [reflexivity|].
    split; [intros _; apply replaceBackslashes_clears | exact Tail].
  - rewrite Plain. split; [reflexivity|].
    split; [intros _; apply replaceBackslashes_clears | exact Tail].
  - rewrite Plain. split; [reflexivity|].
    split; [intros _; apply replaceBackslashes_clears | exact Tail].
Qed.

(** A Windows-style path on the Linux demo host. *)
Lemma normalizePath_idempotent_witness :
  normalizePath (demoHost [] None) "C:\src\a.txt" = "C:/src/a.txt" /\
  hasChar backslash (normalizePath (demoHost [] None) "C:\src\a.txt") = false.
Proof.
  destruct (normalizePath_idempotent (demoHost [] None) "C:\src\a.txt") as (_ & N & _).
  split; [reflexivity | apply N; discriminate].
Defined.

Module PathFacts.
Import Posix PosixFacts.

Lemma cleanSegment_spec (seg : string) :
  cleanSegment seg = true ->
  (seg =? "") = false /\ (seg =? ".") = false /\ (seg =? "..") = false /\
  hasChar slash seg = false.
Proof.
  unfold cleanSegment. rewrite !andb_true_iff, !negb_true_iff. tauto.
Qed.

Lemma regularName_clean (n : string) : regularName n = true -> cleanSegment n = true.
Proof.
  intros R. destruct (regularName_spec n R) as (A & B & C & D & _).
  unfold cleanSegment. rewrite A, B, C, D. reflexivity.
Qed.

Lemma splitOn_free (c d : ascii) (s : string) :
  hasChar c s = false -> Forall (fun seg => hasChar c seg = false) (splitOn d s).
Proof.
  induction s as [|a s IH]; simpl; intros N; [repeat constructor|].
  apply orb_false_iff in N. destruct N as [N1 N2]. specialize (IH N2).
  destruct (Ascii.eqb a d); [constructor; [reflexivity | exact IH]|].
  destruct (splitOn d s) as [|seg rest]; [repeat constructor; simpl; rewrite N1; reflexivity|].
  inversion IH as [|? ? Hseg Hrest]; subst.
  constructor; [simpl; rewrite N1, Hseg; reflexivity | exact Hrest].
Qed.

Lemma splitOn_separator_free (d : ascii) (s : string) :
  Forall (fun seg => hasChar d seg = false) (splitOn d s).
Proof.
  induction s as [|a s IH]; simpl; [repeat constructor|].
  destruct (Ascii.eqb a d) eqn:E; [constructor; [reflexivity | exact IH]|].
  destruct (splitOn d s) as [|seg rest];
    [repeat constructor; simpl; rewrite E; reflexivity|].
  inversion IH as [|? ? Hseg Hrest]; subst.
  constructor; [simpl; rewrite E, Hseg; reflexivity | exact Hrest].
Qed.

(** Normalization only keeps segments it was given. *)
Lemma normStep_keeps (Q : string -> Prop) (b : bool) (stack : list string) (seg : string) :
  Forall Q stack -> Q seg -> Forall Q (normStep b stack seg).
Proof.
  intros Hs Hq. unfold normStep.
  destruct (seg =? ""); [exact Hs|]. destruct (seg =? "."); [exact Hs|].
  destruct (seg =? "..").
  - destruct stack as [|top rest]; [destruct b; repeat constructor; exact Hq|].
    inversion Hs; subst.
    destruct (top =? ".."); [destruct b; [constructor|]; assumption | assumption].
  - constructor; assumption.
Qed.

Lemma fold_normStep_keeps (Q : string -> Prop) (b : bool) (l : list string) :
  forall stack, Forall Q stack -> Forall Q l ->
                Forall Q (fold_left (normStep b) l stack).
Proof.
  induction l as [|seg l IH]; intros stack Hs Hl; simpl; [exact Hs|].
  inversion Hl; subst. apply IH; [apply normStep_keeps; assumption | assumption].
Qed.

Lemma normSegments_keeps (Q : string -> Prop) (b : bool) (l : list string) :
  Forall Q l -> Forall Q (normSegments b l).
Proof.
  intros Hl. unfold normSegments. apply Forall_rev.
  apply fold_normStep_keeps; [constructor | exact Hl].
Qed.

Lemma normStep_clean (stack : list string) (seg : string) :
  Forall (fun s => cleanSegment s = true) stack ->
  hasChar slash seg = false ->
  Forall (fun s => cleanSegment s = true) (normStep false stack seg).
Proof.
  intros Hs Hq. unfold normStep.
  destruct (seg =? "") eqn:E1; [exact Hs|]. destruct (seg =? ".") eqn:E2; [exact Hs|].
  destruct (seg =? "..") eqn:E3.
  - destruct stack as [|top rest]; [constructor|]. inversion Hs; subst.
    destruct (top =? ".."); assumption.
  - constructor; [|exact Hs]. unfold cleanSegment. rewrite E1, E2, E3, Hq. reflexivity.
Qed.

Lemma segmentsOf_clean (p : string) :
  Forall (fun s => cleanSegment s = true) (segmentsOf p).
Proof.
  unfold segmentsOf, normSegments, split. apply Forall_rev.
  pose proof (splitOn_separator_free slash p) as F.
  revert F. generalize (splitOn slash p) as l.
  assert (forall l stack,
            Forall (fun s => cleanSegment s = true) stack ->
            Forall (fun seg => hasChar slash seg = false) l ->
            Forall (fun s => cleanSegment s = true) (fold_left (normStep false) l stack))
    as G.
  { induction l as [|seg l IH]; intros stack Hs Hl; simpl; [exact Hs|].
    inversion Hl; subst. apply IH; [apply normStep_clean; assumption | assumption]. }
  intros l F. apply G; [constructor | exact F].
Qed.

(** Clean segments pass through normalization unchanged. *)
Lemma fold_normStep_clean (l : list string) :
  Forall (fun s => cleanSegment s = true) l ->
  forall stack, fold_left (normStep false) l stack = (rev l ++ stack)%list.
Proof.
  induction 1 as [|seg l Hseg _ IH]; intros stack; simpl; [reflexivity|].
  destruct (cleanSegment_spec seg Hseg) as (E1 & E2 & E3 & _).
  unfold normStep at 2. rewrite E1, E2, E3, IH, <- app_assoc. reflexivity.
Qed.

Lemma normSegments_clean (l : list string) :
  Forall (fun s => cleanSegment s = true) l -> normSegments false l = l.
Proof.
  intros C. unfold normSegments. rewrite (fold_normStep_clean l C), app_nil_r.
  apply rev_involutive.
Qed.

Lemma split_unsplit (l : list string) :
  l <> [] -> Forall (fun seg => hasChar slash seg = false) l ->
  splitOn slash (unsplit l) = l.
Proof.
  intros N F. induction F as [|x l Hx F IH]; [congruence|].
  destruct l as [|y l]; [apply splitOn_without, Hx|].
  change (unsplit (x :: y :: l)) with (x ++ String slash (unsplit (y :: l))).
  rewrite splitOn_app, (splitOn_without slash x Hx), IH by discriminate. reflexivity.
Qed.

Lemma clean_slash_free (l : list string) :
  Forall (fun s => cleanSegment s = true) l ->
  Forall (fun seg => hasChar slash seg = false) l.
Proof.
  apply Forall_impl. intros seg C. apply cleanSegment_spec in C. tauto.
Qed.

(** The segments of a path written out from clean segments, with or
    without a trailing separator, are those segments. *)
Lemma segmentsOf_written (l : list string) (t : bool) :
  Forall (fun s => cleanSegment s = true) l ->
  segmentsOf ("/" ++ unsplit l ++ (if t then "/" else "")) = l.
Proof.
  intros C. unfold segmentsOf, split.
  change ("/" ++ unsplit l ++ (if t then "/" else ""))
    with (String slash (unsplit l ++ (if t then "/" else ""))).
  cbn [splitOn]. rewrite Ascii.eqb_refl.
  destruct l as [|x l].
  - destruct t; reflexivity.
  - assert (splitOn slash (unsplit (x :: l) ++ (if t then "/" else ""))
            = ((x :: l) ++ (if t then [""] else []))%list) as ->.
    { destruct t.
      - change (unsplit (x :: l) ++ "/") with (unsplit (x :: l) ++ String slash "").
        rewrite splitOn_app, split_unsplit;
          [reflexivity | discriminate | apply clean_slash_free, C].
      - rewrite append_empty_r, app_nil_r.
        apply split_unsplit; [discriminate | apply clean_slash_free, C]. }
    unfold normSegments. cbn [fold_left]. unfold normStep at 2. cbn [String.eqb].
    rewrite fold_left_app, (fold_normStep_clean _ C), app_nil_r.
    destruct t; cbn [fold_left]; [unfold normStep; cbn [String.eqb]|];
      apply rev_involutive.
Qed.

Lemma hasChar_app (c : ascii) (a b : string) :
  hasChar c (a ++ b) = hasChar c a || hasChar c b.
Proof. induction a as [|x a IH]; simpl; [reflexivity|]. rewrite IH, orb_assoc. reflexivity. Qed.

Lemma unsplit_free (c : ascii) (l : list string) :
  Ascii.eqb slash c = false ->
  Forall (fun seg => hasChar c seg = false) l -> hasChar c (unsplit l) = false.
Proof.
  intros Nc F. induction F as [|x l Hx F IH]; [reflexivity|].
  destruct l as [|y l]; [exact Hx|].
  change (unsplit (x :: y :: l)) with (x ++ String slash (unsplit (y :: l))).
  rewrite hasChar_app. cbn [hasChar]. rewrite Hx, Nc, IH. reflexivity.
Qed.

Lemma tidyPath_spec (p : string) :
  tidyPath p = true <-> isAbsolute p = true /\ hasChar backslash p = false.
Proof. unfold tidyPath. rewrite andb_true_iff, negb_true_iff. tauto. Qed.

Lemma segmentsOf_free (c : ascii) (p : string) :
  hasChar c p = false -> Forall (fun seg => hasChar c seg = false) (segmentsOf p).
Proof.
  intros N. unfold segmentsOf. apply normSegments_keeps. apply splitOn_free, N.
Qed.

(** [path.join] of an absolute directory and a regular name, written
    out. *)
Lemma join_written (dir n : string) :
  isAbsolute dir = true -> regularName n = true ->
  exists t : bool,
    join dir n = "/" ++ unsplit (segmentsOf dir ++ [n]) ++ (if t then "/" else "").
Proof.
  intros A R. destruct (regularName_spec n R) as (E1 & E2 & E3 & S & _).
  assert (dir ++ "/" ++ n = dir ++ String slash n) as P by reflexivity.
  assert (isAbsolute (dir ++ "/" ++ n) = true) as A'.
  { apply isAbsolute_iff in A. destruct A as [t ->]. apply isAbsolute_iff.
    eexists. reflexivity. }
  assert ((dir =? "") = false) as D.
  { apply isAbsolute_iff in A. destruct A as [t ->]. reflexivity. }
  unfold join. rewrite D, E1, (normalize_absolute _ A'). rewrite P.
  unfold split. rewrite splitOn_app, (splitOn_without slash n S).
  rewrite (normSegments_snoc false _ n E1 E2 E3).
  rewrite (unsplit_snoc_nonempty _ n E1).
  exists (endsWith "/" (dir ++ String slash n)). unfold segmentsOf, split.
  destruct (endsWith _ _); [reflexivity | rewrite append_empty_r; reflexivity].
Qed.

Section OnPosixHost.

Variables (cwd app : string) (table : list string) (excluded : string -> bool)
  (gitignore : string -> string -> bool) (enc : option Encoder) (chokidar : bool).

Let host := posixHost cwd app table excluded gitignore enc chokidar.

Lemma normalizePath_here (p : string) : normalizePath host p = replaceBackslashes p.
Proof. apply normalizePath_posix. Qed.

Lemma ensureAbsolutePath_tidy (p : string) : tidyPath (ensureAbsolutePath host p) = true.
Proof.
  apply tidyPath_spec. split; [apply ensureAbsolutePath_absolute|].
  unfold ensureAbsolutePath. rewrite normalizePath_here. apply replaceBackslashes_clears.
Qed.

Lemma tidyPath_fixed (p : string) : tidyPath p = true -> ensureAbsolutePath host p = p.
Proof.
  intros T. apply tidyPath_spec in T. destruct T as [A N].
  apply ensureAbsolutePath_fixed; [exact A|].
  rewrite normalizePath_here. apply replaceBackslashes_without, N.
Qed.

Lemma safePathJoin_written (dir n : string) :
  tidyPath dir = true -> regularName n = true ->
  exists t : bool,
    safePathJoin host dir n
    = "/" ++ unsplit (segmentsOf dir ++ [n]) ++ (if t then "/" else "").
Proof.
  intros T R. apply tidyPath_spec in T. destruct T as [A N].
  destruct (join_written dir n A R) as [t J]. exists t.
  unfold safePathJoin. rewrite normalizePath_here.
  change (path_join host dir n) with (join dir n). rewrite J.
  apply replaceBackslashes_without.
  destruct (regularName_spec n R) as (_ & _ & _ & _ & B).
  change ("/" ++ unsplit (segmentsOf dir ++ [n]) ++ (if t then "/" else ""))
    with (String slash (unsplit (segmentsOf dir ++ [n]) ++ (if t then "/" else ""))).
  cbn [hasChar]. rewrite hasChar_app.
  rewrite (unsplit_free backslash); [destruct t; reflexivity | reflexivity |].
  apply Forall_app. split; [apply segmentsOf_free, N | repeat constructor; exact B].
Qed.

Lemma safePathJoin_tidy (dir n : string) :
  tidyPath dir = true -> regularName n = true ->
  tidyPath (safePathJoin host dir n) = true /\
  segmentsOf (safePathJoin host dir n) = (segmentsOf dir ++ [n])%list.
Proof.
  intros T R. destruct (safePathJoin_written dir n T R) as [t E].
  assert (Forall (fun s => cleanSegment s = true) (segmentsOf dir ++ [n])) as C.
  { apply Forall_app. split; [apply segmentsOf_clean|].
    repeat constructor. apply regularName_clean, R. }
  split.
  - apply tidyPath_spec. split.
    + rewrite E. apply isAbsolute_iff. eexists. reflexivity.
    + unfold safePathJoin. rewrite normalizePath_here. apply replaceBackslashes_clears.
  - rewrite E. apply segmentsOf_written, C.
Qed.

Lemma dropCommon_prefix (l r : list string) : dropCommon l (l ++ r) = ([], r).
Proof.
  induction l as [|x l IH]; simpl; [destruct r; reflexivity|].
  rewrite String.eqb_refl. exact IH.
Qed.

Lemma resolve_tidy (p : string) :
  isAbsolute p = true -> resolve cwd p = "/" ++ unsplit (segmentsOf p).
Proof. intros A. unfold resolve. rewrite A. reflexivity. Qed.

(** The relative path of a descendant is made of the segments that
    lead to it. *)
Lemma safeRelativePath_descendant (root p : string) (names : list string) :
  tidyPath root = true -> tidyPath p = true ->
  segmentsOf p = (segmentsOf root ++ names)%list -> names <> [] ->
  safeRelativePath host root p = unsplit names.
Proof.
  intros Tr Tp Seg Nn.
  apply tidyPath_spec in Tr. destruct Tr as [Ar Nr].
  apply tidyPath_spec in Tp. destruct Tp as [Ap Np].
  unfold safeRelativePath. rewrite !normalizePath_here.
  rewrite (replaceBackslashes_without root Nr), (replaceBackslashes_without p Np).
  cbn [platform host posixHost].
  change (path_relative host root p) with (relative cwd root p).
  unfold relative.
  assert ((root =? p) = false) as ->.
  { apply String.eqb_neq. intros ->.
    apply (f_equal (@List.length string)) in Seg. rewrite List.length_app in Seg.
    destruct names; [congruence | simpl in Seg; lia]. }
  rewrite (resolve_tidy root Ar), (resolve_tidy p Ap).
  fold (segmentsOf ("/" ++ unsplit (segmentsOf root))).
  fold (segmentsOf ("/" ++ unsplit (segmentsOf p))).
  pose proof (segmentsOf_written (segmentsOf root) false (segmentsOf_clean root)) as W1.
  pose proof (segmentsOf_written (segmentsOf p) false (segmentsOf_clean p)) as W2.
  cbv iota in W1, W2. rewrite append_empty_r in W1, W2. rewrite W1, W2, Seg.
  rewrite dropCommon_prefix. cbn [map List.app]. rewrite normalizePath_here.
  apply replaceBackslashes_without, unsplit_free; [reflexivity|].
  pose proof (segmentsOf_free backslash p Np) as F. rewrite Seg in F.
  apply Forall_app in F. tauto.
Qed.

End OnPosixHost.

End PathFacts.

(** X2. On a POSIX host [ensureAbsolutePath] always returns an absolute
    path without backslash, leaves such a path as it is, and is
    therefore idempotent. *)
Theorem ensureAbsolutePath_posix
    (cwd app : string) (table : list string) (excluded : string -> bool)
    (gitignore : string -> string -> bool) (enc : option Encoder) (chokidar : bool)
    (p : string) :
  let host := posixHost cwd app table excluded gitignore enc chokidar in
  tidyPath (ensureAbsolutePath host p) = true /\
  ensureAbsolutePath host (ensureAbsolutePath host p) = ensureAbsolutePath host p /\
  (tidyPath p = true -> ensureAbsolutePath host p = p).
Proof.
  intros host. split; [apply PathFacts.ensureAbsolutePath_tidy|].
  split; [apply PosixFacts.ensureAbsolutePath_idem | apply PathFacts.tidyPath_fixed].
Qed.

(** A relative Windows-style path resolved against the working
    directory, and a path that is already in form. *)
Lemma ensureAbsolutePath_posix_witness :
  ensureAbsolutePath (demoHost [] None) "src\..\lib\a.js" = "/home/u/src/../lib/a.js" /\
  ensureAbsolutePath (demoHost [] None) "/r/a.js" = "/r/a.js".
Proof.
  destruct (ensureAbsolutePath_posix "/home/u" "/opt/pastemax" [] (fun _ => false)
              (fun _ rel => String.eqb rel "b.txt") None true "/r/a.js")
    as (_ & _ & Fixed).
  split; [reflexivity | apply Fixed; reflexivity].
Defined.

(** X3. On a POSIX host, joining a directory (absolute, without
    backslash) and a regular entry name appends exactly one segment:
    the result is again absolute and without backslash, its segments
    are those of the directory followed by the name, its base name is
    the name, and [ensureAbsolutePath] leaves it unchanged. *)
Theorem safePathJoin_appends_the_name
    (cwd app : string) (table : list string) (excluded : string -> bool)
    (gitignore : string -> string -> bool) (enc : option Encoder) (chokidar : bool)
    (dir n : string) :
  let host := posixHost cwd app table excluded gitignore enc chokidar in
  tidyPath dir = true -> regularName n = true ->
  tidyPath (safePathJoin host dir n) = true /\
  segmentsOf (safePathJoin host dir n) = (segmentsOf dir ++ [n])%list /\
  path_basename host (safePathJoin host dir n) = n /\
  ensureAbsolutePath host (safePathJoin host dir n) = safePathJoin host dir n.
Proof.
  intros host T R.
  destruct (PathFacts.safePathJoin_tidy cwd app table excluded gitignore enc chokidar
              dir n T R) as [T' S].
  split; [exact T'|]. split; [exact S|]. split.
  - apply PosixFacts.basename_safePathJoin; [|exact R].
    apply PathFacts.tidyPath_spec in T. tauto.
  - apply PathFacts.tidyPath_fixed, T'.
Qed.

(** A directory written with a detour and a trailing separator. *)
Lemma safePathJoin_appends_the_name_witness :
  safePathJoin (demoHost [] None) "/r/x/../src/" "a.js" = "/r/src/a.js" /\
  segmentsOf (safePathJoin (demoHost [] None) "/r/x/../src/" "a.js") = ["r"; "src"; "a.js"] /\
  path_basename (demoHost [] None) (safePathJoin (demoHost [] None) "/r/x/../src/" "a.js")
  = "a.js".
Proof.
  destruct (safePathJoin_appends_the_name "/home/u" "/opt/pastemax" [] (fun _ => false)
              (fun _ rel => String.eqb rel "b.txt") None true "/r/x/../src/" "a.js"
              eq_refl eq_refl) as (_ & S & B & _).
  split; [reflexivity|]. split; [exact S | exact B].
Defined.

Lemma descend_tidy
    (cwd app : string) (table : list string) (excluded : string -> bool)
    (gitignore : string -> string -> bool) (enc : option Encoder) (chokidar : bool)
    (names : list string) :
  let host := posixHost cwd app table excluded gitignore enc chokidar in
  Forall (fun n => regularName n = true) names ->
  forall root,
    tidyPath root = true ->
    tidyPath (descend host root names) = true /\
    segmentsOf (descend host root names) = (segmentsOf root ++ names)%list.
Proof.
  intros host; subst host; intros F. induction F as [|n names R _ IH]; intros root T.
  - simpl. rewrite app_nil_r. auto.
  - destruct (PathFacts.safePathJoin_tidy cwd app table excluded gitignore enc chokidar
                root n T R) as [T' S].
    destruct (IH _ T') as [T'' S'']. unfold descend in *. simpl.
    split; [exact T''|]. rewrite S'', S, <- app_assoc. reflexivity.
Qed.

Lemma safeRelativePath_descend
    (cwd app : string) (table : list string) (excluded : string -> bool)
    (gitignore : string -> string -> bool) (enc : option Encoder) (chokidar : bool)
    (root : string) (names : list string) :
  let host := posixHost cwd app table excluded gitignore enc chokidar in
  tidyPath root = true ->
  Forall (fun n => regularName n = true) names ->
  names <> [] ->
  safeRelativePath host root (descend host root names) = String.concat "/" names.
Proof.
  intros host T F N.
  destruct (descend_tidy cwd app table excluded gitignore enc chokidar names F root T)
    as [T' S].
  apply (PathFacts.safeRelativePath_descendant cwd app table excluded gitignore enc
           chokidar root _ names T T' S N).
Qed.

(** X4. On a POSIX host, the relative path the scanner computes for
    what it reaches from the root through regular entry names is those
    names joined by ["/"], whatever detours the root path is written
    with. It is never empty, and it begins with [..] only when the
    first of these names does. *)
Theorem relative_path_of_descendant
    (cwd app : string) (table : list string) (excluded : string -> bool)
    (gitignore : string -> string -> bool) (enc : option Encoder) (chokidar : bool)
    (root : string) (names : list string) :
  let host := posixHost cwd app table excluded gitignore enc chokidar in
  tidyPath root = true ->
  Forall (fun n => regularName n = true) names ->
  names <> [] ->
  safeRelativePath host root (descend host root names) = String.concat "/" names /\
  safeRelativePath host root (descend host root names) <> "" /\
  (startsWith ".." (safeRelativePath host root (descend host root names)) = true ->
   exists first rest, names = first :: rest /\ startsWith ".." first = true).
Proof.
  intros host T F N.
  pose proof (safeRelativePath_descend cwd app table excluded gitignore enc chokidar
                root names T F N) as E.
  fold host in E. rewrite E. split; [reflexivity|].
  destruct names as [|first rest]; [congruence|].
  inversion F as [|x l R1 F1]; subst.
  assert (first <> "") as Nf by (intros ->; discriminate R1).
  split.
  - destruct rest as [|second rest]; cbn [String.concat]; [exact Nf|].
    destruct first; [congruence | discriminate].
  - intros D. exists first, rest. split; [reflexivity|].
    apply startsWith_dotdot_iff in D. destruct D as [tail D].
    apply startsWith_dotdot_iff.
    destruct rest as [|second rest]; cbn [String.concat] in D; [eexists; exact D|].
    destruct first as [|a [|b first]]; [congruence | |].
    + cbn in D. discriminate D.
    + cbn in D. injection D as -> -> _. eexists. reflexivity.
Qed.

(** Two levels below a root written with a detour. *)
Lemma relative_path_of_descendant_witness :
  descend (demoHost [] None) "/r/x/.." ["src"; "a.js"] = "/r/src/a.js" /\
  safeRelativePath (demoHost [] None) "/r/x/.." (descend (demoHost [] None) "/r/x/.."
                                                   ["src"; "a.js"]) = "src/a.js".
Proof.
  split; [reflexivity|].
  refine (proj1 (relative_path_of_descendant "/home/u" "/opt/pastemax" [] (fun _ => false)
           (fun _ rel => String.eqb rel "b.txt") None true "/r/x/.." ["src"; "a.js"] _ _ _)).
  - reflexivity.
  - repeat constructor.
  - discriminate.
Defined.

(** X5. An entry of the root whose name begins with two dots (a legal
    name such as [..env]) has a relative path that begins with [..], and
    is taken for a path outside the root: the scanner task returns
    [null] for it without touching the disk, the directory loop passes
    over a directory of that name, the watcher pipeline returns [null],
    and the [ignored] option of the watcher answers true. *)
Theorem dotdot_name_is_dropped
    (cwd app : string) (table : list string) (excluded : string -> bool)
    (gitignore : string -> string -> bool) (enc : option Encoder) (chokidar : bool)
    (root n : string) (ignoreFilter : string -> bool) :
  let host := posixHost cwd app table excluded gitignore enc chokidar in
  tidyPath root = true -> regularName n = true -> startsWith ".." n = true ->
  (forall io s, chunkTask host root root ignoreFilter (n, io) s = (None, s)) /\
  (forall recurse child rest results s,
     flowResults (dirLoop host recurse root root ignoreFilter ((n, child) :: rest) results s)
     = flowResults (dirLoop host recurse root root ignoreFilter rest results s) /\
     flowState (dirLoop host recurse root root ignoreFilter ((n, child) :: rest) results s)
     = flowState (dirLoop host recurse root root ignoreFilter rest results s)) /\
  (forall io, processSingleFile host (safePathJoin host root n) root ignoreFilter io = None) /\
  watcherIgnored host (mkWatcher root ignoreFilter) (safePathJoin host root n) = true.
Proof.
  intros host; subst host; intros T R D.
  set (host := posixHost cwd app table excluded gitignore enc chokidar).
  assert (safeRelativePath host root (safePathJoin host root n) = n) as Rel.
  { apply (safeRelativePath_descend cwd app table excluded gitignore enc chokidar
             root [n] T); [repeat constructor; exact R | discriminate]. }
  destruct (PathFacts.safePathJoin_tidy cwd app table excluded gitignore enc chokidar
              root n T R) as [T' _].
  pose proof (PathFacts.tidyPath_fixed cwd app table excluded gitignore enc chokidar
                _ T') as Fix.
  pose proof (PathFacts.tidyPath_fixed cwd app table excluded gitignore enc chokidar
                _ T) as FixR.
  fold host in T', Fix, FixR.
  split; [|split; [|split]].
  - intros io s. unfold chunkTask. cbn [fst snd]. rewrite Rel, D.
    destruct (isLoadingDirectory s); cbn [negb]; [|reflexivity].
    rewrite !orb_true_r. reflexivity.
  - intros recurse child rest results s. cbn [dirLoop].
    destruct (isLoadingDirectory s) eqn:L; cbn [negb].
    + rewrite Rel, D, !orb_true_r. auto.
    + destruct (dirLoop_stopped host recurse root root ignoreFilter rest results s L)
        as [-> ->]. auto.
  - intros io. unfold processSingleFile. rewrite Fix, FixR, Rel, D.
    rewrite orb_true_r. reflexivity.
  - unfold watcherIgnored. cbn [watch_root watch_filter]. rewrite Fix, Rel, D.
    destruct (PosixFacts.regularName_spec n R) as [-> _]. rewrite orb_true_r. reflexivity.
Qed.

(** A file below a root-level entry with two leading dots. *)
Lemma dotdot_name_is_dropped_witness :
  regularName "..env" = true /\
  chunkTask (demoHost [] None) "/r" "/r" (fun _ => false) ("..env", readable 3 "K=1")
    (scanning None) = (None, scanning None) /\
  processSingleFile (demoHost [] None) "/r/..env" "/r" (fun _ => false)
    (readable 3 "K=1") = None.
Proof.
  destruct (dotdot_name_is_dropped "/home/u" "/opt/pastemax" [] (fun _ => false)
              (fun _ rel => String.eqb rel "b.txt") None true "/r" "..env"
              (fun _ => false) eq_refl eq_refl eq_refl) as (Task & _ & Single & _).
  split; [reflexivity|]. split; [apply Task | apply (Single (readable 3 "K=1"))].
Defined.

(* ------------------------------------------------------------------ *)
(** ** The undisturbed scan *)















(* ------------------------------------------------------------------ *)
(** ** What the scanner leaves alone *)

Lemma awaitIO_trace (op : Effect) (s : Main) :
  exists ext,
    trace (awaitIO op s) = (ext ++ op :: trace s)%list /\
    (ext = [] \/ ext = [cancelNotice]).
Proof.
  unfold awaitIO. cbn [pendingCancel emit].
  destruct (pendingCancel s) as [[|k]|].
  - unfold cancelDirectoryLoading. cbn.
    destruct (isLoadingDirectory s); cbn; [|exists []; auto].
    destruct (windowOk s); cbn; [exists [cancelNotice] | exists []]; auto.
  - exists []. auto.
  - exists []. auto.
Qed.

(** X8. A file task goes to the disk only as far as it must. For an
    entry that is not taken up (ignored, outside the root, inside an
    application bundle) it returns [null] and does nothing at all, not
    even a stat. For a file that the stat shows oversized, or whose
    extension the scanner finds in the binary table, it never reads the
    content: whatever the schedule, the task adds no read to the
    trace. *)
Theorem file_task_reads_only_what_it_must (H : Host) (dir rootDir : string)
    (ignoreFilter : string -> bool) (direntName : string) (io : FileIO) (s : Main) :
  (admitsEntry H dir rootDir ignoreFilter direntName = false ->
   chunkTask H dir rootDir ignoreFilter (direntName, io) s = (None, s)) /\
  (forall stats_size,
     io_stat io = Normal stats_size ->
     (stats_size > MAX_FILE_SIZE)%Z \/
     isBinaryFile H (safePathJoin H dir direntName) = true ->
     exists ext,
       trace (snd (chunkTask H dir rootDir ignoreFilter (direntName, io) s))
       = (ext ++ trace s)%list /\
       Forall (fun e => isRead e = false) ext).
Proof.
  split.
  - intros A. unfold admitsEntry in A. unfold chunkTask. cbn [fst snd].
    destruct (isLoadingDirectory s); cbn [negb]; [|reflexivity].
    destruct (_ || _ || _ || _); cbn [negb andb] in *; [reflexivity|].
    apply negb_false_iff in A. rewrite A. reflexivity.
  - intros stats_size Hstat Hcase. unfold chunkTask. cbn [fst snd].
    destruct (isLoadingDirectory s); cbn [negb];
      [|exists []; split; [reflexivity | constructor]].
    destruct (_ || _ || _ || _); [exists []; split; [reflexivity | constructor]|].
    destruct (ignoreFilter _); [exists []; split; [reflexivity | constructor]|].
    rewrite Hstat.
    destruct (awaitIO_trace (Stat (safePathJoin H dir direntName)) s) as (ext & T & Hext).
    assert (exists ext0,
              trace (awaitIO (Stat (safePathJoin H dir direntName)) s)
              = (ext0 ++ trace s)%list /\
              Forall (fun e => isRead e = false) ext0) as Done.
    { exists (ext ++ [Stat (safePathJoin H dir direntName)])%list.
      rewrite T, <- app_assoc. split; [reflexivity|].
      destruct Hext as [-> | ->]; repeat constructor. }
    destruct (isLoadingDirectory (awaitIO _ s)); cbn [negb snd]; [|exact Done].
    destruct Hcase as [Big | Bin].
    + apply Z.gt_lt, Z.gtb_lt in Big. rewrite Big. exact Done.
    + destruct (_ >? _)%Z; [exact Done|]. rewrite Bin. exact Done.
Qed.

(** An ignored file is not even stat'ed; a 6 MiB file is stat'ed and
    not read. *)
Lemma file_task_reads_only_what_it_must_witness :
  chunkTask (demoHost [".png"] None) "/r" "/r" (fun rel => String.eqb rel "b.txt")
    ("b.txt", readable 1 "x") (scanning None) = (None, scanning None) /\
  trace (snd (chunkTask (demoHost [".png"] None) "/r" "/r" (fun _ => false)
                ("big.txt", readable 6291456 "") (scanning None)))
  = [Stat "/r/big.txt"].
Proof.
  destruct (file_task_reads_only_what_it_must (demoHost [".png"] None) "/r" "/r"
              (fun rel => String.eqb rel "b.txt") "b.txt" (readable 1 "x")
              (scanning None)) as [Skip _].
  split; [apply Skip; reflexivity | reflexivity].
Defined.

(** Replacing what is below one entry of a directory listing, when
    the loop treats the two alike at that entry. *)
Lemma dirLoop_replace (H : Host)
    (recurse : DirNode -> string -> Main -> list FileRecord * Main)
    (dir rootDir : string) (ignoreFilter : string -> bool)
    (n : string) (child child' : DirNode) (after : list (string * DirNode)) :
  (forall results s,
     dirLoop H recurse dir rootDir ignoreFilter ((n, child) :: after) results s
     = dirLoop H recurse dir rootDir ignoreFilter ((n, child') :: after) results s) ->
  forall before results s,
    dirLoop H recurse dir rootDir ignoreFilter (before ++ (n, child) :: after) results s
    = dirLoop H recurse dir rootDir ignoreFilter (before ++ (n, child') :: after) results s.
Proof.
  intros Step. induction before as [|[m c] before IH]; intros results s; [apply Step|].
  cbn [List.app dirLoop].
  destruct (negb (isLoadingDirectory s)); [reflexivity|].
  destruct (_ || _ || _ || _); [apply IH|].
  destruct (negb (ignoreFilter _)); [|apply IH].
  destruct (recurse c _ s) as [subResults s1].
  destruct (negb (isLoadingDirectory s1)); [reflexivity | apply IH].
Qed.

(** X9. What lies below a sub-directory that the walk does not take
    up (ignored, inside an application bundle, outside the root) has no
    influence on the scan: the records and the whole state left,
    effects included, are the same whatever that sub-directory holds.
    It is never listed. *)
Theorem skipped_directory_is_never_entered (H : Host) (ignoreFilter : string -> bool)
    (before after : list (string * DirNode)) (files : list (string * FileIO))
    (n : string) (child child' : DirNode) (dir rootDir : string) (s : Main) :
  admitsEntry H (ensureAbsolutePath H dir)
    (ensureAbsolutePath H (if String.eqb rootDir "" then ensureAbsolutePath H dir
                           else rootDir))
    ignoreFilter n = false ->
  readFilesRecursively H (Listing (before ++ (n, child) :: after) files) dir rootDir
    (Some ignoreFilter) s
  = readFilesRecursively H (Listing (before ++ (n, child') :: after) files) dir rootDir
      (Some ignoreFilter) s.
Proof.
  intros A. cbn [readFilesRecursively].
  destruct (negb (isLoadingDirectory s)); [reflexivity|].
  destruct (negb (isLoadingDirectory (awaitIO _ s))); [reflexivity|].
  rewrite (dirLoop_replace H _ _ _ ignoreFilter n child child' after); [reflexivity|].
  intros results s0. cbn [dirLoop]. unfold admitsEntry in A.
  destruct (negb (isLoadingDirectory s0)); [reflexivity|].
  destruct (_ || _ || _ || _); cbn [negb andb] in A; [reflexivity|].
  rewrite A. reflexivity.
Qed.

(** The ignored [node_modules] of a scan: full or unreadable, the same
    scan. *)
Lemma skipped_directory_is_never_entered_witness :
  readFilesRecursively (demoHost [] None)
    (Listing [("node_modules", Listing [] [("x.js", readable 1 "x")])]
             [("a.txt", readable 2 "hi")])
    "/r" "/r" (Some (fun rel => String.eqb rel "node_modules")) (scanning (Some 1%nat))
  = readFilesRecursively (demoHost [] None)
      (Listing [("node_modules", Unreadable (mkError "EACCES" "denied"))]
               [("a.txt", readable 2 "hi")])
      "/r" "/r" (Some (fun rel => String.eqb rel "node_modules")) (scanning (Some 1%nat)).
Proof.
  apply (skipped_directory_is_never_entered (demoHost [] None)
           (fun rel => String.eqb rel "node_modules") [] []).
  reflexivity.
Defined.

Lemma unreadable_like_empty (H : Host) (err : Error) (dir rootDir : string)
    (ignoreFilter : option (string -> bool)) (s : Main) :
  readFilesRecursively H (Unreadable err) dir rootDir ignoreFilter s
  = readFilesRecursively H (Listing [] []) dir rootDir ignoreFilter s.
Proof.
  cbn [readFilesRecursively dirLoop chunkLoop List.length].
  destruct (negb (isLoadingDirectory s)); [reflexivity|].
  destruct (negb (isLoadingDirectory (awaitIO _ s))); reflexivity.
Qed.

(** X10. A directory that cannot be listed (permission denied, or any
    other error of [readdir]) counts as an empty one: the walk of its
    parent goes on with the entries that follow, and yields the same
    records and the same state as if the directory were empty. The
    error is never reported. *)
Theorem unreadable_directory_counts_as_empty (H : Host) (ignoreFilter : string -> bool)
    (before after : list (string * DirNode)) (files : list (string * FileIO))
    (n : string) (err : Error) (dir rootDir : string) (s : Main) :
  readFilesRecursively H (Unreadable err) dir rootDir (Some ignoreFilter) s
  = readFilesRecursively H (Listing [] []) dir rootDir (Some ignoreFilter) s /\
  readFilesRecursively H (Listing (before ++ (n, Unreadable err) :: after) files)
    dir rootDir (Some ignoreFilter) s
  = readFilesRecursively H (Listing (before ++ (n, Listing [] []) :: after) files)
      dir rootDir (Some ignoreFilter) s.
Proof.
  split; [apply unreadable_like_empty|].
  cbn [readFilesRecursively].
  destruct (negb (isLoadingDirectory s)); [reflexivity|].
  destruct (negb (isLoadingDirectory (awaitIO _ s))); [reflexivity|].
  rewrite (dirLoop_replace H _ _ _ ignoreFilter n (Unreadable err) (Listing [] []) after);
    [reflexivity|].
  intros results s0. cbn [dirLoop].
  rewrite unreadable_like_empty. reflexivity.
Qed.

(* ------------------------------------------------------------------ *)
(** ** Handlers *)

Lemma closeWatcher_trace (s : Main) (w0 : Watcher) :
  currentWatcher s = Some w0 ->
  exists ext, trace (closeWatcher s) = (ext ++ WatcherClose :: trace s)%list.
Proof.
  intros C. unfold closeWatcher. rewrite C. cbn [trace set_watcher].
  destruct (awaitIO_trace WatcherClose s) as (ext & T & _). exists ext. exact T.
Qed.

(** X11. Whatever happens during a request (cancel, unreadable
    directories, failing files), a request that was accepted leaves the
    process idle with its timer cleared; and when a watcher existed,
    closing it is the first thing a request does, accepted or not. *)
Theorem request_ends_idle_and_closes_first (H : Host) (folderPath : string)
    (node : DirNode) (s : Main) :
  let s' := requestFileList H folderPath node s in
  (isLoadingDirectory s = false ->
   isLoadingDirectory s' = false /\ loadingTimeoutId s' = None) /\
  (forall w0, currentWatcher s = Some w0 ->
              exists ext, trace s' = (ext ++ WatcherClose :: trace s)%list).
Proof.
  cbv zeta. destruct (isLoadingDirectory s) eqn:L.
  - split; [discriminate|]. unfold requestFileList. rewrite L.
    intros w0 C. destruct (closeWatcher_trace s w0 C) as (ext & T).
    destruct (windowOk (closeWatcher s)); cbn [trace send emit].
    + exists (busyNotice :: ext). rewrite T. reflexivity.
    + exists ext. exact T.
  - destruct (requestFileList_final_state H folderPath node s L) as (F1 & F2 & _ & _).
    split; [auto|].
    intros w0 C. destruct (closeWatcher_trace s w0 C) as (ext0 & T0).
    rewrite (requestFileList_idle H folderPath node s L). cbv zeta.
    pose proof (readFilesRecursively_invariant H (fun _ => True)
                  (loadGitignore H (ensureAbsolutePath H folderPath))
                  (fun _ _ _ _ _ _ _ => I) node
                  (ensureAbsolutePath H folderPath) (ensureAbsolutePath H folderPath)
                  (scanPrelude s)) as [_ (_ & _ & _ & On)].
    change (readFilesRecursively H node (ensureAbsolutePath H folderPath)
              (ensureAbsolutePath H folderPath)
              (Some (loadGitignore H (ensureAbsolutePath H folderPath))) (scanPrelude s))
      with (walkOfRequest H folderPath node s) in On.
    assert (exists ext1, trace (snd (walkOfRequest H folderPath node s))
                         = (ext1 ++ WatcherClose :: trace s)%list) as (ext1 & T1).
    { destruct (On eq_refl) as (pre & _ & [(_ & _ & E) | (_ & _ & E)]);
        rewrite E; cbn [scanPrelude trace send emit setupDirectoryLoadingTimeout
                          set_timeout set_loading]; rewrite T0.
      - eexists. rewrite app_comm_cons, app_assoc. reflexivity.
      - eexists. rewrite app_comm_cons, !app_assoc. reflexivity. }
    destruct (negb (isLoadingDirectory (snd (walkOfRequest H folderPath node s)))).
    + exists ext1. exact T1.
    + destruct (chokidarLoaded H); cbn; rewrite T1; eexists;
        rewrite !app_comm_cons; reflexivity.
Qed.

(** A second scan after a first one: the watcher of the first is closed
    before anything else, and the second scan ends idle. *)
Lemma request_ends_idle_and_closes_first_witness :
  (exists ext,
     trace (requestFileList (demoHost [] None) "/other" smallTree
              (requestFileList (demoHost [] None) "/r" smallTree (idle None)))
     = (ext ++ WatcherClose
            :: trace (requestFileList (demoHost [] None) "/r" smallTree (idle None)))%list) /\
  isLoadingDirectory
    (requestFileList (demoHost [] None) "/other" smallTree
       (requestFileList (demoHost [] None) "/r" smallTree (idle None))) = false.
Proof.
  destruct (request_ends_idle_and_closes_first (demoHost [] None) "/other" smallTree
              (requestFileList (demoHost [] None) "/r" smallTree (idle None)))
    as (Idle & Closed).
  assert (exists w0,
            currentWatcher (requestFileList (demoHost [] None) "/r" smallTree (idle None))
            = Some w0) as (w0 & C0) by (eexists; vm_compute; reflexivity).
  assert (isLoadingDirectory
            (requestFileList (demoHost [] None) "/r" smallTree (idle None)) = false) as L0
    by (vm_compute; reflexivity).
  split; [exact (Closed w0 C0) | exact (proj1 (Idle L0))].
Defined.

(** X12. A cancel request outside a scan changes nothing and sends
    nothing; so a second cancel after a first has no effect, and one
    scan gets at most one [cancelled] status. *)
Theorem cancel_outside_a_scan_is_a_no_op (s : Main) :
  (isLoadingDirectory s = false -> cancelDirectoryLoading s = s) /\
  isLoadingDirectory (cancelDirectoryLoading s) = false /\
  cancelDirectoryLoading (cancelDirectoryLoading s) = cancelDirectoryLoading s.
Proof.
  assert (isLoadingDirectory (cancelDirectoryLoading s) = false) as Off.
  { unfold cancelDirectoryLoading. destruct (isLoadingDirectory s) eqn:L; cbn; [|exact L].
    destruct (windowOk s); reflexivity. }
  split; [|split; [exact Off|]].
  - intros L. unfold cancelDirectoryLoading. rewrite L. reflexivity.
  - unfold cancelDirectoryLoading at 1. rewrite Off. reflexivity.
Qed.

Lemma cancel_outside_a_scan_is_a_no_op_witness :
  cancelDirectoryLoading (idle None) = idle None /\
  trace (cancelDirectoryLoading (cancelDirectoryLoading (scanning None))) = [cancelNotice].
Proof.
  destruct (cancel_outside_a_scan_is_a_no_op (idle None)) as (Idle & _).
  destruct (cancel_outside_a_scan_is_a_no_op (scanning None)) as (_ & _ & Twice).
  split; [apply Idle; reflexivity | rewrite Twice; reflexivity].
Defined.

(* ------------------------------------------------------------------ *)
(** ** The watcher *)

(** X13. For a path below the root (its relative path is not empty
    and does not begin with [..]) that the ruleset does not match, the
    watcher pipeline returns a record, whatever the disk does: the
    record carries the relative path that was tested, and it is a
    skipped record with an error as soon as the stat or the read fails.
    So the add listener sends exactly one [file-added] message for such
    a path, and the change listener one [file-updated]. *)
Theorem admitted_path_always_yields_a_record (H : Host) (fullPath rootDir : string)
    (ignoreFilter : string -> bool) (io : FileIO) :
  let relative := safeRelativePath H (ensureAbsolutePath H rootDir)
                    (ensureAbsolutePath H fullPath) in
  relative <> "" ->
  startsWith ".." relative = false ->
  ignoreFilter relative = false ->
  exists r,
    processSingleFile H fullPath rootDir ignoreFilter io = Some r /\
    relativePath r = relative /\
    (error r = None \/ isSkipped r = true) /\
    (forall filePath s,
       normalizePath H filePath = fullPath ->
       onAdd H (mkWatcher rootDir ignoreFilter) filePath io s = send (FileAdded r) s /\
       onChange H (mkWatcher rootDir ignoreFilter) filePath io s
       = send (FileUpdated r) s).
Proof.
  cbv zeta. intros Below Inside Allowed.
  assert (exists r,
            processSingleFile H fullPath rootDir ignoreFilter io = Some r /\
            relativePath r
            = safeRelativePath H (ensureAbsolutePath H rootDir)
                (ensureAbsolutePath H fullPath) /\
            (error r = None \/ isSkipped r = true)) as (r & E & Rel & Err).
  { unfold processSingleFile, tryCatch, cbind. rewrite Inside, Allowed.
    cbn [isValidPath negb orb].
    destruct (io_stat io) as [stats_size|e];
      [|eexists; split; [reflexivity | split; [reflexivity | right; reflexivity]]].
    destruct (stats_size >? MAX_FILE_SIZE)%Z;
      [eexists; split; [reflexivity | split; [reflexivity | right; reflexivity]]|].
    destruct (arrayIncludes _ _);
      [eexists; split; [reflexivity | split; [reflexivity | left; reflexivity]]|].
    destruct (io_read io) as [text|e];
      [|eexists; split; [reflexivity | split; [reflexivity | right; reflexivity]]].
    destruct (countTokens_normal H text) as (tokens & -> & _).
    eexists; split; [reflexivity | split; [reflexivity | left; reflexivity]]. }
  exists r. split; [exact E|]. split; [exact Rel|]. split; [exact Err|].
  intros filePath s <-. unfold onAdd, onChange. cbn [watch_root watch_filter].
  rewrite E. auto.
Qed.

(** A file that vanished right after chokidar reported it. *)
Lemma admitted_path_always_yields_a_record_witness :
  exists r,
    onAdd (demoHost [] None) (mkWatcher "/r" (fun _ => false)) "/r/gone.txt" vanished
      (idle None) = send (FileAdded r) (idle None) /\
    relativePath r = "gone.txt" /\ isSkipped r = true.
Proof.
  assert (safeRelativePath (demoHost [] None) (ensureAbsolutePath (demoHost [] None) "/r")
            (ensureAbsolutePath (demoHost [] None) "/r/gone.txt") <> "") as Below
    by (vm_compute; discriminate).
  destruct (admitted_path_always_yields_a_record (demoHost [] None) "/r/gone.txt" "/r"
              (fun _ => false) vanished Below eq_refl eq_refl) as (r & E & Rel & _ & Sends).
  exists r. destruct (Sends "/r/gone.txt" (idle None) eq_refl) as [A _].
  split; [exact A|]. split; [exact Rel|].
  assert (processSingleFile (demoHost [] None) "/r/gone.txt" "/r" (fun _ => false) vanished
          = Some (singleFileError (demoHost [] None) "/r/gone.txt" "/r"
                    (mkError "ENOENT" "ENOENT: no such file or directory"))) as E'
    by reflexivity.
  rewrite E in E'. injection E' as ->. reflexivity.
Defined.

Lemma dropCommon_outside (a b : list string) :
  listPrefix a b = false -> fst (Posix.dropCommon a b) <> [].
Proof.
  revert b. induction a as [|x a IH]; intros b N; [discriminate N|].
  destruct b as [|y b]; [discriminate|]. simpl in *.
  destruct (x =? y); [apply IH, N | discriminate].
Qed.

Lemma listPrefix_refl (a : list string) : listPrefix a a = true.
Proof. induction a as [|x a IH]; simpl; [reflexivity|]. rewrite String.eqb_refl. exact IH. Qed.

(** X14. On a POSIX host, whatever the ruleset: the watcher never
    ignores its own root, even under a ruleset that matches every path;
    and a path that does not lie below the root is always ignored by
    the [ignored] option, and the watcher pipeline returns [null] for
    it, so no event outside the root is ever reported. *)
Theorem watcher_scope_is_the_root
    (cwd app : string) (table : list string) (excluded : string -> bool)
    (gitignore : string -> string -> bool) (enc : option Encoder) (chokidar : bool)
    (root : string) (ignoreFilter : string -> bool) :
  let host := posixHost cwd app table excluded gitignore enc chokidar in
  tidyPath root = true ->
  watcherIgnored host (mkWatcher root ignoreFilter) root = false /\
  (forall p io,
     tidyPath p = true -> insideRoot root p = false ->
     watcherIgnored host (mkWatcher root ignoreFilter) p = true /\
     processSingleFile host p root ignoreFilter io = None).
Proof.
  intros host; subst host; intros T.
  set (host := posixHost cwd app table excluded gitignore enc chokidar).
  pose proof (PathFacts.tidyPath_fixed cwd app table excluded gitignore enc chokidar
                root T) as FixR. fold host in FixR.
  pose proof T as T0. apply PathFacts.tidyPath_spec in T0. destruct T0 as [Ar Nr].
  assert (forall x, normalizePath host x = replaceBackslashes x) as NP
    by apply PosixFacts.normalizePath_posix.
  split.
  - unfold watcherIgnored. cbn [watch_root watch_filter]. rewrite FixR.
    unfold safeRelativePath. rewrite !NP, (PosixFacts.replaceBackslashes_without root Nr).
    cbn [platform host posixHost].
    change (path_relative host root root) with (Posix.relative cwd root root).
    unfold Posix.relative. rewrite String.eqb_refl. reflexivity.
  - intros p io Tp Out.
    pose proof (PathFacts.tidyPath_fixed cwd app table excluded gitignore enc chokidar
                  p Tp) as FixP. fold host in FixP.
    pose proof Tp as T1. apply PathFacts.tidyPath_spec in T1. destruct T1 as [Ap Np].
    assert (startsWith ".." (safeRelativePath host root p) = true) as Up.
    { unfold safeRelativePath. rewrite !NP.
      rewrite (PosixFacts.replaceBackslashes_without root Nr),
              (PosixFacts.replaceBackslashes_without p Np).
      cbn [platform host posixHost].
      change (path_relative host root p) with (Posix.relative cwd root p).
      unfold Posix.relative.
      assert ((root =? p) = false) as ->.
      { apply String.eqb_neq. intros ->. unfold insideRoot in Out.
        rewrite listPrefix_refl in Out. discriminate Out. }
      rewrite (PathFacts.resolve_tidy cwd root Ar), (PathFacts.resolve_tidy cwd p Ap).
      fold (segmentsOf ("/" ++ Posix.unsplit (segmentsOf root))).
      fold (segmentsOf ("/" ++ Posix.unsplit (segmentsOf p))).
      pose proof (PathFacts.segmentsOf_written (segmentsOf root) false
                    (PathFacts.segmentsOf_clean root)) as W1.
      pose proof (PathFacts.segmentsOf_written (segmentsOf p) false
                    (PathFacts.segmentsOf_clean p)) as W2.
      cbv iota in W1, W2. rewrite PosixFacts.append_empty_r in W1, W2. rewrite W1, W2.
      pose proof (dropCommon_outside _ _ Out) as Rest.
      destruct (Posix.dropCommon (segmentsOf root) (segmentsOf p)) as [restFrom restTo].
      cbn [fst] in Rest. destruct restFrom as [|x restFrom]; [congruence|].
      cbn [map List.app]. apply startsWith_dotdot_iff.
      destruct (map (fun _ : string => "..") restFrom ++ restTo)%list as [|y l];
        [exists ""; reflexivity|].
      eexists. change (Posix.unsplit (".." :: y :: l))
        with (".." ++ "/" ++ Posix.unsplit (y :: l)). reflexivity. }
    split.
    + unfold watcherIgnored. cbn [watch_root watch_filter]. rewrite FixP, Up.
      apply startsWith_dotdot_iff in Up. destruct Up as [rest ->].
      cbn [String.eqb]. rewrite orb_true_r. reflexivity.
    + unfold processSingleFile. rewrite FixP, FixR, Up, orb_true_r. reflexivity.
Qed.

(** A root under a ruleset that matches everything, and a sibling of
    the root. *)
Lemma watcher_scope_is_the_root_witness :
  watcherIgnored (demoHost [] None) (mkWatcher "/r" (fun _ => true)) "/r" = false /\
  watcherIgnored (demoHost [] None) (mkWatcher "/r" (fun _ => false)) "/rx/a.txt" = true.
Proof.
  destruct (watcher_scope_is_the_root "/home/u" "/opt/pastemax" [] (fun _ => false)
              (fun _ rel => String.eqb rel "b.txt") None true "/r" (fun _ => true)
              eq_refl) as [Root _].
  destruct (watcher_scope_is_the_root "/home/u" "/opt/pastemax" [] (fun _ => false)
              (fun _ rel => String.eqb rel "b.txt") None true "/r" (fun _ => false)
              eq_refl) as [_ Out].
  split; [exact Root|].
  apply (Out "/rx/a.txt" (readable 1 "x")); reflexivity.
Defined.

(* ------------------------------------------------------------------ *)
(** ** The file list *)

Lemma chunkTask_well_formed (H : Host) (ignoreFilter : string -> bool)
    (dir rootDir : string) (dirent : string * FileIO) (s : Main)
    (r : FileRecord) (s' : Main) (folderPath : string) :
  chunkTask H dir rootDir ignoreFilter dirent s = (Some r, s') ->
  wellFormedEntry (serialize H folderPath r).
Proof.
  intros E. unfold chunkTask in E. simpl in E. split_tests;
    unfold wellFormedEntry; simpl;
    match goal with
    | G : (_ || startsWith ".." _) = false |- _ =>
      apply orb_false_elim in G; destruct G as [_ G]
    end;
    try match goal with
    | T : countTokens H ?t = Normal ?z |- _ =>
      let n := fresh "n" in let Hn := fresh "Hn" in let Pos := fresh "Pos" in
      destruct (countTokens_normal H t) as (n & Hn & Pos);
      rewrite Hn in T; injection T as <-
    end;
    repeat split; try discriminate; try assumption; try reflexivity; try lia.
Qed.

(** X15. Every entry of every file list a request sends is well
    formed, whatever the tree, the failures and the schedule: its
    relative path does not leave the root, it is not both binary and
    skipped, its token count is not negative and is 0 when it is binary
    or skipped, a skipped entry names its error, and an entry that is
    neither carries its content and no error. *)
Theorem file_list_entries_are_well_formed (H : Host) (folderPath : string)
    (node : DirNode) (s : Main) (ext : list Effect) (files : list SerializedFile)
    (f : SerializedFile) :
  trace (requestFileList H folderPath node s) = (ext ++ trace s)%list ->
  In (Sent (FileListData files)) ext ->
  In f files ->
  wellFormedEntry f.
Proof.
  intros T Hin Hf.
  destruct (requestFileList_outcome H folderPath node s) as (ext0 & T0 & O).
  rewrite T in T0. apply app_inv_tail in T0. subst ext0.
  assert (forall pre, Forall (fun e => isPreparation e = true) pre ->
                      ~ In (Sent (FileListData files)) pre) as Quiet.
  { intros pre Fpre A. rewrite Forall_forall in Fpre.
    specialize (Fpre _ A). discriminate Fpre. }
  destruct O as [L E | pre L L2 Fpre E | pre L L2 Fpre E]; subst ext.
  - exfalso. destruct (windowOk s), (currentWatcher s), (pendingCancel s) as [[|k]|];
      simpl in Hin; repeat (destruct Hin as [Hin | Hin]; [discriminate Hin|]);
      exact Hin.
  - exfalso. destruct (windowOk s); simpl in Hin.
    + destruct Hin as [A | A]; [discriminate A | exact (Quiet _ Fpre A)].
    + exact (Quiet _ Fpre Hin).
  - destruct Hin as [A | [A | A]]; [|discriminate A | exfalso; exact (Quiet _ Fpre A)].
    injection A as <-. apply in_map_iff in Hf. destruct Hf as (r & <- & Hr).
    pose proof (readFilesRecursively_invariant H
                  (fun r => wellFormedEntry (serialize H folderPath r))
                  (loadGitignore H (ensureAbsolutePath H folderPath))
                  (fun dir rootDir dirent s0 r0 s1 E0 =>
                     chunkTask_well_formed H _ dir rootDir dirent s0 r0 s1 folderPath E0)
                  node (ensureAbsolutePath H folderPath) (ensureAbsolutePath H folderPath)
                  (scanPrelude s)) as [FP _].
    fold (walkOfRequest H folderPath node s) in FP.
    rewrite Forall_forall in FP. exact (FP r Hr).
Qed.

(** The list of a scan with a vanished file and a binary one. *)
Lemma file_list_entries_are_well_formed_witness :
  exists f1 f2 pre,
    trace (requestFileList (demoHost [".png"] None) "/r"
             (Listing [] [("gone.txt", vanished); ("c.png", readable 10 "PNG bytes.")])
             (idle None))
    = Sent (FileListData [f1; f2]) :: pre /\
    ser_isSkipped f1 = true /\ ser_isBinary f2 = true /\
    wellFormedEntry f1 /\ wellFormedEntry f2.
Proof.
  assert (exists f1 f2 pre,
            trace (requestFileList (demoHost [".png"] None) "/r"
                     (Listing [] [("gone.txt", vanished);
                                  ("c.png", readable 10 "PNG bytes.")])
                     (idle None))
            = Sent (FileListData [f1; f2]) :: pre /\
            ser_isSkipped f1 = true /\ ser_isBinary f2 = true)
    as (f1 & f2 & pre & T & S1 & B2)
    by (do 3 eexists; split; [vm_compute; reflexivity | split; reflexivity]).
  exists f1, f2, pre. split; [exact T|]. split; [exact S1|]. split; [exact B2|].
  assert (trace (requestFileList (demoHost [".png"] None) "/r"
                   (Listing [] [("gone.txt", vanished);
                                ("c.png", readable 10 "PNG bytes.")])
                   (idle None))
          = ((Sent (FileListData [f1; f2]) :: pre) ++ trace (idle None))%list) as T'
    by (rewrite T; symmetry; apply app_nil_r).
  split.
  - exact (file_list_entries_are_well_formed _ _ _ _ _ [f1; f2] f1 T'
             (or_introl eq_refl) (or_introl eq_refl)).
  - exact (file_list_entries_are_well_formed _ _ _ _ _ [f1; f2] f2 T'
             (or_introl eq_refl) (or_intror (or_introl eq_refl))).
Defined.

(* ------------------------------------------------------------------ *)
(** ** The order of the formatted files *)

Lemma insertBy_perm {A} (cmp : A -> A -> Z) (x : A) (l : list A) :
  Permutation (Format.insertBy cmp x l) (x :: l).
Proof.
  induction l as [|y l IH]; simpl; [apply Permutation_refl|].
  destruct (cmp x y <=? 0)%Z; [apply Permutation_refl|].
  eapply perm_trans; [apply perm_skip, IH | apply perm_swap].
Qed.

Lemma sortBy_perm {A} (cmp : A -> A -> Z) (l : list A) :
  Permutation (Format.sortBy cmp l) l.
Proof.
  induction l as [|x l IH]; simpl; [constructor|].
  eapply perm_trans; [apply insertBy_perm | apply perm_skip, IH].
Qed.

Lemma insertBy_Forall {A} (P : A -> Prop) (cmp : A -> A -> Z) (x : A) (l : list A) :
  P x -> Forall P l -> Forall P (Format.insertBy cmp x l).
Proof.
  intros Px Pl. eapply Permutation_Forall.
  - apply Permutation_sym, insertBy_perm.
  - constructor; assumption.
Qed.

Section SortedBy.

Context {A : Type}.
Variable cmp : A -> A -> Z.

Let R (a b : A) : Prop := (cmp a b <= 0)%Z.

Hypothesis total : forall a b, R a b \/ R b a.
Hypothesis trans : forall a b c, R a b -> R b c -> R a c.

Lemma insertBy_sorted (x : A) (l : list A) :
  StronglySorted R l -> StronglySorted R (Format.insertBy cmp x l).
Proof.
  induction l as [|y l IH]; intros S; simpl.
  - constructor; constructor.
  - inversion S as [|y0 l0 Sl Fy]; subst.
    destruct (cmp x y <=? 0)%Z eqn:C.
    + apply Z.leb_le in C. constructor; [exact S|].
      constructor; [exact C|].
      eapply Forall_impl; [|exact Fy]. intros b Rb. exact (trans _ _ _ C Rb).
    + apply Z.leb_gt in C. constructor; [apply IH, Sl|].
      apply insertBy_Forall; [|exact Fy].
      destruct (total x y) as [T | T]; [unfold R in T; lia | exact T].
Qed.

Lemma sortBy_sorted (l : list A) : StronglySorted R (Format.sortBy cmp l).
Proof.
  induction l as [|x l IH]; simpl; [constructor|]. apply insertBy_sorted, IH.
Qed.

End SortedBy.

Lemma sortBy_in_order {A} (cmp : A -> A -> Z) (l : list A) :
  StronglySorted (fun a b => (cmp a b <= 0)%Z) l -> Format.sortBy cmp l = l.
Proof.
  induction l as [|x l IH]; intros S; simpl; [reflexivity|].
  inversion S as [|x0 l0 Sl Fx]; subst. rewrite (IH Sl).
  destruct l as [|y l]; [reflexivity|]. simpl.
  inversion Fx as [|y0 l0 Rxy _]; subst.
  apply Z.leb_le in Rxy. rewrite Rxy. reflexivity.
Qed.

Ltac crack :=
  match goal with
  | s : string |- _ => destruct s as [|[[] [] [] [] [] [] [] []] ?]; try reflexivity
  end.

(** The direction of a sort is descending unless it is ["asc"]. *)
Lemma sortDir_cases {B} (d : option string) (x y : B) :
  match d with Some "asc" => x | _ => y end
  = if match d with Some s => String.eqb s "asc" | None => false end then x else y.
Proof.
  destruct d as [s|]; [|reflexivity]. crack; crack; crack; crack.
Qed.

Lemma sortKey_cases {B} (k : option string) (x y z w : B) :
  match k with
  | Some "name" => x
  | Some "tokens" => y
  | Some "size" => z
  | _ => w
  end
  = match k with
    | Some s => if String.eqb s "name" then x
                else if String.eqb s "tokens" then y
                else if String.eqb s "size" then z
                else w
    | None => w
    end.
Proof.
  destruct k as [s|]; [|reflexivity]. crack; crack; crack; crack; crack; crack; crack.
Qed.

Lemma compareFiles_cases (U : Format.Utils) (sortOrder : string) (a b : Format.FileData) :
  Format.compareFiles U sortOrder a b =
  let parts := splitOn "-"%char sortOrder in
  let comparison :=
    match nth_error parts 0 with
    | Some s =>
      if String.eqb s "name" then Format.localeCompare U (Format.fd_name a) (Format.fd_name b)
      else if String.eqb s "tokens" then (Format.fd_tokenCount a - Format.fd_tokenCount b)%Z
      else if String.eqb s "size" then (Format.fd_size a - Format.fd_size b)%Z
      else 0%Z
    | None => 0%Z
    end in
  if match nth_error parts 1 with Some s => String.eqb s "asc" | None => false end
  then comparison else (- comparison)%Z.
Proof.
  unfold Format.compareFiles. cbv zeta. rewrite sortDir_cases, sortKey_cases. reflexivity.
Qed.

Lemma fold_blocks (U : Format.Utils) (folder : option string)
    (l : list Format.FileData) (acc : string) :
  fold_left (fun acc file => acc ++ Format.fileBlock U folder file) l acc
  = acc ++ blocks U folder l.
Proof.
  revert acc. induction l as [|x l IH]; intros acc; simpl.
  - symmetry. apply PosixFacts.append_empty_r.
  - rewrite IH. apply PosixFacts.append_assoc.
Qed.

(** X16. The formatted text of a non-empty selection is the
    file-structure block (when asked for and a folder is given), the
    code base block holding one file block for each file of the sorted
    selection, in that order, and the block of the trimmed instructions
    (when they are not blank). The sorted selection is a rearrangement
    of the selected files: sorting neither drops nor repeats a file. *)
Theorem format_is_three_blocks (U : Format.Utils) (p : Format.FormatContentParams) :
  selection p <> [] ->
  Format.formatContentForCopying U p
  = treeBlock U p ++ "<CODEBASE>
" ++ blocks U (Format.selectedFolder p) (sortedSelection U p) ++ "</CODEBASE>

" ++ instructionsBlock p /\
  Permutation (sortedSelection U p) (selection p) /\
  List.length (sortedSelection U p) = List.length (selection p).
Proof.
  intros N.
  assert (Permutation (sortedSelection U p) (selection p)) as Perm by apply sortBy_perm.
  split; [|split; [exact Perm | apply Permutation_length, Perm]].
  unfold Format.formatContentForCopying. fold (selection p). fold (sortedSelection U p).
  destruct (sortedSelection U p) as [|x l] eqn:E.
  { apply Permutation_nil in Perm. contradiction. }
  rewrite fold_blocks. unfold instructionsBlock, treeBlock, Format.truthy.
  destruct (Format.selectedFolder p) as [folder|];
    [destruct (Format.includeFileTree p && negb (folder =? ""))|];
    destruct (trim (Format.userInstructions p) =? ""); cbn [negb];
    rewrite ?PosixFacts.append_assoc, ?PosixFacts.append_empty_r; cbn [append];
    rewrite ?PosixFacts.append_assoc; reflexivity.
Qed.

(** Both demo files selected, sorted by name. *)
Lemma format_is_three_blocks_witness :
  Format.formatContentForCopying demoUtils (demoParams ["/r/a.py"; "/r/b.js"])
  = treeBlock demoUtils (demoParams ["/r/a.py"; "/r/b.js"]) ++ "<CODEBASE>
" ++ blocks demoUtils (Some "/r") (sortedSelection demoUtils (demoParams ["/r/a.py"; "/r/b.js"]))
  ++ "</CODEBASE>

" ++ instructionsBlock (demoParams ["/r/a.py"; "/r/b.js"]) /\
  List.length (sortedSelection demoUtils (demoParams ["/r/a.py"; "/r/b.js"])) = 2%nat.
Proof.
  assert (selection (demoParams ["/r/a.py"; "/r/b.js"]) <> []) as N
    by (vm_compute; discriminate).
  destruct (format_is_three_blocks demoUtils (demoParams ["/r/a.py"; "/r/b.js"]) N)
    as (E & _ & L).
  split; [exact E|]. rewrite L. reflexivity.
Defined.

Lemma StronglySorted_impl {A} (R R' : A -> A -> Prop) (l : list A) :
  (forall a b, R a b -> R' a b) -> StronglySorted R l -> StronglySorted R' l.
Proof.
  intros I S. induction S as [|a l S IH F]; constructor; [exact IH|].
  eapply Forall_impl; [|exact F]. intros b. apply I.
Qed.

Lemma sorted_by_key (U : Format.Utils) (p : Format.FormatContentParams)
    (key : Format.FileData -> Z) :
  (forall a b,
     Format.compareFiles U (Format.sortOrder p) a b
     = if match sortDirOf p with Some s => String.eqb s "asc" | None => false end
       then (key a - key b)%Z else (- (key a - key b))%Z) ->
  (sortDirOf p = Some "asc" -> ascendingBy key (sortedSelection U p)) /\
  (sortDirOf p <> Some "asc" -> descendingBy key (sortedSelection U p)).
Proof.
  intros C. split.
  - intros D. unfold ascendingBy, sortedSelection.
    apply StronglySorted_impl
      with (R := fun a b => (Format.compareFiles U (Format.sortOrder p) a b <= 0)%Z).
    + intros a b. rewrite C, D. cbn. lia.
    + apply sortBy_sorted.
      * intros a b. rewrite !C, D. cbn. lia.
      * intros a b c. rewrite !C, D. cbn. lia.
  - intros D. unfold descendingBy, sortedSelection.
    assert (match sortDirOf p with Some s => String.eqb s "asc" | None => false end = false)
      as D'.
    { destruct (sortDirOf p) as [s|]; [|reflexivity].
      apply String.eqb_neq. congruence. }
    apply StronglySorted_impl
      with (R := fun a b => (Format.compareFiles U (Format.sortOrder p) a b <= 0)%Z).
    + intros a b. rewrite C, D'. lia.
    + apply sortBy_sorted.
      * intros a b. rewrite !C, D'. lia.
      * intros a b c. rewrite !C, D'. lia.
Qed.

(** X17. Sorting by tokens or by size: when the second part of the
    sort order is ["asc"] the files are written in non-decreasing order
    of the key; for any other direction, or none, in non-increasing
    order. *)
Theorem numeric_sort_orders_the_files (U : Format.Utils) (p : Format.FormatContentParams) :
  (sortKeyOf p = Some "tokens" ->
   (sortDirOf p = Some "asc" -> ascendingBy Format.fd_tokenCount (sortedSelection U p)) /\
   (sortDirOf p <> Some "asc" ->
    descendingBy Format.fd_tokenCount (sortedSelection U p))) /\
  (sortKeyOf p = Some "size" ->
   (sortDirOf p = Some "asc" -> ascendingBy Format.fd_size (sortedSelection U p)) /\
   (sortDirOf p <> Some "asc" -> descendingBy Format.fd_size (sortedSelection U p))).
Proof.
  split; intros SK; apply sorted_by_key; intros a b; rewrite compareFiles_cases;
    cbv zeta; unfold sortKeyOf in SK; rewrite SK; reflexivity.
Qed.

(** The demo files by tokens, upwards, and by size under a direction
    that is not a direction. *)
Lemma numeric_sort_orders_the_files_witness :
  ascendingBy Format.fd_tokenCount
    (sortedSelection demoUtils
       (Format.mkParams demoFiles ["/r/a.py"; "/r/b.js"] "tokens-asc" false None "")) /\
  descendingBy Format.fd_size
    (sortedSelection demoUtils
       (Format.mkParams demoFiles ["/r/a.py"; "/r/b.js"] "size-up" false None "")).
Proof.
  split.
  - apply (numeric_sort_orders_the_files demoUtils
             (Format.mkParams demoFiles ["/r/a.py"; "/r/b.js"] "tokens-asc" false None ""));
      reflexivity.
  - apply (numeric_sort_orders_the_files demoUtils
             (Format.mkParams demoFiles ["/r/a.py"; "/r/b.js"] "size-up" false None ""));
      [reflexivity | discriminate].
Defined.

(** X18. The sort is stable and does nothing it need not do: a
    selection that the comparison function already accepts is written
    in the order of the file list. This is so in particular when the
    first part of the sort order is none of ["name"], ["tokens"] and
    ["size"]: then every two files compare equal. *)
Theorem ordered_selection_is_kept (U : Format.Utils) (p : Format.FormatContentParams) :
  (inOrder U p (selection p) -> sortedSelection U p = selection p) /\
  (sortKeyOf p <> Some "name" -> sortKeyOf p <> Some "tokens" ->
   sortKeyOf p <> Some "size" ->
   sortedSelection U p = selection p).
Proof.
  split; [apply sortBy_in_order|].
  intros N1 N2 N3. apply sortBy_in_order.
  assert (forall a b, Format.compareFiles U (Format.sortOrder p) a b = 0%Z) as Z0.
  { intros a b. rewrite compareFiles_cases. cbv zeta. unfold sortKeyOf in N1, N2, N3.
    destruct (nth_error (splitOn "-"%char (Format.sortOrder p)) 0) as [s|].
    - assert ((s =? "name") = false) as -> by (apply String.eqb_neq; congruence).
      assert ((s =? "tokens") = false) as -> by (apply String.eqb_neq; congruence).
      assert ((s =? "size") = false) as -> by (apply String.eqb_neq; congruence).
      destruct (match nth_error _ 1 with Some _ => _ | None => _ end); reflexivity.
    - destruct (match nth_error _ 1 with Some _ => _ | None => _ end); reflexivity. }
  induction (selection p) as [|x l IH]; constructor; [exact IH|].
  apply Forall_forall. intros b _. rewrite Z0. lia.
Qed.

(** The demo files under a key that is no key keep the order of the
    file list, and so do they by tokens, in which they already are. *)
Lemma ordered_selection_is_kept_witness :
  sortedSelection demoUtils
    (Format.mkParams demoFiles ["/r/a.py"; "/r/b.js"] "date-asc" false None "")
  = demoFiles /\
  sortedSelection demoUtils
    (Format.mkParams demoFiles ["/r/a.py"; "/r/b.js"] "tokens-asc" false None "")
  = demoFiles.
Proof.
  split.
  - apply (proj2 (ordered_selection_is_kept demoUtils
             (Format.mkParams demoFiles ["/r/a.py"; "/r/b.js"] "date-asc" false None "")));
      discriminate.
  - apply (proj1 (ordered_selection_is_kept demoUtils
             (Format.mkParams demoFiles ["/r/a.py"; "/r/b.js"] "tokens-asc" false None ""))).
    unfold inOrder. change (selection _) with demoFiles. unfold demoFiles.
    constructor; [constructor; constructor|].
    constructor; [vm_compute; discriminate | constructor].
Defined.

(* ------------------------------------------------------------------ *)
(** ** The patterns of the ruleset *)

Lemma startsWith_hash_iff (x : string) :
  startsWith "#" x = true <-> exists rest, x = String "#"%char rest.
Proof.
  unfold startsWith. rewrite String.prefix_correct. split.
  - destruct x as [|a rest]; simpl; try discriminate.
    intros E. injection E as ->. exists rest. reflexivity.
  - intros [rest ->]. simpl. destruct rest; reflexivity.
Qed.

Lemma normalizePath_keeps_pattern (H : Host) (p : string) :
  p <> "" -> startsWith "#" p = false ->
  normalizePath H p <> "" /\ startsWith "#" (normalizePath H p) = false.
Proof.
  intros N C. unfold normalizePath.
  assert ((p =? "") = false) as -> by (apply String.eqb_neq, N).
  assert (replaceBackslashes p <> "" /\ startsWith "#" (replaceBackslashes p) = false) as R.
  { destruct p as [|c p]; [congruence|]. split; [discriminate|].
    destruct (startsWith "#" (replaceBackslashes (String c p))) eqn:E; [|reflexivity].
    apply startsWith_hash_iff in E. destruct E as [rest E].
    unfold replaceBackslashes in E. cbn [mapChars] in E.
    destruct (Ascii.eqb c backslash) eqn:B; [discriminate E|].
    injection E as -> _.
    assert (startsWith "#" (String "#" p) = true) as C'
      by (apply startsWith_hash_iff; eexists; reflexivity).
    congruence. }
  destruct (platform H); try exact R.
  destruct (startsWith "\\" p); [|exact R].
  split; [discriminate | reflexivity].
Qed.

Lemma splitLines_toCRLF (s : string) :
  hasChar carriageReturn s = false -> splitLines (toCRLF s) = splitLines s.
Proof.
  induction s as [|c s IH]; intros N; [reflexivity|].
  cbn [hasChar] in N. unfold hasChar in N. cbn in N.
  fold (hasChar carriageReturn s) in N.
  apply orb_false_elim in N. destruct N as [Nc Ns]. specialize (IH Ns).
  cbn [toCRLF]. destruct (Ascii.eqb c newline) eqn:E.
  - cbn [splitLines]. change (Ascii.eqb carriageReturn newline) with false. cbv iota.
    rewrite Ascii.eqb_refl, E. cbn [andb]. rewrite IH. reflexivity.
  - cbn [splitLines]. rewrite E.
    assert (Ascii.eqb c carriageReturn = false) as C.
    { rewrite Ascii.eqb_sym. exact Nc. }
    rewrite C. cbn [andb]. rewrite IH.
    destruct (toCRLF s), s; reflexivity.
Qed.

(** X19. The patterns compiled for a root. Every pattern taken from
    the [.gitignore] is non-empty and does not start with [#]; off
    Windows it holds no backslash, so that an escape written with one
    does not reach the matcher as such. A [.gitignore] saved with
    Windows line endings gives the same patterns as the same text with
    Unix ones. The default ignores are among the patterns whatever the
    [.gitignore] says, and also when there is none. *)
Theorem gitignore_patterns_are_clean (H : Host) (content : string)
    (excludedFiles : list string) :
  (forall p, In p (userPatterns H content) ->
             p <> "" /\ startsWith "#" p = false /\
             (platform H <> Win32 -> hasChar backslash p = false)) /\
  (hasChar carriageReturn content = false ->
   gitignorePatterns H (Some (toCRLF content)) excludedFiles
   = gitignorePatterns H (Some content) excludedFiles) /\
  (forall d, In d defaultIgnores ->
             In d (gitignorePatterns H (Some content) excludedFiles) /\
             In d (gitignorePatterns H None excludedFiles)).
Proof.
  split; [|split].
  - intros p Hp. unfold userPatterns in Hp. apply in_map_iff in Hp.
    destruct Hp as (q & <- & Hq). apply filter_In in Hq. destruct Hq as [_ T].
    apply andb_true_iff in T. destruct T as [T1 T2].
    apply negb_true_iff in T1, T2. apply String.eqb_neq in T1.
    destruct (normalizePath_keeps_pattern H q T1 T2) as [A B].
    split; [exact A|]. split; [exact B|].
    intros W. unfold normalizePath.
    assert ((q =? "") = false) as -> by (apply String.eqb_neq, T1).
    destruct (platform H); try congruence; apply replaceBackslashes_clears.
  - intros N. unfold gitignorePatterns, userPatterns.
    rewrite (splitLines_toCRLF content N). reflexivity.
  - intros d Hd. unfold gitignorePatterns. split.
    + apply in_or_app. right. apply in_or_app. left. exact Hd.
    + cbn [List.app]. apply in_or_app. left. exact Hd.
Qed.

(** A [.gitignore] with a comment, a blank line, an escaped name and a
    padded one; on the demo host, which is a POSIX one. *)
Lemma gitignore_patterns_are_clean_witness :
  userPatterns (demoHost [] None) "# build output
dist/

\#notes
  *.log  " = ["dist/"; "/#notes"; "*.log"] /\
  gitignorePatterns (demoHost [] None) (Some (toCRLF "a
b")) [] = gitignorePatterns (demoHost [] None) (Some "a
b") [] /\
  hasChar backslash "/#notes" = false.
Proof.
  assert (userPatterns (demoHost [] None) "# build output
dist/

\#notes
  *.log  " = ["dist/"; "/#notes"; "*.log"]) as E by (vm_compute; reflexivity).
  split; [exact E|]. split.
  - apply (gitignore_patterns_are_clean (demoHost [] None) "a
b" []). reflexivity.
  - destruct (gitignore_patterns_are_clean (demoHost [] None) "# build output
dist/

\#notes
  *.log  " []) as (P & _ & _).
    specialize (P "/#notes"). rewrite E in P.
    destruct (P (or_intror (or_introl eq_refl))) as (_ & _ & B).
    apply B. discriminate.
Defined.

(** X20. Sorting by name under a collation that is an order: with
    direction ["asc"] the names are written in collation order, with
    any other direction, or none, in the reverse order. *)
Theorem name_sort_orders_the_files (U : Format.Utils) (p : Format.FormatContentParams) :
  collates U ->
  sortKeyOf p = Some "name" ->
  (sortDirOf p = Some "asc" -> namesAscend U (sortedSelection U p)) /\
  (sortDirOf p <> Some "asc" -> namesDescend U (sortedSelection U p)).
Proof.
  intros [Anti Trans] SK. unfold sortKeyOf in SK.
  assert (forall a b,
            Format.compareFiles U (Format.sortOrder p) a b
            = if match sortDirOf p with Some s => String.eqb s "asc" | None => false end
              then Format.localeCompare U (Format.fd_name a) (Format.fd_name b)
              else (- Format.localeCompare U (Format.fd_name a) (Format.fd_name b))%Z)
    as C.
  { intros a b. rewrite compareFiles_cases. cbv zeta. rewrite SK. reflexivity. }
  split; intros D.
  - unfold namesAscend, sortedSelection.
    apply StronglySorted_impl
      with (R := fun a b => (Format.compareFiles U (Format.sortOrder p) a b <= 0)%Z).
    + intros a b. rewrite C, D. cbn. lia.
    + apply sortBy_sorted.
      * intros a b. rewrite !C, D. cbn.
        pose proof (Anti (Format.fd_name a) (Format.fd_name b)). lia.
      * intros a b c. rewrite !C, D. cbn. apply Trans.
  - unfold namesDescend, sortedSelection.
    assert (match sortDirOf p with Some s => String.eqb s "asc" | None => false end = false)
      as D'.
    { destruct (sortDirOf p) as [s|]; [|reflexivity].
      apply String.eqb_neq. congruence. }
    apply StronglySorted_impl
      with (R := fun a b => (Format.compareFiles U (Format.sortOrder p) a b <= 0)%Z).
    + intros a b. rewrite C, D'.
      pose proof (Anti (Format.fd_name a) (Format.fd_name b)). lia.
    + apply sortBy_sorted.
      * intros a b. rewrite !C, D'.
        pose proof (Anti (Format.fd_name a) (Format.fd_name b)). lia.
      * intros a b c. rewrite !C, D'.
        pose proof (Anti (Format.fd_name a) (Format.fd_name b)).
        pose proof (Anti (Format.fd_name b) (Format.fd_name c)).
        pose proof (Anti (Format.fd_name a) (Format.fd_name c)).
        pose proof (Trans (Format.fd_name c) (Format.fd_name b) (Format.fd_name a)).
        lia.
Qed.

(** The code-unit order of the sample imports is a collation. *)
Lemma collates_demoUtils : collates demoUtils.
Proof.
  split; cbn [Format.localeCompare demoUtils].
  - intros a b. rewrite (String.compare_antisym a b).
    destruct (String.compare b a); reflexivity.
  - intros a b c.
    destruct (String.compare a b) eqn:Eab; [| |intros Hab; lia];
      (destruct (String.compare b c) eqn:Ebc; [| |intros _ Hbc; lia]); intros _ _.
    + apply String.compare_eq_iff in Eab, Ebc. subst b c.
      assert (String.compare a a = Eq) as ->
        by (apply (OrderedTypeEx.String_as_OT.cmp_eq a a); reflexivity).
      lia.
    + apply String.compare_eq_iff in Eab. subst b. rewrite Ebc. lia.
    + apply String.compare_eq_iff in Ebc. subst c. rewrite Eab. lia.
    + pose proof (proj1 (OrderedTypeEx.String_as_OT.cmp_lt a b) Eab) as Lab.
      pose proof (proj1 (OrderedTypeEx.String_as_OT.cmp_lt b c) Ebc) as Lbc.
      assert (String.compare a c = Lt) as ->
        by (apply (OrderedTypeEx.String_as_OT.cmp_lt a c);
            exact (OrderedTypeEx.String_as_OT.lt_trans a b c Lab Lbc)).
      lia.
Qed.

(** The sample files, [b.js] before [a.py] in the file list, under the
    code-unit order: upwards the sort moves [a.py] to the front,
    under a direction that is no direction it leaves [b.js] there. *)
Lemma name_sort_orders_the_files_witness :
  Format.localeCompare demoUtils "a.py" "b.js" = (-1)%Z /\
  map Format.fd_name
    (sortedSelection demoUtils
       (Format.mkParams demoFiles ["/r/a.py"; "/r/b.js"] "name-asc" false None ""))
  = ["a.py"; "b.js"] /\
  namesAscend demoUtils
    (sortedSelection demoUtils
       (Format.mkParams demoFiles ["/r/a.py"; "/r/b.js"] "name-asc" false None "")) /\
  map Format.fd_name
    (sortedSelection demoUtils
       (Format.mkParams demoFiles ["/r/a.py"; "/r/b.js"] "name-down" false None ""))
  = ["b.js"; "a.py"] /\
  namesDescend demoUtils
    (sortedSelection demoUtils
       (Format.mkParams demoFiles ["/r/a.py"; "/r/b.js"] "name-down" false None "")).
Proof.
  split; [reflexivity|]. split; [reflexivity|]. split; [|split; [reflexivity|]].
  - apply (proj1 (name_sort_orders_the_files demoUtils
             (Format.mkParams demoFiles ["/r/a.py"; "/r/b.js"] "name-asc" false None "")
             collates_demoUtils eq_refl)). reflexivity.
  - apply (proj2 (name_sort_orders_the_files demoUtils
             (Format.mkParams demoFiles ["/r/a.py"; "/r/b.js"] "name-down" false None "")
             collates_demoUtils eq_refl)). discriminate.
Defined.

(* ------------------------------------------------------------------ *)
(** ** The fallback estimate under concatenation *)

(** X21. Without an encoder the count of a concatenation is at most
    the sum of the counts of its parts and at least that sum less one
    per joint, and a text that is not longer does not count more: the
    total shown for a selection overstates the count of the
    concatenated text by less than the number of files. *)
Theorem fallback_count_of_a_concatenation (H : Host) (a b : string) :
  encoder H = None ->
  exists na nb n,
    countTokens H a = Normal na /\ countTokens H b = Normal nb /\
    countTokens H (a ++ b) = Normal n /\
    (n <= na + nb <= n + 1)%Z /\
    ((String.length a <= String.length b)%nat -> (na <= nb)%Z).
Proof.
  intros E. unfold countTokens. rewrite E.
  exists (fallbackEstimate a), (fallbackEstimate b), (fallbackEstimate (a ++ b)).
  repeat (split; [reflexivity|]).
  pose proof (fallbackEstimate_bounds a) as Ba.
  pose proof (fallbackEstimate_bounds b) as Bb.
  pose proof (fallbackEstimate_bounds (a ++ b)) as Bab.
  cbv zeta in Ba, Bb, Bab. rewrite PosixFacts.length_app in Bab. split; lia.
Qed.

Lemma fallback_count_of_a_concatenation_witness :
  exists na nb n,
    countTokens (demoHost [] None) "hello" = Normal na /\
    countTokens (demoHost [] None) "world!" = Normal nb /\
    countTokens (demoHost [] None) "helloworld!" = Normal n /\
    (n <= na + nb <= n + 1)%Z /\
    ((String.length "hello" <= String.length "world!")%nat -> (na <= nb)%Z).
Proof.
  exact (fallback_count_of_a_concatenation (demoHost [] None) "hello" "world!" eq_refl).
Defined.

(* ------------------------------------------------------------------ *)
(** ** The default exclusions *)

Lemma prefix_needs_chars (c : ascii) (sub s : string) :
  hasChar c s = false -> hasChar c sub = true -> String.prefix sub s = false.
Proof.
  revert s. induction sub as [|a sub IH]; intros s Ns Hs; [discriminate Hs|].
  destruct s as [|b s]; [reflexivity|]. cbn [String.prefix].
  destruct (ascii_dec a b) as [->|Nab]; [|reflexivity].
  cbn [hasChar] in Ns, Hs. apply orb_false_elim in Ns. destruct Ns as [Nb Ns].
  rewrite Nb in Hs. cbn [orb] in Hs. exact (IH s Ns Hs).
Qed.

Lemma includes_needs_chars (c : ascii) (sub s : string) :
  hasChar c s = false -> hasChar c sub = true -> includes sub s = false.
Proof.
  intros Ns Hs. induction s as [|b s IH]; cbn [includes].
  - rewrite (prefix_needs_chars c sub "" Ns Hs). reflexivity.
  - rewrite (prefix_needs_chars c sub (String b s) Ns Hs). cbn [orb].
    cbn [hasChar] in Ns. apply orb_false_elim in Ns. apply IH, Ns.
Qed.

(** A literal that holds a backslash after its second character is not
    found in a string whose backslashes are among the first two
    characters. *)
Lemma includes_past_the_prefix (sub s : string) :
  hasChar backslash (substring1 (substring1 sub)) = true ->
  hasChar backslash (substring1 (substring1 s)) = false ->
  includes sub s = false.
Proof.
  intros Hs Ns.
  destruct sub as [|s1 [|s2 sub]]; try discriminate Hs. cbn [substring1] in Hs.
  assert (hasChar backslash (String s2 sub) = true) as Hs2
    by (cbn [hasChar]; rewrite Hs; apply orb_true_r).
  assert (hasChar backslash (String s1 (String s2 sub)) = true) as Hs1
    by (cbn [hasChar]; rewrite Hs, !orb_true_r; reflexivity).
  destruct s as [|a [|b s]]; cbn [substring1] in Ns.
  - reflexivity.
  - cbn [includes String.prefix]. destruct (ascii_dec s1 a); reflexivity.
  - cbn [includes]. rewrite (includes_needs_chars backslash _ s Ns Hs1).
    assert (String.prefix (String s1 (String s2 sub)) (String a (String b s)) = false) as ->.
    { cbn [String.prefix]. destruct (ascii_dec s1 a); [|reflexivity].
      destruct (ascii_dec s2 b); [|reflexivity].
      destruct sub as [|s3 sub]; [discriminate Hs|].
      exact (prefix_needs_chars backslash _ s Ns Hs). }
    assert (String.prefix (String s1 (String s2 sub)) (String b s) = false) as ->.
    { cbn [String.prefix]. destruct (ascii_dec s1 b); [|reflexivity].
      exact (prefix_needs_chars backslash _ s Ns Hs2). }
    reflexivity.
Qed.

Lemma lowerChar_backslash (c : ascii) :
  Ascii.eqb (lowerChar c) backslash = Ascii.eqb c backslash.
Proof. destruct c as [[] [] [] [] [] [] [] []]; reflexivity. Qed.

Lemma toLowerCase_backslashes (s : string) :
  hasChar backslash (toLowerCase s) = hasChar backslash s.
Proof.
  unfold toLowerCase. induction s as [|c s IH]; [reflexivity|].
  cbn [mapChars hasChar]. rewrite IH, lowerChar_backslash. reflexivity.
Qed.

Lemma substring1_mapChars (f : ascii -> ascii) (s : string) :
  substring1 (mapChars f s) = mapChars f (substring1 s).
Proof. destruct s; reflexivity. Qed.

Lemma normalizePath_backslashes (H : Host) (p : string) :
  hasChar backslash (substring1 (substring1 (normalizePath H p))) = false.
Proof.
  unfold normalizePath. destruct (p =? "") eqn:Ep.
  { apply String.eqb_eq in Ep. subst p. reflexivity. }
  assert (p <> "") as Np by (apply String.eqb_neq; exact Ep).
  destruct (win32_form p Np) as (_ & _ & W3).
  assert (hasChar backslash (substring1 (substring1 (replaceBackslashes p))) = false)
    as Tail.
  { pose proof (replaceBackslashes_clears p) as C.
    destruct (replaceBackslashes p) as [|a [|b r]]; simpl in *; auto.
    apply orb_false_iff in C. destruct C as [_ C].
    apply orb_false_iff in C. destruct C as [_ C]. exact C. }
  destruct (platform H); [exact W3 | exact Tail | exact Tail | exact Tail].
Qed.

(** X22. The two Windows system-directory tests of
    [shouldExcludeByDefault] never succeed, on any platform and for any
    path: they look for a backslash-delimited name in a path that
    [ensureAbsolutePath] has already rewritten with forward slashes.
    The decision is therefore: outside the root, or the platform test
    that remains (on Windows the reserved device names only), or the
    matcher of the excluded-files list. *)
Theorem windows_directory_test_never_fires (H : Host) (filePath rootDir : string) :
  let absolute := ensureAbsolutePath H filePath in
  let relative := safeRelativePath H (ensureAbsolutePath H rootDir) absolute in
  includes "\windows\" (toLowerCase absolute) = false /\
  includes "\system32\" (toLowerCase absolute) = false /\
  shouldExcludeByDefault H filePath rootDir
  = startsWith ".." relative || platformTest H absolute ||
    excludedFilesMatcher H relative.
Proof.
  cbv zeta.
  assert (forall sub,
            hasChar backslash (substring1 (substring1 sub)) = true ->
            includes sub (toLowerCase (ensureAbsolutePath H filePath)) = false) as Dead.
  { intros sub Hs. apply includes_past_the_prefix; [exact Hs|].
    unfold toLowerCase. rewrite !substring1_mapChars.
    fold (toLowerCase (substring1 (substring1 (ensureAbsolutePath H filePath)))).
    rewrite toLowerCase_backslashes. unfold ensureAbsolutePath.
    apply normalizePath_backslashes. }
  pose proof (Dead "\windows\" eq_refl) as D1.
  pose proof (Dead "\system32\" eq_refl) as D2.
  split; [exact D1|]. split; [exact D2|].
  unfold shouldExcludeByDefault, platformTest, isValidPath. cbn [negb orb].
  rewrite D1, D2, !orb_false_r.
  destruct (startsWith ".." _); [reflexivity|]. cbn [orb].
  match goal with |- _ = ?x || _ => destruct x; reflexivity end.
Qed.

(* ------------------------------------------------------------------ *)
(** ** Relative paths of the formatter *)

Lemma prefix_app (a rest : string) : String.prefix a (a ++ rest) = true.
Proof.
  induction a as [|c a IH]; cbn [append String.prefix]; [destruct rest; reflexivity|].
  destruct (ascii_dec c c) as [_|N]; [exact IH | contradiction N; reflexivity].
Qed.

Lemma dropN_app (a rest : string) : dropN (String.length a) (a ++ rest) = rest.
Proof.
  induction a as [|c a IH]; [destruct rest; reflexivity | exact IH].
Qed.

Lemma stripLeadingSlashes_clean (s : string) :
  startsWith "/" (Format.stripLeadingSlashes s) = false.
Proof.
  induction s as [|c s IH]; [reflexivity|]. cbn [Format.stripLeadingSlashes].
  destruct (Ascii.eqb c slash) eqn:E; [exact IH|].
  unfold startsWith. cbn [String.prefix].
  destruct (ascii_dec "/" c) as [<-|N]; [discriminate E | reflexivity].
Qed.

(** X23. The relative path shown for a file. When the normalized file
    path begins with the normalized folder path, the result is what
    follows it without its leading slashes, and it never starts with a
    slash; the folder path need not end at a separator of the file
    path, so a file of a sibling folder whose name extends the
    folder's is given a relative path too. When it does not begin with
    it, the file path is returned as it was given. *)
Theorem getRelativePath_strips_the_folder (U : Format.Utils)
    (selectedFolder filePath : string) :
  (forall rest,
     Format.normalizePath U filePath = Format.normalizePath U selectedFolder ++ rest ->
     Format.getRelativePath U selectedFolder filePath = Format.stripLeadingSlashes rest /\
     startsWith "/" (Format.getRelativePath U selectedFolder filePath) = false) /\
  (startsWith (Format.normalizePath U selectedFolder) (Format.normalizePath U filePath)
   = false ->
   Format.getRelativePath U selectedFolder filePath = filePath).
Proof.
  split.
  - intros rest E. unfold Format.getRelativePath. rewrite E.
    unfold startsWith. rewrite prefix_app, dropN_app.
    split; [reflexivity | apply stripLeadingSlashes_clean].
  - intros N. unfold Format.getRelativePath. rewrite N. reflexivity.
Qed.

(** A file of the folder, a file of a sibling folder, and a file
    elsewhere. *)
Lemma getRelativePath_strips_the_folder_witness :
  Format.getRelativePath demoUtils "/r" "/r//src/a.js" = "src/a.js" /\
  Format.getRelativePath demoUtils "/r" "/rx/a.js" = "x/a.js" /\
  Format.getRelativePath demoUtils "/r" "\q\a.js" = "\q\a.js".
Proof.
  split; [|split].
  - apply (proj1 (getRelativePath_strips_the_folder demoUtils "/r" "/r//src/a.js")
             "//src/a.js" eq_refl).
  - apply (proj1 (getRelativePath_strips_the_folder demoUtils "/r" "/rx/a.js")
             "x/a.js" eq_refl).
  - apply (proj2 (getRelativePath_strips_the_folder demoUtils "/r" "\q\a.js") eq_refl).
Defined.

(* ------------------------------------------------------------------ *)
(** ** The binary-extension table *)

Lemma lowerChar_idem (c : ascii) : lowerChar (lowerChar c) = lowerChar c.
Proof. destruct c as [[] [] [] [] [] [] [] []]; reflexivity. Qed.

Lemma toLowerCase_idem (s : string) : toLowerCase (toLowerCase s) = toLowerCase s.
Proof.
  unfold toLowerCase. induction s as [|c s IH]; [reflexivity|].
  cbn [mapChars]. rewrite IH, lowerChar_idem. reflexivity.
Qed.

(** X24. [isBinaryFile] looks the lower-cased extension up in the
    table as it stands: only the entries written in lower case can
    match, an entry holding an upper-case letter matches no file; and
    the answer is the same for an extension and for its lower-cased
    form. *)
Theorem binary_table_is_matched_in_lower_case (H : Host) (filePath : string) :
  isBinaryFile H filePath
  = arrayIncludes (toLowerCase (path_extname H filePath)) (lowerCaseEntries H) /\
  (forall other,
     toLowerCase (path_extname H other) = toLowerCase (path_extname H filePath) ->
     isBinaryFile H other = isBinaryFile H filePath).
Proof.
  split.
  - unfold isBinaryFile, lowerCaseEntries, arrayIncludes.
    set (x := toLowerCase (path_extname H filePath)).
    assert (toLowerCase x = x) as Fx by apply toLowerCase_idem.
    induction (binaryExtensions H) as [|t table IH]; [reflexivity|].
    cbn [existsb filter]. rewrite IH.
    destruct (toLowerCase t =? t) eqn:Lt; [reflexivity|].
    destruct (x =? t) eqn:E; [|reflexivity].
    apply String.eqb_eq in E. subst t. rewrite Fx, String.eqb_refl in Lt.
    discriminate Lt.
  - intros other E. unfold isBinaryFile. rewrite E. reflexivity.
Qed.

(** A table with an upper-case entry: [.PNG] is dead, [.png] matches
    [A.PNG]. *)
Lemma binary_table_is_matched_in_lower_case_witness :
  lowerCaseEntries (demoHost [".PNG"; ".jpg"] None) = [".jpg"] /\
  isBinaryFile (demoHost [".PNG"; ".jpg"] None) "/r/a.PNG" = false /\
  isBinaryFile (demoHost [".png"] None) "/r/A.PNG"
  = isBinaryFile (demoHost [".png"] None) "/r/a.png".
Proof.
  split; [reflexivity|]. split.
  - rewrite (proj1 (binary_table_is_matched_in_lower_case
                      (demoHost [".PNG"; ".jpg"] None) "/r/a.PNG")). reflexivity.
  - apply (proj2 (binary_table_is_matched_in_lower_case
                    (demoHost [".png"] None) "/r/a.png") "/r/A.PNG"). reflexivity.
Defined.
